(** * KeyIntentNER-T: the keyword intelligence pipeline of [app.py]

    A shallow embedding of the core of [app.py]: the rule-based intent
    classifier [sort_by_keyword_feature], the entity extractor adapter
    [extract_entities], the topic matcher
    [perform_topic_modeling_from_similarities], the batch orchestrator
    [batch_process_keywords] and the entry point
    [handle_keyword_processing].

    Conventions of the embedding.
    - A Python [str] is a [string] whose characters are read as code points
      below 256 (Latin-1); [lower], [strip] and [isspace] follow CPython on
      that range.  Code points from 256 on are outside the model.
    - An exception is a [None] (or an [Aborted] outcome); a [try]/[except]
      is the [match] that handles it.
    - The module-level variable [google_categories] is threaded explicitly
      as [Globals].  An environment [Env] gives the outcome of one call of
      each lazily loaded model; the module [Process] threads the variables
      [nlp] and [sentence_model] as well, for the processes in which the
      outcome of a call depends on the calls before it.
    - The machine-learned models, [cosine_similarity]'s arithmetic and the
      category file are the environment: they are parameters, never fixed.
    - A batch size is a [nat]; negative sizes are outside the model. *)

From Stdlib Require Import List String Ascii Bool Arith ZArith Lia.
From Stdlib Require Import QArith PrimFloat Permutation Sorted.
Import ListNotations.

Set Warnings "-inexact-float".
Local Open Scope string_scope.
Local Open Scope list_scope.
Local Open Scope nat_scope.

(** ** Python string primitives *)

Module PyStr.

(** [str.isspace] on one code point below 256: TAB..CR, FS..US, SPACE,
    NEL (0x85) and NBSP (0xA0). *)
Definition isspace (c : ascii) : bool :=
  let n := nat_of_ascii c in
  ((9 <=? n) && (n <=? 13)) || ((28 <=? n) && (n <=? 32))
  || (n =? 133) || (n =? 160).

(** [str.lower] on one code point below 256: A..Z and the Latin-1 capitals
    0xC0..0xDE except the multiplication sign 0xD7 move up by 32. *)
Definition lower_char (c : ascii) : ascii :=
  let n := nat_of_ascii c in
  if ((65 <=? n) && (n <=? 90))
     || ((192 <=? n) && (n <=? 222) && negb (n =? 215))
  then ascii_of_nat (n + 32) else c.

Fixpoint lower (s : string) : string :=
  match s with
  | EmptyString => EmptyString
  | String c t => String (lower_char c) (lower t)
  end.

Fixpoint lstrip (s : string) : string :=
  match s with
  | EmptyString => EmptyString
  | String c t => if isspace c then lstrip t else s
  end.

Fixpoint rstrip (s : string) : string :=
  match s with
  | EmptyString => EmptyString
  | String c t =>
      match rstrip t with
      | EmptyString => if isspace c then EmptyString else String c EmptyString
      | t' => String c t'
      end
  end.

(** [s.strip()] *)
Definition strip (s : string) : string := rstrip (lstrip s).

(** [s.split('\n')]: one more piece than there are line feeds. *)
Fixpoint split_lines (s : string) : list string :=
  match s with
  | EmptyString => [EmptyString]
  | String c t =>
      if Ascii.eqb c "010"%char then EmptyString :: split_lines t
      else match split_lines t with
           | h :: r => String c h :: r
           | [] => [String c EmptyString]
           end
  end.

(** [needle in hay] for two strings. *)
Fixpoint contains (needle hay : string) : bool :=
  String.prefix needle hay
  || match hay with
     | EmptyString => false
     | String _ t => contains needle t
     end.

(** Truthiness of a string: [bool(s)]. *)
Definition truthy (s : string) : bool :=
  match s with EmptyString => false | _ => true end.

(** [sep.join(l)] *)
Definition join (sep : string) (l : list string) : string :=
  String.concat sep l.

End PyStr.

(** ** Python values reaching the classifier *)

Inductive pyobj : Type :=
| PyNone
| PyBool (b : bool)
| PyInt (n : Z)
| PyStr (s : string)
| PyBytes (b : list ascii).

(** ** Intent classifier: [sort_by_keyword_feature] *)

Module Intent.
Import PyStr.

Definition informational_keywords : list string :=
  [ "advice"; "help"; "how do i"; "how does"; "how to"; "ideas";
    "information"; "tools"; "list"; "resources"; "tips"; "tutorial"; "diy";
    "ways to"; "what does"; "what is"; "what was"; "where are"; "where does";
    "where can"; "where is"; "where was"; "when is"; "when are"; "when was";
    "where to"; "who is"; "who said"; "who wrote"; "who are"; "why are";
    "who was"; "why is"; "examples"; "explained"; "meaning of"; "definition";
    "benefits of"; "uses of"; "overview"; "summary"; "report"; "study";
    "analysis"; "research"; "insight"; "data"; "facts"; "details";
    "background"; "context"; "news"; "history"; "documentation"; "article";
    "paper"; "blog"; "forum"; "discussion"; "commentary"; "opinion";
    "perspective"; "viewpoint"; "guide"; "difference between"; "types of" ].

Definition navigational_keywords : list string :=
  [ "facebook"; "meta"; "twitter"; "site"; "login"; "account";
    "official website"; "homepage"; "portal"; "signin"; "register"; "signup";
    "dashboard"; "profile"; "settings"; "control panel"; "main page";
    "user area"; "admin"; "control"; "access"; "entry"; "webpage";
    "navigate"; "home"; "site map"; "directory"; "find"; "search"; "lookup";
    "index"; "online"; "internet"; "web"; "browser"; "navigate to"; "goto";
    "landing page"; "url"; "hyperlink"; "link"; "web address"; "navigate";
    "web navigation"; "website address"; "app"; "download"; "status"; "join" ].

Definition local_keywords : list string :=
  [ "closest"; "close"; "near me"; "my area"; "residential"; "my zip";
    "my city"; "nearby"; "in town"; "around here"; "local"; "near";
    "vicinity"; "local area"; "nearest"; "surrounding"; "within miles";
    "in my neighborhood"; "district"; "zone"; "region"; "near my location";
    "local services"; "community"; "local shop"; "in my vicinity";
    "local store"; "suburb"; "urban area"; "within walking distance";
    "around my place"; "within my reach"; "close by"; "local office";
    "local branch"; "near me now"; "in my locale"; "within the city";
    "local market"; "in my town"; "local spot"; "local point"; "local guide";
    "near my house"; "local venue"; "close to me"; "within blocks";
    "local attractions"; "local events"; "address" ].

Definition commercial_keywords : list string :=
  [ "best"; "affordable"; "budget"; "cheap"; "expensive"; "review"; "top";
    "service"; "cost"; "average cost"; "calculator"; "provider"; "company";
    "vs"; "companies"; "professional"; "specialist"; "compare"; "comparison";
    "rating"; "testimonials"; "recommendation"; "advisor"; "consultant";
    "expert"; "ranking"; "leader"; "top-rated"; "best-selling"; "trending";
    "featured"; "highlighted"; "recommended"; "popular"; "favorite";
    "preferred"; "choice"; "most reviewed"; "highest rated";
    "highly recommended"; "award-winning"; "five-star"; "customer favorite";
    "top pick"; "critically acclaimed"; "editor's choice"; "people's choice";
    "top performer"; "best value"; "best overall"; "best quality";
    "best price"; "most trusted"; "leading brand"; "popular choice";
    "most popular"; "fees"; "pros and cons" ].

Definition transactional_keywords : list string :=
  [ "price"; "quotes"; "pricing"; "purchase"; "rates"; "how much";
    "same day"; "same-day"; "buy"; "order"; "discount"; "deal"; "offers";
    "sale"; "checkout"; "book"; "reservation"; "reserve"; "bargain";
    "coupon"; "promo"; "rebate"; "clearance"; "markdown"; "buy one get one";
    "bogo"; "special"; "exclusive"; "bundle"; "package"; "subscription";
    "membership"; "payment"; "installment"; "financing"; "contract";
    "billing"; "invoice"; "ticket"; "admission"; "entry"; "enrollment";
    "register"; "sign up"; "pre-order"; "e-commerce"; "shopping cart" ].

(** [any(keyword in f for keyword in phrases)] *)
Definition any_in (phrases : list string) (f : string) : bool :=
  existsb (fun keyword => contains keyword f) phrases.

Definition sort_by_keyword_feature (f : pyobj) : string :=
  match f with
  | PyStr f =>
      let f := lower f in
      if any_in informational_keywords f then "informational"
      else if any_in navigational_keywords f then "navigational"
      else if any_in local_keywords f then "local"
      else if any_in commercial_keywords f then "commercial investigation"
      else if any_in transactional_keywords f then "transactional"
      else "other"
  | _ => "other"
  end.

(** The six strings the classifier can return. *)
Definition intent_labels : list string :=
  [ "informational"; "navigational"; "local"; "commercial investigation";
    "transactional"; "other" ].

(** The specification's reading of the classifier: an ordered rule table,
    the first rule with a phrase inside the lower-cased keyword wins. *)
Definition intent_rules : list (string * list string) :=
  [ ("informational", informational_keywords);
    ("navigational", navigational_keywords);
    ("local", local_keywords);
    ("commercial investigation", commercial_keywords);
    ("transactional", transactional_keywords) ].

Definition classify_first_match (keyword : string) : string :=
  match find (fun rule => any_in (snd rule) (lower keyword)) intent_rules with
  | Some rule => fst rule
  | None => "other"
  end.

(** The label set as the specification spells it. *)
Definition spec_intent_labels : list string :=
  [ "informational"; "navigational"; "local"; "commercial_investigation";
    "transactional"; "other" ].

End Intent.

(** ** Similarity scores

    The entries of a similarity matrix are numpy floats.  The code uses
    three operations on them: the order [ndarray.argsort] sorts by, the
    comparison [a > b], and the product [a * 1.1]. *)

Class Score (S : Type) : Type := {
  sort_lt : S -> S -> bool;
  gt : S -> S -> bool;
  times_1_1 : S -> S
}.

(** Scores whose sorting order is a strict weak order (floats without NaN,
    exact rationals). *)
Class OrderedScore (S : Type) : Type := {
  ordered_score :: Score S;
  sort_lt_asym : forall a b : S, sort_lt a b = true -> sort_lt b a = false;
  sort_lt_negtrans : forall a b c : S,
      sort_lt b a = false -> sort_lt c b = false -> sort_lt c a = false
}.

(** Exact rational arithmetic. *)
#[export] Instance Q_Score : Score Q := {
  sort_lt a b := negb (Qle_bool b a);
  gt a b := negb (Qle_bool a b);
  times_1_1 a := (a * (11 # 10))%Q
}.

(** IEEE binary64, with numpy's sorting order (NaN sorts last): the
    arithmetic of a float64 array, and of a float32 score times the Python
    float 1.1 before numpy 2 (from numpy 2 on that product is float32). *)
#[export] Instance float_Score : Score float := {
  sort_lt a b :=
    (PrimFloat.ltb a b
     || (PrimFloat.is_nan b && negb (PrimFloat.is_nan a)))%bool;
  gt a b := PrimFloat.ltb b a;
  times_1_1 a := PrimFloat.mul a 1.1%float
}.

(** ** The environment of one process *)

Record Env (vec score : Type) : Type := {
  (** [get_sentence_model()]: [None] when constructing the
      SentenceTransformer raises, else the model's [encode] method, itself
      [None] on the batches where it raises. *)
  sentence_model : option (list string -> option (list vec));
  (** [get_nlp()(text)] and the reading of [doc.ents]: the (text, label)
      pairs, [None] when loading or running the model raises.  One outcome
      per text: the calls of a process whose pipeline is loaded whole or
      not at all (see [Process] for the others). *)
  gliner : string -> option (list (string * string));
  (** The cosine of two embedding rows. *)
  cosine : vec -> vec -> score;
  (** The lines of [google_categories.txt]; [None] when reading raises. *)
  categories_file : option (list string)
}.
Arguments sentence_model {vec score} _.
Arguments gliner {vec score} _.
Arguments cosine {vec score} _.
Arguments categories_file {vec score} _.

(** The same environment with another entity extractor. *)
Definition with_gliner {vec score : Type} (E : Env vec score)
    (g : string -> option (list (string * string))) : Env vec score :=
  {| sentence_model := sentence_model E;
     gliner := g;
     cosine := cosine E;
     categories_file := categories_file E |}.

(** The module variable [google_categories], which outlives a call.  The
    variables [nlp] and [sentence_model] are [ModelGlobals] below. *)
Record Globals : Type := { google_categories : list string }.

(** An element of the list [extract_entities] returns: a (text, label)
    tuple, or a bare message string. *)
Inductive entity : Type :=
| Tuple (text label : string)
| Text (message : string).

(** The dict of four columns. *)
Record ProcessedData : Type := {
  Keywords : list string;
  Intent : list string;
  NER_Entities : list string;
  Google_Content_Topics : list string
}.

Definition empty_processed_data : ProcessedData :=
  {| Keywords := []; Intent := []; NER_Entities := [];
     Google_Content_Topics := [] |}.

(** Which of the two log lines ended a run of the orchestrator:
    "Keyword processing completed successfully", or the one of the
    [except] branch. *)
Inductive outcome : Type := Completed | Aborted.

(** [l[-n:]] for [n > 0] *)
Definition last_n {A : Type} (n : nat) (l : list A) : list A :=
  skipn (List.length l - n) l.

(** [range(0, stop, step)] for a positive [step]. *)
Fixpoint range_from (fuel start stop step : nat) : list nat :=
  match fuel with
  | 0 => []
  | S fuel' =>
      if start <? stop then start :: range_from fuel' (start + step) stop step
      else []
  end.

(** [range(0, stop, step)]: a zero step raises [ValueError]. *)
Definition range_step (stop step : nat) : option (list nat) :=
  match step with
  | 0 => None
  | _ => Some (range_from stop 0 stop step)
  end.

Notation "x <- e ;; k" :=
  (match e with Some x => k | None => None end)
  (at level 61, e at next level, right associativity).

Section Pipeline.

Context {vec score : Type} `{Score score}.
Variable E : Env vec score.

Import PyStr.

Definition load_google_categories (g : Globals) : list string * Globals :=
  match google_categories g with
  | [] =>
      let read :=
        match categories_file E with
        | Some lines => map strip lines
        | None => []
        end in
      (read, {| google_categories := read |})
  | loaded => (loaded, g)
  end.

Definition extract_entities (text : string) : list entity :=
  match gliner E text with
  | Some ents =>
      match map (fun ent => Tuple (fst ent) (snd ent)) ents with
      | [] => [Text "No specific entities found"]
      | entities => entities
      end
  | None => [Text "Error extracting entities"]
  end.

Definition compute_category_embeddings (g : Globals)
  : list vec * Globals :=
  let (categories, g) := load_google_categories g in
  match sentence_model E with
  | Some encode =>
      match encode categories with
      | Some embeddings => (embeddings, g)
      | None => ([], g)
      end
  | None => ([], g)
  end.

(** [sklearn]'s [cosine_similarity(X, Y)]: input validation refuses an
    argument that is not a two-dimensional array with at least one row
    ([ValueError]); entry (r, c) of the result is the cosine of row r of
    [X] and row c of [Y].  All rows come from one embedder, so their common
    width is not modelled. *)
Definition cosine_similarity (X Y : list vec) : option (list (list score)) :=
  match X, Y with
  | [], _ => None
  | _, [] => None
  | _, _ => Some (map (fun x => map (cosine E x) Y) X)
  end.

(** [similarities.argsort()]: the indices in ascending order of their
    values, by insertion from the right.  Among equal values the order is
    numpy's to choose (its default sort is not stable); here they keep
    their order, one of the orders it may return. *)
Fixpoint insert_sorted (x : nat * score) (l : list (nat * score))
  : list (nat * score) :=
  match l with
  | [] => [x]
  | y :: r =>
      if sort_lt (snd y) (snd x) then y :: insert_sorted x r else x :: l
  end.

Definition sorted_pairs (similarities : list score) : list (nat * score) :=
  fold_right insert_sorted []
    (combine (seq 0 (List.length similarities)) similarities).

Definition argsort (similarities : list score) : list nat :=
  map fst (sorted_pairs similarities).

Definition perform_topic_modeling_from_similarities
    (similarities : list score) (g : Globals) : string * Globals :=
  let (categories, g) := load_google_categories g in
  let top_indices := rev (last_n 3 (argsort similarities)) in
  let answer :=
    i0 <- nth_error top_indices 0 ;;
    best_match <- nth_error categories i0 ;;
    i1 <- nth_error top_indices 1 ;;
    second_best <- nth_error categories i1 ;;
    s0 <- nth_error similarities i0 ;;
    s1 <- nth_error similarities i1 ;;
    Some (if gt s0 (times_1_1 s1) then best_match
          else (best_match ++ " , " ++ second_best)%string) in
  match answer with
  | Some topic => (topic, g)
  | None => ("Error in topic modeling", g)
  end.

(** [[perform_topic_modeling_from_similarities(sim) for sim in similarities]] *)
Fixpoint topics_of_rows (similarities : list (list score)) (g : Globals)
  : list string * Globals :=
  match similarities with
  | [] => ([], g)
  | sim :: rest =>
      let (topic, g) := perform_topic_modeling_from_similarities sim g in
      let (topics, g) := topics_of_rows rest g in
      (topic :: topics, g)
  end.

Definition entity_string (e : entity) : string :=
  match e with
  | Tuple text label => (text ++ " (" ++ label ++ ")")%string
  | Text message => message
  end.

Definition processed_entity (entity_list : list entity) : string :=
  join ", " (map entity_string entity_list).

(** The body of the [for] loop on one batch: [None] when [encode] or
    [cosine_similarity] raises, which is before any column is extended. *)
Definition process_batch (encode : list string -> option (list vec))
    (category_embeddings : list vec) (batch : list string)
    (processed_data : ProcessedData) (g : Globals)
  : option ProcessedData * Globals :=
  match encode batch with
  | None => (None, g)
  | Some batch_embeddings =>
      let intents :=
        map (fun kw => Intent.sort_by_keyword_feature (PyStr kw)) batch in
      let entities := map extract_entities batch in
      match cosine_similarity batch_embeddings category_embeddings with
      | None => (None, g)
      | Some similarities =>
          let (topics, g) := topics_of_rows similarities g in
          let processed_entities := map processed_entity entities in
          (Some {| Keywords := Keywords processed_data ++ batch;
                   Intent := Intent processed_data ++ intents;
                   NER_Entities :=
                     NER_Entities processed_data ++ processed_entities;
                   Google_Content_Topics :=
                     Google_Content_Topics processed_data ++ topics |}, g)
      end
  end.

(** The [for] loop over the batch start indices; the first batch that
    raises ends it with the columns as they are. *)
Fixpoint batch_loop (encode : list string -> option (list vec))
    (category_embeddings : list vec) (batch_size : nat)
    (keywords : list string) (starts : list nat)
    (processed_data : ProcessedData) (g : Globals)
  : ProcessedData * outcome * Globals :=
  match starts with
  | [] => (processed_data, Completed, g)
  | i :: rest =>
      let batch := firstn batch_size (skipn i keywords) in
      match process_batch encode category_embeddings batch processed_data g with
      | (Some processed_data, g) =>
          batch_loop encode category_embeddings batch_size keywords rest
            processed_data g
      | (None, g) => (processed_data, Aborted, g)
      end
  end.

(** [batch_process_keywords] with the log line that ended it and the
    module state it leaves. *)
Definition batch_process_keywords_run (keywords : list string)
    (batch_size : nat) (g : Globals) : ProcessedData * outcome * Globals :=
  let processed_data := empty_processed_data in
  match sentence_model E with
  | None => (processed_data, Aborted, g)
  | Some encode =>
      let (category_embeddings, g) := compute_category_embeddings g in
      match range_step (List.length keywords) batch_size with
      | None => (processed_data, Aborted, g)
      | Some starts =>
          batch_loop encode category_embeddings batch_size keywords starts
            processed_data g
      end
  end.

(** What the caller of [batch_process_keywords] receives. *)
Definition batch_process_keywords (keywords : list string)
    (batch_size : nat) (g : Globals) : ProcessedData :=
  fst (fst (batch_process_keywords_run keywords batch_size g)).

(** The nine outputs of the Dash callback. *)
Record CallbackOutputs : Type := {
  models_loaded : bool;
  submit_disabled : bool;
  alert_is_open : bool;
  alert_children : string;
  alert_color : string;
  processed_data_out : option ProcessedData;
  loading_output : string;
  processing_alert_is_open : bool;
  processing_alert_children : string
}.

(** The list comprehension of [handle_keyword_processing]. *)
Definition input_keywords (keyword_input : string) : list string :=
  map strip
    (filter (fun kw => truthy (strip kw))
       (firstn 100 (split_lines keyword_input))).

Definition handle_keyword_processing (n_clicks : option Z)
    (keyword_input : option string) (g : Globals)
  : CallbackOutputs * Globals :=
  let nothing :=
    {| models_loaded := true; submit_disabled := false;
       alert_is_open := false; alert_children := "";
       alert_color := "success"; processed_data_out := None;
       loading_output := ""; processing_alert_is_open := false;
       processing_alert_children := "" |} in
  match n_clicks, keyword_input with
  | Some _, Some (String _ _ as keyword_input) =>
      let keywords := input_keywords keyword_input in
      let '(processed_data, _, g) :=
        batch_process_keywords_run keywords 8 g in
      ({| models_loaded := true; submit_disabled := false;
          alert_is_open := false; alert_children := "";
          alert_color := "success";
          processed_data_out := Some processed_data;
          loading_output := ""; processing_alert_is_open := true;
          processing_alert_children := "Keyword processing complete!" |}, g)
  | _, _ => (nothing, g)
  end.

End Pipeline.

(** ** The other functions of [app.py] *)

(** [perform_ner]: the pairs the extractor found, [[]] when it raises. *)
Definition perform_ner {vec score : Type} (E : Env vec score)
    (text : string) : list (string * string) :=
  match gliner E text with
  | Some ents => ents
  | None => []
  end.

(** *** The lazily loaded models

    What [get_nlp] and [get_sentence_model] call to build their models:
    [spacy.blank("en")] returns a pipeline or raises; [nlp.add_pipe(...)]
    works on that pipeline in place and may raise, so it gives the pipeline
    as it leaves it and whether it returned normally;
    [SentenceTransformer(...)] returns a model or raises. *)
Record Loaders (pipeline model : Type) : Type := {
  spacy_blank : option pipeline;
  add_pipe : pipeline -> pipeline * bool;
  SentenceTransformer : option model
}.
Arguments spacy_blank {pipeline model} _.
Arguments add_pipe {pipeline model} _ _.
Arguments SentenceTransformer {pipeline model} _.

(** The module variables [nlp] and [sentence_model]. *)
Record ModelGlobals (pipeline model : Type) : Type := {
  nlp : option pipeline;
  sentence_model_var : option model
}.
Arguments nlp {pipeline model} _.
Arguments sentence_model_var {pipeline model} _.

Section LazyModels.

Context {pipeline model : Type}.
Variable L : Loaders pipeline model.

(** [get_nlp]: the assignment [nlp = spacy.blank("en")] comes before
    [add_pipe], and the handler re-raises. *)
Definition get_nlp (G : ModelGlobals pipeline model)
  : option pipeline * ModelGlobals pipeline model :=
  match nlp G with
  | Some loaded => (Some loaded, G)
  | None =>
      match spacy_blank L with
      | None => (None, G)
      | Some blank =>
          let (built, returned) := add_pipe L blank in
          let G := {| nlp := Some built;
                      sentence_model_var := sentence_model_var G |} in
          if returned then (Some built, G) else (None, G)
      end
  end.

Definition get_sentence_model (G : ModelGlobals pipeline model)
  : option model * ModelGlobals pipeline model :=
  match sentence_model_var G with
  | Some loaded => (Some loaded, G)
  | None =>
      match SentenceTransformer L with
      | Some built =>
          (Some built, {| nlp := nlp G; sentence_model_var := Some built |})
      | None => (None, G)
      end
  end.

End LazyModels.

(** [n] calls of [get_nlp] in a row, each with the loaders of its moment:
    the results, oldest first, and the module variables left. *)
Fixpoint get_nlp_calls {pipeline model : Type}
    (loaders : list (Loaders pipeline model))
    (G : ModelGlobals pipeline model)
  : list (option pipeline) * ModelGlobals pipeline model :=
  match loaders with
  | [] => ([], G)
  | L :: rest =>
      let (result, G) := get_nlp L G in
      let (results, G) := get_nlp_calls rest G in
      (result :: results, G)
  end.

(** *** The orchestrator over the module variables of the models

    An [Env] says what a call of [get_sentence_model()] and of
    [get_nlp()(text)] gives, one outcome per text.  That is all there is to
    say of a process whose variable [nlp] is set, or in which [add_pipe]
    returns normally.  Where [add_pipe] raises it is not: the first call of
    [get_nlp] raises and the later ones return the unfinished pipeline, so
    the outcome for a text depends on the call.  Here the orchestrator is
    written over the loaders, and the variables [nlp] and [sentence_model]
    are threaded through it next to [google_categories]. *)

Module Process.

(** What lies outside the process: the loaders of the two models, what a
    pipeline returns for a text ([nlp(text)] and the reading of [doc.ents];
    [None] when that raises), what a sentence model returns for a list of
    texts ([None] when [encode] raises), the cosine of two embedding rows
    and the lines of the category file. *)
Record World (pipeline model vec score : Type) : Type := {
  loaders : Loaders pipeline model;
  pipeline_call : pipeline -> string -> option (list (string * string));
  model_encode : model -> list string -> option (list vec);
  vector_cosine : vec -> vec -> score;
  category_file : option (list string)
}.
Arguments loaders {pipeline model vec score} _.
Arguments pipeline_call {pipeline model vec score} _ _ _.
Arguments model_encode {pipeline model vec score} _ _ _.
Arguments vector_cosine {pipeline model vec score} _ _ _.
Arguments category_file {pipeline model vec score} _.

(** All the module variables: [google_categories], [nlp] and
    [sentence_model]. *)
Record State (pipeline model : Type) : Type := {
  category_vars : Globals;
  model_vars : ModelGlobals pipeline model
}.
Arguments category_vars {pipeline model} _.
Arguments model_vars {pipeline model} _.

Section Orchestrator.

Context {pipeline model vec score : Type} `{Score score}.
Variable W : World pipeline model vec score.

(** The environment of one call in a process whose model variables are
    [M]: what [get_sentence_model()] and [get_nlp()(text)] give there. *)
Definition env_at (M : ModelGlobals pipeline model) : Env vec score :=
  {| sentence_model :=
       match fst (get_sentence_model (loaders W) M) with
       | Some loaded => Some (model_encode W loaded)
       | None => None
       end;
     gliner :=
       fun text =>
         match fst (get_nlp (loaders W) M) with
         | Some loaded => pipeline_call W loaded text
         | None => None
         end;
     cosine := vector_cosine W;
     categories_file := category_file W |}.

(** [get_nlp()(text)] and the reading of [doc.ents]. *)
Definition nlp_call (text : string) (M : ModelGlobals pipeline model)
  : option (list (string * string)) * ModelGlobals pipeline model :=
  let (loaded, M) := get_nlp (loaders W) M in
  match loaded with
  | Some loaded => (pipeline_call W loaded text, M)
  | None => (None, M)
  end.

Definition extract_entities (text : string) (st : State pipeline model)
  : list entity * State pipeline model :=
  let (doc_ents, M) := nlp_call text (model_vars st) in
  let st := {| category_vars := category_vars st; model_vars := M |} in
  match doc_ents with
  | Some ents =>
      match map (fun ent => Tuple (fst ent) (snd ent)) ents with
      | [] => ([Text "No specific entities found"], st)
      | entities => (entities, st)
      end
  | None => ([Text "Error extracting entities"], st)
  end.

(** [[extract_entities(kw) for kw in batch]] *)
Fixpoint entities_of_batch (batch : list string) (st : State pipeline model)
  : list (list entity) * State pipeline model :=
  match batch with
  | [] => ([], st)
  | kw :: rest =>
      let (entities, st) := extract_entities kw st in
      let (others, st) := entities_of_batch rest st in
      (entities :: others, st)
  end.

Definition compute_category_embeddings (st : State pipeline model)
  : list vec * State pipeline model :=
  let (categories, g) :=
    load_google_categories (env_at (model_vars st)) (category_vars st) in
  let (loaded, M) := get_sentence_model (loaders W) (model_vars st) in
  let st := {| category_vars := g; model_vars := M |} in
  match loaded with
  | Some loaded =>
      match model_encode W loaded categories with
      | Some embeddings => (embeddings, st)
      | None => ([], st)
      end
  | None => ([], st)
  end.

(** The body of the [for] loop on one batch; [None] when [encode] or
    [cosine_similarity] raises.  The entities are extracted before the
    similarities are computed. *)
Definition process_batch (sentence_model : model)
    (category_embeddings : list vec) (batch : list string)
    (processed_data : ProcessedData) (st : State pipeline model)
  : option ProcessedData * State pipeline model :=
  match model_encode W sentence_model batch with
  | None => (None, st)
  | Some batch_embeddings =>
      let intents :=
        map (fun kw => Intent.sort_by_keyword_feature (PyStr kw)) batch in
      let (entities, st) := entities_of_batch batch st in
      match cosine_similarity (env_at (model_vars st)) batch_embeddings
              category_embeddings with
      | None => (None, st)
      | Some similarities =>
          let (topics, g) :=
            topics_of_rows (env_at (model_vars st)) similarities
              (category_vars st) in
          let st := {| category_vars := g; model_vars := model_vars st |} in
          let processed_entities := map processed_entity entities in
          (Some {| Keywords := Keywords processed_data ++ batch;
                   Intent := Intent processed_data ++ intents;
                   NER_Entities :=
                     NER_Entities processed_data ++ processed_entities;
                   Google_Content_Topics :=
                     Google_Content_Topics processed_data ++ topics |}, st)
      end
  end.

Fixpoint batch_loop (sentence_model : model)
    (category_embeddings : list vec) (batch_size : nat)
    (keywords : list string) (starts : list nat)
    (processed_data : ProcessedData) (st : State pipeline model)
  : ProcessedData * outcome * State pipeline model :=
  match starts with
  | [] => (processed_data, Completed, st)
  | i :: rest =>
      let batch := firstn batch_size (skipn i keywords) in
      match process_batch sentence_model category_embeddings batch
              processed_data st with
      | (Some processed_data, st) =>
          batch_loop sentence_model category_embeddings batch_size keywords
            rest processed_data st
      | (None, st) => (processed_data, Aborted, st)
      end
  end.

(** [batch_process_keywords] with the log line that ended it and the
    module variables it leaves. *)
Definition batch_process_keywords_run (keywords : list string)
    (batch_size : nat) (st : State pipeline model)
  : ProcessedData * outcome * State pipeline model :=
  let processed_data := empty_processed_data in
  let (loaded, M) := get_sentence_model (loaders W) (model_vars st) in
  let st := {| category_vars := category_vars st; model_vars := M |} in
  match loaded with
  | None => (processed_data, Aborted, st)
  | Some sentence_model =>
      let (category_embeddings, st) := compute_category_embeddings st in
      match range_step (List.length keywords) batch_size with
      | None => (processed_data, Aborted, st)
      | Some starts =>
          batch_loop sentence_model category_embeddings batch_size keywords
            starts processed_data st
      end
  end.

Definition batch_process_keywords (keywords : list string)
    (batch_size : nat) (st : State pipeline model) : ProcessedData :=
  fst (fst (batch_process_keywords_run keywords batch_size st)).

(** What the calls [get_nlp()(kw)] give, one after the other, for the
    keywords of a list: the entities found, or [None] for a call that
    raised. *)
Fixpoint outcomes (keywords : list string) (M : ModelGlobals pipeline model)
  : list (option (list (string * string))) :=
  match keywords with
  | [] => []
  | kw :: rest =>
      let (doc_ents, M) := nlp_call kw M in
      doc_ents :: outcomes rest M
  end.

End Orchestrator.

(** The entity field of a row for one outcome of the extractor. *)
Definition entity_field (doc_ents : option (list (string * string)))
  : string :=
  match doc_ents with
  | Some [] => "No specific entities found"
  | Some ents =>
      processed_entity (map (fun ent => Tuple (fst ent) (snd ent)) ents)
  | None => "Error extracting entities"
  end.

End Process.

(** *** The callbacks on the stored result *)

(** One row of the data frame. *)
Record Row : Type := {
  row_Keywords : string;
  row_Intent : string;
  row_NER_Entities : string;
  row_Google_Content_Topics : string
}.

(** [pd.DataFrame(processed_data)]: the rows of the four columns;
    [ValueError] when the columns differ in length. *)
Definition DataFrame (processed_data : ProcessedData) : option (list Row) :=
  let n := List.length (Keywords processed_data) in
  if (List.length (Intent processed_data) =? n)
     && (List.length (NER_Entities processed_data) =? n)
     && (List.length (Google_Content_Topics processed_data) =? n)
  then
    Some (map (fun r => {| row_Keywords := fst (fst (fst r));
                           row_Intent := snd (fst (fst r));
                           row_NER_Entities := snd (fst r);
                           row_Google_Content_Topics := snd r |})
            (combine
               (combine
                  (combine (Keywords processed_data) (Intent processed_data))
                  (NER_Entities processed_data))
               (Google_Content_Topics processed_data)))
  else None.

(** [Series.unique()]: the distinct values in order of first appearance. *)
Fixpoint unique (values : list string) : list string :=
  match values with
  | [] => []
  | x :: rest => x :: filter (fun y => negb (String.eqb x y)) (unique rest)
  end.

(** An entry of the dropdown's [options]. *)
Record DropdownOption : Type := { label : string; value : string }.

(** [update_dropdown_and_button]: the options and whether the download
    button is disabled; [None] when building the data frame raises. *)
Definition update_dropdown_and_button (processed_data : option ProcessedData)
  : option (list DropdownOption * bool) :=
  match processed_data with
  | None => Some ([], true)
  | Some processed_data =>
      df <- DataFrame processed_data ;;
      let intents := unique (map row_Intent df) in
      let options :=
        map (fun intent => {| label := intent; value := intent |}) intents in
      Some (options, false)
  end.

(** What [update_keywords_table] returns: an empty [html.Div], or a
    [DataTable] with its [columns] (name and id) and [data]. *)
Inductive TableOutput : Type :=
| Div
| DataTable (columns : list (string * string)) (data : list Row).

Definition column_names : list string :=
  [ "Keywords"; "Intent"; "NER Entities"; "Google Content Topics" ].

Definition update_keywords_table (selected_intent : option string)
    (processed_data : option ProcessedData) : option TableOutput :=
  match processed_data, selected_intent with
  | Some processed_data, Some selected_intent =>
      df <- DataFrame processed_data ;;
      let filtered_df :=
        filter (fun r => String.eqb (row_Intent r) selected_intent) df in
      Some (DataTable (map (fun i => (i, i)) column_names) filtered_df)
  | _, _ => Some Div
  end.

(** *** The callback of the two triggers *)

Definition handle_model_loading (loaded : bool) : CallbackOutputs :=
  if negb loaded then
    {| models_loaded := true; submit_disabled := false;
       alert_is_open := true; alert_children := "Models ready to load";
       alert_color := "success"; processed_data_out := None;
       loading_output := ""; processing_alert_is_open := false;
       processing_alert_children := "" |}
  else
    {| models_loaded := loaded; submit_disabled := negb loaded;
       alert_is_open := false; alert_children := "";
       alert_color := "success"; processed_data_out := None;
       loading_output := ""; processing_alert_is_open := false;
       processing_alert_children := "" |}.

(** [combined_callback] for the id [triggered_id] of the property that
    fired.  Neither handler raises, so the [except] branch is not taken. *)
Definition combined_callback {vec score : Type} `{Score score}
    (E : Env vec score) (triggered_id : string) (loaded : bool)
    (n_clicks : option Z) (keyword_input : option string) (g : Globals)
  : CallbackOutputs * Globals :=
  if String.eqb triggered_id "models-loaded" then
    (handle_model_loading loaded, g)
  else if String.eqb triggered_id "submit-button" then
    handle_keyword_processing E n_clicks keyword_input g
  else
    ({| models_loaded := loaded; submit_disabled := false;
        alert_is_open := false; alert_children := "";
        alert_color := "success"; processed_data_out := None;
        loading_output := ""; processing_alert_is_open := false;
        processing_alert_children := "" |}, g).

(** ** The rule table in general

    The classifier over any ordered table of (label, phrases) rules, and
    the table without the phrases that cannot decide: a phrase that holds
    a phrase of an earlier rule, or a shorter phrase of its own rule. *)

Definition classify_with (rules : list (string * list string))
    (keyword : string) : string :=
  match find (fun rule => Intent.any_in (snd rule) (PyStr.lower keyword))
          rules with
  | Some rule => fst rule
  | None => "other"
  end.

Definition decides (earlier phrases : list string) (p : string) : bool :=
  negb (existsb (fun q => PyStr.contains q p) earlier)
  && negb (existsb (fun q => PyStr.contains q p
                             && (String.length q <? String.length p))
             phrases).

Fixpoint prune_table (earlier : list string)
    (rules : list (string * list string)) : list (string * list string) :=
  match rules with
  | [] => []
  | (lab, phrases) :: rest =>
      (lab, filter (decides earlier phrases) phrases)
      :: prune_table (earlier ++ phrases) rest
  end.

(** The place of a label in the priority order, 5 for "other" and for any
    other string. *)
Definition priority (lab : string) : nat :=
  if String.eqb lab "informational" then 0
  else if String.eqb lab "navigational" then 1
  else if String.eqb lab "local" then 2
  else if String.eqb lab "commercial investigation" then 3
  else if String.eqb lab "transactional" then 4
  else 5.

(** The category embeddings and module state a run works with, and the
    topic it gives a keyword under an embedder that works text by text. *)
Definition topic_for {vec score : Type} `{Score score} (E : Env vec score)
    (embed : string -> vec) (g : Globals) (kw : string) : string :=
  let (embs, g1) := compute_category_embeddings E g in
  fst (perform_topic_modeling_from_similarities E
         (map (cosine E (embed kw)) embs) g1).

(** ** Test doubles for the external models

    Small environments to run the pipeline on: the length of a text stands
    in for its embedding, and the closeness of two lengths for the cosine. *)

Definition line_feed : string := String "010" EmptyString.

Definition stub_embed (text : string) : Z := Z.of_nat (String.length text).

Definition stub_cosine (a b : Z) : Q := inject_Z (- ((a - b) * (a - b))).

Definition stub_gliner (text : string) : option (list (string * string)) :=
  if PyStr.contains "crash" text then None
  else if PyStr.contains "paris" text then Some [("paris", "location")]
  else Some [].

Definition stub_categories_file : list string :=
  [ ("Arts" ++ line_feed)%string; ("Travel" ++ line_feed)%string;
    "Autos & Vehicles" ].

(** Everything works. *)
Definition stub_env : Env Z Q :=
  {| sentence_model := Some (fun texts => Some (map stub_embed texts));
     gliner := stub_gliner;
     cosine := stub_cosine;
     categories_file := Some stub_categories_file |}.

(** The sentence model cannot be constructed. *)
Definition no_model_env : Env Z Q :=
  {| sentence_model := None;
     gliner := stub_gliner;
     cosine := stub_cosine;
     categories_file := Some stub_categories_file |}.

(** The category file cannot be read. *)
Definition no_taxonomy_env : Env Z Q :=
  {| sentence_model := Some (fun texts => Some (map stub_embed texts));
     gliner := stub_gliner;
     cosine := stub_cosine;
     categories_file := None |}.

(** [encode] raises on a batch that holds the text "boom". *)
Definition flaky_env : Env Z Q :=
  {| sentence_model :=
       Some (fun texts =>
               if existsb (String.eqb "boom") texts then None
               else Some (map stub_embed texts));
     gliner := stub_gliner;
     cosine := stub_cosine;
     categories_file := Some stub_categories_file |}.

(** The category file holds one name. *)
Definition one_category_env : Env Z Q :=
  {| sentence_model := Some (fun texts => Some (map stub_embed texts));
     gliner := stub_gliner;
     cosine := stub_cosine;
     categories_file := Some ["Arts"] |}.

(** The module state of a fresh process. *)
Definition fresh : Globals := {| google_categories := [] |}.

(** Worlds for the orchestrator over the model variables.  A pipeline is
    the flag that it has the entity component; without it a pipeline finds
    no entity. *)
Definition stub_pipeline_call (with_component : bool) (text : string)
  : option (list (string * string)) :=
  if with_component then stub_gliner text else Some [].

(** Both models load. *)
Definition working_world : Process.World bool unit Z Q :=
  {| Process.loaders :=
       {| spacy_blank := Some false;
          add_pipe := fun _ => (true, true);
          SentenceTransformer := Some tt |};
     Process.pipeline_call := stub_pipeline_call;
     Process.model_encode := fun _ texts => Some (map stub_embed texts);
     Process.vector_cosine := stub_cosine;
     Process.category_file := Some stub_categories_file |}.

(** [add_pipe] raises and leaves the blank pipeline as it was. *)
Definition half_built_world : Process.World bool unit Z Q :=
  {| Process.loaders :=
       {| spacy_blank := Some false;
          add_pipe := fun blank => (blank, false);
          SentenceTransformer := Some tt |};
     Process.pipeline_call := stub_pipeline_call;
     Process.model_encode := fun _ texts => Some (map stub_embed texts);
     Process.vector_cosine := stub_cosine;
     Process.category_file := Some stub_categories_file |}.

(** The module variables of a fresh process. *)
Definition fresh_process : Process.State bool unit :=
  {| Process.category_vars := fresh;
     Process.model_vars := {| nlp := None; sentence_model_var := None |} |}.

(** The input normalisation as the specification words it: trim every
    line, drop the empty ones, keep the first 100 survivors. *)
Definition spec_input_keywords (keyword_input : string) : list string :=
  firstn 100
    (filter PyStr.truthy (map PyStr.strip (PyStr.split_lines keyword_input))).

(** A blank line followed by [n] lines "k". *)
Definition blank_then_lines (n : nat) : string :=
  PyStr.join line_feed (EmptyString :: repeat "k" n).

(** A module state with three categories already loaded. *)
Definition abc_loaded : Globals := {| google_categories := ["A"; "B"; "C"] |}.

(** An environment whose scores are binary64 floats. *)
Definition float_env : Env Z float :=
  {| sentence_model := Some (fun texts => Some (map stub_embed texts));
     gliner := stub_gliner;
     cosine := fun a b => PrimFloat.zero;
     categories_file := None |}.

(** Eight keywords, the fourth of which makes the extractor raise. *)
Definition eight_keywords : list string :=
  [ "how to fly"; "paris hotel"; "best running shoes"; "crash test";
    "facebook login"; "plumber near me"; "buy tickets"; "zebra" ].

(** * Properties *)

(** ** Strings *)

Module PyStrFacts.
Import PyStr.

Lemma prefix_app (p s : string) :
  String.prefix p s = true <-> exists post, s = (p ++ post)%string.
Proof.
  revert s; induction p as [|c p IH]; intros s.
  - split; [intros _; now exists s | intros _; now destruct s].
  - destruct s as [|d s]; simpl.
    + split; [discriminate | intros [post Hp]; discriminate].
    + destruct (ascii_dec c d) as [->|Hcd].
      * rewrite IH. split; intros [post Hp]; exists post.
        -- now rewrite Hp.
        -- now injection Hp.
      * split; [discriminate | intros [post Hp]; injection Hp; congruence].
Qed.

(** [needle in hay] holds exactly when [hay] is some text, the needle, and
    some more text. *)
Lemma contains_substring (needle hay : string) :
  contains needle hay = true
  <-> exists pre post, hay = (pre ++ needle ++ post)%string.
Proof.
  induction hay as [|c hay IH]; cbn [contains].
  - rewrite orb_false_r, prefix_app. split.
    + intros [post Hp]. now exists EmptyString, post.
    + intros [pre [post Hp]]. destruct pre; [now exists post | discriminate].
  - rewrite orb_true_iff, prefix_app, IH. split.
    + intros [[post Hp] | [pre [post Hp]]].
      * now exists EmptyString, post.
      * exists (String c pre), post. simpl. now rewrite Hp.
    + intros [pre [post Hp]]. destruct pre as [|d pre]; simpl in Hp.
      * left. now exists post.
      * right. injection Hp as _ Hp. now exists pre, post.
Qed.

Lemma lower_char_idempotent (c : ascii) :
  lower_char (lower_char c) = lower_char c.
Proof.
  destruct c as [[] [] [] [] [] [] [] []]; reflexivity.
Qed.

Lemma lower_idempotent (s : string) : lower (lower s) = lower s.
Proof.
  induction s as [|c s IH]; simpl; [reflexivity|].
  now rewrite lower_char_idempotent, IH.
Qed.

End PyStrFacts.

(** ** Intent classifier *)

Module IntentFacts.
Import PyStr Intent.

Ltac split_on_lists f :=
  destruct (any_in informational_keywords f);
  [|destruct (any_in navigational_keywords f);
    [|destruct (any_in local_keywords f);
      [|destruct (any_in commercial_keywords f);
        [|destruct (any_in transactional_keywords f)]]]].

(** C3. The classifier is the first-match reading of the rule table in the
    order informational, navigational, local, commercial investigation,
    transactional; a rule fires when one of its phrases is a substring of
    the lower-cased keyword, so two keywords with the same lower-casing get
    the same label; "best local plumber near me" fires the local and the
    commercial rule and is labelled local. *)
Theorem intent_first_match_in_priority_order :
  (forall keyword : string,
      sort_by_keyword_feature (PyStr keyword) = classify_first_match keyword)
  /\ map fst intent_rules
     = [ "informational"; "navigational"; "local";
         "commercial investigation"; "transactional" ]
  /\ (forall phrases f,
         any_in phrases f = true
         <-> exists phrase pre post,
             In phrase phrases /\ f = (pre ++ phrase ++ post)%string)
  /\ (forall k k' : string,
         lower k = lower k' ->
         sort_by_keyword_feature (PyStr k) = sort_by_keyword_feature (PyStr k'))
  /\ (forall k : string,
         sort_by_keyword_feature (PyStr (lower k))
         = sort_by_keyword_feature (PyStr k))
  /\ any_in informational_keywords (lower "best local plumber near me") = false
  /\ any_in navigational_keywords (lower "best local plumber near me") = false
  /\ any_in local_keywords (lower "best local plumber near me") = true
  /\ any_in commercial_keywords (lower "best local plumber near me") = true
  /\ sort_by_keyword_feature (PyStr "best local plumber near me") = "local".
Proof.
  split; [|split; [|split; [|split; [|split]]]].
  - intros keyword.
    unfold sort_by_keyword_feature, classify_first_match.
    cbv [find intent_rules snd fst].
    split_on_lists (lower keyword); reflexivity.
  - reflexivity.
  - intros phrases f. unfold any_in. rewrite existsb_exists. split.
    + intros [phrase [Hin Hc]].
      apply PyStrFacts.contains_substring in Hc as [pre [post Hf]].
      now exists phrase, pre, post.
    + intros [phrase [pre [post [Hin Hf]]]]. exists phrase. split; [easy|].
      apply PyStrFacts.contains_substring. now exists pre, post.
  - intros k k' Hl. unfold sort_by_keyword_feature. now rewrite Hl.
  - intros k. unfold sort_by_keyword_feature.
    now rewrite PyStrFacts.lower_idempotent.
  - repeat split; vm_compute; reflexivity.
Qed.

(** C4, as the specification spells the labels: a keyword of the commercial
    group gets the label "commercial investigation", written with a space,
    which is none of the six spellings of the specification. *)
Lemma intent_label_spelling_counterexample :
  sort_by_keyword_feature (PyStr "best running shoes")
  = "commercial investigation"
  /\ existsb (String.eqb (sort_by_keyword_feature (PyStr "best running shoes")))
       spec_intent_labels = false.
Proof. split; vm_compute; reflexivity. Qed.

(** C4, amended. The classifier is a total function of any Python value;
    its result is one of the six strings of [intent_labels] (the fourth is
    "commercial investigation"); a value that is not a [str], and a keyword
    that fires no rule, are labelled "other". *)
Theorem intent_total_six_labels (f : pyobj) :
  In (sort_by_keyword_feature f) intent_labels
  /\ ((forall s, f <> PyStr s) -> sort_by_keyword_feature f = "other")
  /\ (forall s, f = PyStr s ->
                (forall rule, In rule intent_rules ->
                              any_in (snd rule) (lower s) = false) ->
                sort_by_keyword_feature f = "other").
Proof.
  split; [|split].
  - unfold sort_by_keyword_feature.
    destruct f as [| b | n | s | b]; [| | |split_on_lists (lower s)|];
      cbv [intent_labels In];
      repeat (first [left; reflexivity | right]).
  - intros Hns. destruct f; try reflexivity. now elim (Hns s).
  - intros s -> Hnone. unfold sort_by_keyword_feature.
    assert (Hr : forall label phrases,
               In (label, phrases) intent_rules ->
               any_in phrases (lower s) = false)
      by (intros label phrases Hin; exact (Hnone _ Hin)).
    rewrite (Hr "informational"), (Hr "navigational"), (Hr "local"),
      (Hr "commercial investigation"), (Hr "transactional");
      cbv [intent_rules In]; auto 7.
Qed.

End IntentFacts.

(** ** Topic matcher *)

Lemma Q_sort_lt_asym (a b : Q) : sort_lt a b = true -> sort_lt b a = false.
Proof.
  simpl. rewrite negb_true_iff, negb_false_iff. intros Hba.
  apply Qle_bool_iff. destruct (Qlt_le_dec b a) as [Hlt|Hle]; [|exact Hle].
  apply Qlt_le_weak, Qle_bool_iff in Hlt. congruence.
Qed.

Lemma Q_sort_lt_negtrans (a b c : Q) :
  sort_lt b a = false -> sort_lt c b = false -> sort_lt c a = false.
Proof.
  simpl. rewrite !negb_false_iff, !Qle_bool_iff. apply Qle_trans.
Qed.

#[export] Instance Q_OrderedScore : OrderedScore Q := {
  ordered_score := Q_Score;
  sort_lt_asym := Q_sort_lt_asym;
  sort_lt_negtrans := Q_sort_lt_negtrans
}.

Section Sorting.

Context {score : Type} `{OrderedScore score}.

(** [x] is not above [y] in the sorting order. *)
Definition not_above (x y : nat * score) : Prop :=
  sort_lt (snd y) (snd x) = false.

Lemma sort_lt_irrefl (a : score) : sort_lt a a = false.
Proof.
  destruct (sort_lt a a) eqn:Haa; [|reflexivity].
  now rewrite (sort_lt_asym _ _ Haa) in Haa.
Qed.

Lemma insert_sorted_perm (x : nat * score) (l : list (nat * score)) :
  Permutation (insert_sorted x l) (x :: l).
Proof.
  induction l as [|y r IH]; simpl; [reflexivity|].
  destruct (sort_lt (snd y) (snd x)); [|reflexivity].
  rewrite IH. apply perm_swap.
Qed.

Lemma insert_sorted_sorted (x : nat * score) (l : list (nat * score)) :
  StronglySorted not_above l -> StronglySorted not_above (insert_sorted x l).
Proof.
  induction 1 as [|y r Hr IH Hy]; simpl.
  - constructor; constructor.
  - destruct (sort_lt (snd y) (snd x)) eqn:Hyx.
    + constructor; [exact IH|].
      apply (Permutation_Forall (Permutation_sym (insert_sorted_perm x r))).
      constructor; [|exact Hy].
      unfold not_above. now apply sort_lt_asym.
    + constructor; [now constructor|].
      constructor; [exact Hyx|].
      apply (Forall_impl _ (P := not_above y)); [|exact Hy].
      intros z Hz. unfold not_above in *.
      exact (sort_lt_negtrans _ _ _ Hyx Hz).
Qed.

Lemma sorted_pairs_perm (similarities : list score) :
  Permutation (sorted_pairs similarities)
    (combine (seq 0 (List.length similarities)) similarities).
Proof.
  unfold sorted_pairs.
  induction (combine _ similarities) as [|x l IH]; simpl; [reflexivity|].
  rewrite insert_sorted_perm. now constructor.
Qed.

Lemma sorted_pairs_sorted (similarities : list score) :
  StronglySorted not_above (sorted_pairs similarities).
Proof.
  unfold sorted_pairs.
  induction (combine _ similarities) as [|x l IH]; simpl; [constructor|].
  now apply insert_sorted_sorted.
Qed.

Lemma in_combine_seq (l : list score) (start i : nat) (s : score) :
  In (i, s) (combine (seq start (List.length l)) l)
  <-> start <= i /\ nth_error l (i - start) = Some s.
Proof.
  revert start; induction l as [|a l IH]; intros start; simpl.
  - split; [easy|]. intros [_ Hn]. now destruct (i - start).
  - rewrite IH. split.
    + intros [Heq | [Hle Hn]].
      * injection Heq as -> ->. rewrite Nat.sub_diag. now split.
      * split; [lia|]. replace (i - start) with (S (i - S start)) by lia.
        exact Hn.
    + intros [Hle Hn]. destruct (i - start) as [|k] eqn:Hk.
      * left. injection Hn as ->. f_equal. lia.
      * right. split; [lia|]. now replace (i - S start) with k by lia.
Qed.

Lemma in_sorted_pairs (similarities : list score) (i : nat) (s : score) :
  In (i, s) (sorted_pairs similarities) <-> nth_error similarities i = Some s.
Proof.
  split.
  - intros Hin. apply (Permutation_in _ (sorted_pairs_perm _)) in Hin.
    apply in_combine_seq in Hin. now rewrite Nat.sub_0_r in Hin.
  - intros Hn.
    apply (Permutation_in _ (Permutation_sym (sorted_pairs_perm _))).
    apply in_combine_seq. rewrite Nat.sub_0_r. split; [lia|exact Hn].
Qed.

Lemma sorted_pairs_indices (similarities : list score) :
  Permutation (map fst (sorted_pairs similarities))
    (seq 0 (List.length similarities)).
Proof.
  rewrite (Permutation_map fst (sorted_pairs_perm similarities)).
  generalize 0. induction similarities as [|a l IH]; intros start; simpl.
  - reflexivity.
  - now rewrite IH.
Qed.

Lemma StronglySorted_app_inv {A : Type} (R : A -> A -> Prop)
    (l1 l2 : list A) :
  StronglySorted R (l1 ++ l2) ->
  forall a b, In a l1 -> In b l2 -> R a b.
Proof.
  induction l1 as [|x l1 IH]; simpl; intros Hs a b Ha Hb; [easy|].
  apply StronglySorted_inv in Hs as [Hs Hx].
  destruct Ha as [->|Ha].
  - rewrite Forall_forall in Hx. apply Hx, in_or_app. now right.
  - now apply IH.
Qed.

Lemma two_last {A : Type} (l : list A) :
  2 <= List.length l -> exists pre a b, l = pre ++ [a; b].
Proof.
  intros Hl. destruct (rev l) as [|b [|a r]] eqn:Hr.
  - apply (f_equal (@List.length A)) in Hr. rewrite length_rev in Hr.
    simpl in Hr. lia.
  - apply (f_equal (@List.length A)) in Hr. rewrite length_rev in Hr.
    simpl in Hr. lia.
  - exists (rev r), a, b. rewrite <- (rev_involutive l), Hr. simpl.
    now rewrite <- app_assoc.
Qed.

Lemma rev_last_n_two {A : Type} (pre : list A) (a b : A) :
  exists rest, rev (last_n 3 (pre ++ [a; b])) = b :: a :: rest.
Proof.
  unfold last_n. rewrite length_app. simpl List.length.
  rewrite skipn_app.
  replace (List.length pre + 2 - 3 - List.length pre) with 0 by lia.
  simpl skipn at 2. rewrite rev_app_distr. simpl. now eexists.
Qed.

End Sorting.

Section TopicMatcher.

Context {vec score : Type} `{OrderedScore score}.
Variable E : Env vec score.

Lemma sorted_pairs_length (similarities : list score) :
  List.length (sorted_pairs similarities) = List.length similarities.
Proof.
  rewrite (Permutation_length (sorted_pairs_perm similarities)).
  rewrite length_combine, length_seq. apply Nat.min_id.
Qed.

(** C2. With at least two categories and one similarity per category, the
    matcher's answer is decided by the two top entries of the sorted
    similarities: [s0] at index [i0] is not below any entry, [s1] at another
    index [i1] is not below any entry other than the one at [i0]; the
    answer is the category at [i0] alone when [s0 > s1 * 1.1], and
    otherwise that category, " , ", and the category at [i1]. *)
Theorem topic_margin_rule (g : Globals) (categories : list string)
    (similarities : list score) :
  fst (load_google_categories E g) = categories ->
  List.length similarities = List.length categories ->
  2 <= List.length categories ->
  exists (i0 i1 : nat) (s0 s1 : score) (best second : string),
    i0 <> i1
    /\ nth_error similarities i0 = Some s0
    /\ nth_error similarities i1 = Some s1
    /\ nth_error categories i0 = Some best
    /\ nth_error categories i1 = Some second
    /\ (forall j s, nth_error similarities j = Some s -> sort_lt s0 s = false)
    /\ (forall j s, j <> i0 -> nth_error similarities j = Some s ->
                    sort_lt s1 s = false)
    /\ fst (perform_topic_modeling_from_similarities E similarities g)
       = if gt s0 (times_1_1 s1) then best
         else (best ++ " , " ++ second)%string.
Proof.
  intros Hcats Hlen Htwo.
  destruct (two_last (sorted_pairs similarities))
    as [pre [[i1 s1] [[i0 s0] HL]]].
  { rewrite sorted_pairs_length. lia. }
  assert (Hin : forall i s, In (i, s) (pre ++ [(i1, s1); (i0, s0)])
                            <-> nth_error similarities i = Some s).
  { intros i s. rewrite <- HL. apply in_sorted_pairs. }
  assert (Hs0 : nth_error similarities i0 = Some s0).
  { apply Hin, in_or_app. right. simpl. auto. }
  assert (Hs1 : nth_error similarities i1 = Some s1).
  { apply Hin, in_or_app. right. simpl. auto. }
  assert (Hsorted : StronglySorted not_above (pre ++ [(i1, s1); (i0, s0)])).
  { rewrite <- HL. apply sorted_pairs_sorted. }
  assert (Hnodup : NoDup (map fst (pre ++ [(i1, s1); (i0, s0)]))).
  { rewrite <- HL.
    apply (Permutation_NoDup (Permutation_sym (sorted_pairs_indices _))).
    apply seq_NoDup. }
  assert (Hne : i0 <> i1).
  { rewrite map_app in Hnodup. apply NoDup_app_remove_l in Hnodup.
    simpl in Hnodup. inversion Hnodup as [|? ? Hnotin _]. simpl in Hnotin.
    intuition. }
  destruct (nth_error categories i0) as [best|] eqn:Hc0.
  2:{ apply nth_error_None in Hc0.
      assert (i0 < List.length similarities)
        by (apply nth_error_Some; congruence). lia. }
  destruct (nth_error categories i1) as [second|] eqn:Hc1.
  2:{ apply nth_error_None in Hc1.
      assert (i1 < List.length similarities)
        by (apply nth_error_Some; congruence). lia. }
  exists i0, i1, s0, s1, best, second.
  repeat split; try assumption.
  - intros j s Hj. apply Hin in Hj.
    replace (pre ++ [(i1, s1); (i0, s0)])
      with ((pre ++ [(i1, s1)]) ++ [(i0, s0)]) in Hj, Hsorted
      by now rewrite <- app_assoc.
    apply in_app_or in Hj as [Hj | [Hj | []]].
    + apply (StronglySorted_app_inv _ _ _ Hsorted (j, s) (i0, s0));
        [exact Hj | simpl; auto].
    + injection Hj as _ <-. apply sort_lt_irrefl.
  - intros j s Hji Hj. apply Hin in Hj.
    apply in_app_or in Hj as [Hj | [Hj | [Hj | []]]].
    + apply (StronglySorted_app_inv _ _ _ Hsorted (j, s) (i1, s1));
        [exact Hj | simpl; auto].
    + injection Hj as _ <-. apply sort_lt_irrefl.
    + injection Hj as <- _. now elim Hji.
  - unfold perform_topic_modeling_from_similarities.
    destruct (load_google_categories E g) as [cats g'].
    simpl in Hcats. subst cats.
    unfold argsort. rewrite HL, map_app. simpl map.
    destruct (rev_last_n_two (map fst pre) i1 i0) as [rest ->].
    simpl nth_error. cbv beta iota. rewrite Hc0. cbv beta iota.
    rewrite Hc1, Hs0, Hs1. cbv beta iota. now destruct (gt s0 (times_1_1 s1)).
Qed.

End TopicMatcher.

(** ** Entity extractor adapter *)

(** C5. [extract_entities] is a total function, so nothing is raised out of
    it.  When the extractor returns no entity the result is the one-element
    list ["No specific entities found"]; when the extractor raises it is
    the one-element list ["Error extracting entities"]; with entities it is
    their tuples in order.  The two messages differ, and the result is never
    the empty list; nor is its rendering in the result column empty for
    either message. *)
Theorem extract_entities_sentinels {vec score : Type} (E : Env vec score)
    (text : string) :
  (gliner E text = Some [] ->
   extract_entities E text = [Text "No specific entities found"])
  /\ (gliner E text = None ->
      extract_entities E text = [Text "Error extracting entities"])
  /\ (forall ent ents, gliner E text = Some (ent :: ents) ->
        extract_entities E text
        = map (fun e => Tuple (fst e) (snd e)) (ent :: ents))
  /\ extract_entities E text <> []
  /\ String.eqb "No specific entities found" "Error extracting entities" = false
  /\ processed_entity [Text "No specific entities found"]
     = "No specific entities found"
  /\ processed_entity [Text "Error extracting entities"]
     = "Error extracting entities".
Proof.
  unfold extract_entities.
  repeat split; try reflexivity.
  - now intros ->.
  - now intros ->.
  - now intros ent ents ->.
  - destruct (gliner E text) as [[|ent ents]|]; discriminate.
Qed.

(** ** Batch orchestrator *)

Section Orchestrator.

Context {vec score : Type} `{Score score}.
Variable E : Env vec score.

Definition intent_of (kw : string) : string :=
  Intent.sort_by_keyword_feature (PyStr kw).

Definition entities_of (kw : string) : string :=
  processed_entity (extract_entities E kw).

(** The two columns computed from the keyword alone follow the keyword
    column. *)
Definition keyword_columns (pd : ProcessedData) : Prop :=
  Intent pd = map intent_of (Keywords pd)
  /\ NER_Entities pd = map entities_of (Keywords pd).

(** [encode] returns one vector per text. *)
Definition one_vector_per_text (encode : list string -> option (list vec))
  : Prop :=
  forall texts vectors,
    encode texts = Some vectors -> List.length vectors = List.length texts.

Lemma topics_of_rows_length (rows : list (list score)) (g : Globals) :
  List.length (fst (topics_of_rows E rows g)) = List.length rows.
Proof.
  revert g; induction rows as [|sim rows IH]; intros g; simpl; [reflexivity|].
  destruct (perform_topic_modeling_from_similarities E sim g) as [topic g1].
  specialize (IH g1). destruct (topics_of_rows E rows g1) as [topics g2].
  simpl in *. now rewrite IH.
Qed.

Lemma topics_of_rows_app (rows1 rows2 : list (list score)) (g : Globals) :
  topics_of_rows E (rows1 ++ rows2) g
  = let (topics1, g1) := topics_of_rows E rows1 g in
    let (topics2, g2) := topics_of_rows E rows2 g1 in
    (topics1 ++ topics2, g2).
Proof.
  revert g; induction rows1 as [|sim rows1 IH]; intros g; simpl.
  - now destruct (topics_of_rows E rows2 g).
  - destruct (perform_topic_modeling_from_similarities E sim g) as [topic g1].
    rewrite IH. destruct (topics_of_rows E rows1 g1) as [topics1 g2].
    now destruct (topics_of_rows E rows2 g2).
Qed.

Lemma cosine_similarity_length (X Y : list vec) (rows : list (list score)) :
  cosine_similarity E X Y = Some rows -> List.length rows = List.length X.
Proof.
  unfold cosine_similarity. destruct X, Y; try discriminate.
  intros [= <-]. simpl. now rewrite length_map.
Qed.

Lemma cosine_similarity_no_categories (X : list vec) :
  cosine_similarity E X [] = None.
Proof. now destruct X. Qed.

(** What a batch that does not raise appends. *)
Lemma process_batch_appends encode embs batch pd g pd' g' :
  process_batch E encode embs batch pd g = (Some pd', g') ->
  exists vectors rows,
    encode batch = Some vectors
    /\ cosine_similarity E vectors embs = Some rows
    /\ g' = snd (topics_of_rows E rows g)
    /\ pd' = {| Keywords := Keywords pd ++ batch;
                Intent := Intent pd ++ map intent_of batch;
                NER_Entities := NER_Entities pd ++ map entities_of batch;
                Google_Content_Topics :=
                  Google_Content_Topics pd ++ fst (topics_of_rows E rows g) |}.
Proof.
  unfold process_batch.
  destruct (encode batch) as [vectors|] eqn:He; [|discriminate].
  destruct (cosine_similarity E vectors embs) as [rows|] eqn:Hc;
    [|discriminate].
  destruct (topics_of_rows E rows g) as [topics g1] eqn:Ht.
  intros Heq. exists vectors, rows. rewrite Ht.
  apply (f_equal fst) in Heq as Hpd. apply (f_equal snd) in Heq as Hg.
  cbn [fst snd] in Hpd, Hg. subst g'.
  split; [reflexivity|]. split; [exact Hc|]. split; [reflexivity|].
  cbn [fst]. unfold entities_of, intent_of.
  rewrite <- (map_map (extract_entities E) processed_entity).
  congruence.
Qed.

Lemma process_batch_keyword_columns encode embs batch pd g pd' g' :
  process_batch E encode embs batch pd g = (Some pd', g') ->
  keyword_columns pd -> keyword_columns pd'.
Proof.
  intros Hp [Hi Hn].
  apply process_batch_appends in Hp as (vectors & rows & _ & _ & _ & ->).
  split; simpl; rewrite map_app; congruence.
Qed.

Lemma process_batch_topic_column encode embs batch pd g pd' g' :
  one_vector_per_text encode ->
  process_batch E encode embs batch pd g = (Some pd', g') ->
  List.length (Google_Content_Topics pd) = List.length (Keywords pd) ->
  List.length (Google_Content_Topics pd') = List.length (Keywords pd').
Proof.
  intros Hone Hp Hlen.
  apply process_batch_appends in Hp as (vectors & rows & He & Hc & _ & ->).
  simpl. rewrite !length_app, topics_of_rows_length, Hlen.
  now rewrite (cosine_similarity_length _ _ _ Hc), (Hone _ _ He).
Qed.

Lemma batch_loop_keyword_columns encode embs b keywords starts pd g :
  keyword_columns pd ->
  keyword_columns (fst (fst (batch_loop E encode embs b keywords starts pd g))).
Proof.
  revert pd g; induction starts as [|i starts IH]; intros pd g Hpd; simpl.
  - exact Hpd.
  - destruct (process_batch E encode embs (firstn b (skipn i keywords)) pd g)
      as [[pd'|] g'] eqn:Hp; [|exact Hpd].
    apply IH. exact (process_batch_keyword_columns _ _ _ _ _ _ _ Hp Hpd).
Qed.

Lemma batch_loop_topic_column encode embs b keywords starts pd g :
  one_vector_per_text encode ->
  List.length (Google_Content_Topics pd) = List.length (Keywords pd) ->
  let pd' := fst (fst (batch_loop E encode embs b keywords starts pd g)) in
  List.length (Google_Content_Topics pd') = List.length (Keywords pd').
Proof.
  intros Hone. revert pd g; induction starts as [|i starts IH];
    intros pd g Hpd; simpl.
  - exact Hpd.
  - destruct (process_batch E encode embs (firstn b (skipn i keywords)) pd g)
      as [[pd'|] g'] eqn:Hp; [|exact Hpd].
    apply IH. exact (process_batch_topic_column _ _ _ _ _ _ _ Hone Hp Hpd).
Qed.

Lemma firstn_plus {A : Type} (a b : nat) (l : list A) :
  firstn (a + b) l = firstn a l ++ firstn b (skipn a l).
Proof.
  revert l; induction a as [|a IH]; intros l; simpl; [reflexivity|].
  destruct l as [|x l]; simpl; [now rewrite firstn_nil|]. now rewrite IH.
Qed.

(** The keyword column over the loop of [range(0, len(keywords), b)]: it
    is always the keywords of some number of whole batches, and all the
    keywords when the loop ran to its end. *)
Lemma batch_loop_keywords encode embs b keywords fuel j pd g :
  1 <= b ->
  List.length keywords - j * b <= fuel ->
  Keywords pd = firstn (j * b) keywords ->
  let r := batch_loop E encode embs b keywords
             (range_from fuel (j * b) (List.length keywords) b) pd g in
  (exists j', Keywords (fst (fst r)) = firstn (j' * b) keywords)
  /\ (snd (fst r) = Completed -> Keywords (fst (fst r)) = keywords).
Proof.
  intros Hb. revert j pd g; induction fuel as [|fuel IH];
    intros j pd g Hfuel Hpd; simpl.
  - split; [now exists j|]. intros _. rewrite Hpd.
    apply firstn_all2. lia.
  - destruct (j * b <? List.length keywords) eqn:Hlt; simpl.
    + destruct (process_batch E encode embs
                  (firstn b (skipn (j * b) keywords)) pd g)
        as [[pd'|] g'] eqn:Hp.
      * apply process_batch_appends in Hp
          as (vectors & rows & _ & _ & _ & Hpd').
        replace (j * b + b) with (S j * b) by lia.
        apply IH.
        -- apply Nat.ltb_lt in Hlt. simpl. lia.
        -- rewrite Hpd'. simpl. rewrite Hpd.
           replace (b + j * b) with (j * b + b) by lia.
           now rewrite firstn_plus.
      * simpl. split; [now exists j | discriminate].
    + split; [now exists j|]. intros _. rewrite Hpd.
      apply firstn_all2. apply Nat.ltb_ge in Hlt. lia.
Qed.

End Orchestrator.

Section OrchestratorRuns.

Context {vec score : Type} `{Score score}.
Variable E : Env vec score.

Lemma process_batch_no_categories encode batch pd g :
  process_batch E encode [] batch pd g = (None, g).
Proof.
  unfold process_batch. destruct (encode batch) as [vectors|]; [|reflexivity].
  now rewrite cosine_similarity_no_categories.
Qed.

Lemma batch_loop_no_categories encode b keywords starts pd g :
  batch_loop E encode [] b keywords starts pd g
  = (pd, match starts with [] => Completed | _ => Aborted end, g).
Proof.
  destruct starts as [|i starts]; simpl; [reflexivity|].
  now rewrite process_batch_no_categories.
Qed.

Lemma range_from_nonempty (n b : nat) :
  n <> 0 -> range_from n 0 n b <> [].
Proof. destruct n as [|n]; [easy|]. discriminate. Qed.

(** With an empty category list, and an [encode] that returns no vector
    for no text, there are no category embeddings. *)
Lemma no_categories_no_embeddings (g : Globals) :
  fst (load_google_categories E g) = [] ->
  (forall encode vectors,
      sentence_model E = Some encode -> encode [] = Some vectors ->
      vectors = []) ->
  fst (compute_category_embeddings E g) = [].
Proof.
  intros Hload Hnone. unfold compute_category_embeddings.
  destruct (load_google_categories E g) as [categories g1].
  simpl in Hload. subst categories.
  destruct (sentence_model E) as [encode|] eqn:Hm; [|reflexivity].
  destruct (encode []) as [vectors|] eqn:He; [|reflexivity].
  simpl. exact (Hnone encode vectors eq_refl He).
Qed.

(** With no category embeddings every run returns the four empty
    columns. *)
Lemma no_categories_result (keywords : list string) (b : nat) (g : Globals) :
  fst (load_google_categories E g) = [] ->
  (forall encode vectors,
      sentence_model E = Some encode -> encode [] = Some vectors ->
      vectors = []) ->
  batch_process_keywords E keywords b g = empty_processed_data.
Proof.
  intros Hload Hnone.
  pose proof (no_categories_no_embeddings g Hload Hnone) as Hembs.
  unfold batch_process_keywords, batch_process_keywords_run.
  destruct (sentence_model E) as [encode|]; [|reflexivity].
  destruct (compute_category_embeddings E g) as [embs g1].
  simpl in Hembs. subst embs.
  destruct b as [|b]; simpl range_step; cbv iota; [reflexivity|].
  now rewrite batch_loop_no_categories.
Qed.

(** C7, amended. With an empty category list the run raises nothing but
    produces no record at all: the result is the four empty columns, and
    for a non-empty keyword list the run ends in the [except] branch (the
    similarity computation refuses the empty category embeddings in the
    first batch). *)
Theorem empty_taxonomy_no_records (keywords : list string) (b : nat)
    (g : Globals) :
  fst (load_google_categories E g) = [] ->
  (forall encode vectors,
      sentence_model E = Some encode -> encode [] = Some vectors ->
      vectors = []) ->
  batch_process_keywords E keywords b g = empty_processed_data
  /\ (keywords <> [] ->
      snd (fst (batch_process_keywords_run E keywords b g)) = Aborted).
Proof.
  intros Hload Hnone.
  pose proof (no_categories_no_embeddings g Hload Hnone) as Hembs.
  unfold batch_process_keywords, batch_process_keywords_run.
  destruct (sentence_model E) as [encode|]; [|now split].
  destruct (compute_category_embeddings E g) as [embs g1].
  simpl in Hembs. subst embs.
  destruct b as [|b]; simpl range_step; cbv iota; [now split|].
  rewrite batch_loop_no_categories. split; [reflexivity|].
  intros Hne. simpl.
  destruct (range_from (List.length keywords) 0 (List.length keywords) (S b))
    eqn:Hr; [|reflexivity].
  apply range_from_nonempty in Hr; [easy|]. now destruct keywords.
Qed.

(** A run that ended with "completed successfully" has the keywords as its
    keyword column. *)
Lemma completed_run_keywords (keywords : list string) (b : nat) (g : Globals) :
  snd (fst (batch_process_keywords_run E keywords b g)) = Completed ->
  Keywords (batch_process_keywords E keywords b g) = keywords.
Proof.
  unfold batch_process_keywords, batch_process_keywords_run.
  destruct (sentence_model E) as [encode|]; [|discriminate].
  destruct (compute_category_embeddings E g) as [embs g1].
  destruct b as [|b]; simpl range_step; cbv iota; [discriminate|].
  apply (batch_loop_keywords E encode embs (S b) keywords
           (List.length keywords) 0 empty_processed_data g1);
    [lia | simpl; lia | reflexivity].
Qed.

(** C10. When [encode] returns one vector per text, the four columns of
    the result have one length, also after a run that was cut short: the
    intent and entity columns are computed from the keyword column entry by
    entry, and the keyword column is the keywords of some number of whole
    batches. *)
Theorem columns_aligned (keywords : list string) (b : nat) (g : Globals) :
  (forall encode, sentence_model E = Some encode ->
                  one_vector_per_text encode) ->
  List.length (Intent (batch_process_keywords E keywords b g))
  = List.length (Keywords (batch_process_keywords E keywords b g))
  /\ List.length (NER_Entities (batch_process_keywords E keywords b g))
     = List.length (Keywords (batch_process_keywords E keywords b g))
  /\ List.length (Google_Content_Topics (batch_process_keywords E keywords b g))
     = List.length (Keywords (batch_process_keywords E keywords b g))
  /\ keyword_columns E (batch_process_keywords E keywords b g)
  /\ exists j, Keywords (batch_process_keywords E keywords b g)
               = firstn (j * b) keywords.
Proof.
  intros Hone.
  assert (Hcols : keyword_columns E (batch_process_keywords E keywords b g)
                  /\ List.length
                       (Google_Content_Topics
                          (batch_process_keywords E keywords b g))
                     = List.length
                         (Keywords (batch_process_keywords E keywords b g))
                  /\ exists j, Keywords (batch_process_keywords E keywords b g)
                               = firstn (j * b) keywords).
  { unfold batch_process_keywords, batch_process_keywords_run.
    destruct (sentence_model E) as [encode|] eqn:Hm.
    2:{ repeat split. now exists 0. }
    destruct (compute_category_embeddings E g) as [embs g1].
    destruct b as [|b]; simpl range_step; cbv iota.
    { repeat split. now exists 0. }
    split; [|split].
    - apply batch_loop_keyword_columns. now split.
    - apply batch_loop_topic_column; [now apply Hone | reflexivity].
    - apply (batch_loop_keywords E encode embs (S b) keywords
               (List.length keywords) 0 empty_processed_data g1);
        [lia | simpl; lia | reflexivity]. }
  destruct Hcols as [[Hi Hn] [Ht Hk]].
  repeat split; try assumption.
  - now rewrite Hi, length_map.
  - now rewrite Hn, length_map.
Qed.

End OrchestratorRuns.

Section FailureContainment.

Context {vec score : Type} `{Score score}.
Variable E : Env vec score.

(** C8, amended. When the sentence model cannot be loaded, or the category
    list is empty, the orchestrator returns the four empty columns and
    raises nothing; the failure goes to the log only and the returned value
    bears no mark of it.  A run that completed has the keywords as its
    keyword column, so its result differs from the result of such a failed
    run exactly when the keyword list is non-empty. *)
Theorem unavailable_model_empty_result (E' : Env vec score)
    (keywords : list string) (b : nat) (g g' : Globals) :
  sentence_model E = None
  \/ (fst (load_google_categories E g) = []
      /\ forall encode vectors,
           sentence_model E = Some encode -> encode [] = Some vectors ->
           vectors = []) ->
  batch_process_keywords E keywords b g = empty_processed_data
  /\ (snd (fst (batch_process_keywords_run E' keywords b g')) = Completed ->
      Keywords (batch_process_keywords E' keywords b g') = keywords
      /\ (batch_process_keywords E' keywords b g'
          = batch_process_keywords E keywords b g <-> keywords = [])).
Proof.
  intros Hfail.
  assert (Hrun : batch_process_keywords E keywords b g = empty_processed_data).
  { destruct Hfail as [Hnone | [Hload Hcontract]].
    - unfold batch_process_keywords, batch_process_keywords_run.
      now rewrite Hnone.
    - now apply no_categories_result. }
  split; [exact Hrun|].
  intros Hdone. pose proof (completed_run_keywords E' _ _ _ Hdone) as Hk.
  split; [exact Hk|]. rewrite Hrun. split.
  - intros Heq. rewrite Heq in Hk. simpl in Hk. congruence.
  - intros ->. clear Hk. revert Hdone.
    unfold batch_process_keywords, batch_process_keywords_run.
    destruct (sentence_model E') as [encode|]; [|reflexivity].
    destruct (compute_category_embeddings E' g') as [embs g1].
    destruct b as [|b]; reflexivity.
Qed.

Variable other : string -> option (list (string * string)).

(** Two results that agree except on the entity column. *)
Definition same_but_entities (pd pd' : ProcessedData) : Prop :=
  Keywords pd = Keywords pd'
  /\ Intent pd = Intent pd'
  /\ Google_Content_Topics pd = Google_Content_Topics pd'.

Lemma topics_of_rows_with_gliner (rows : list (list score)) (g : Globals) :
  topics_of_rows (with_gliner E other) rows g = topics_of_rows E rows g.
Proof.
  revert g; induction rows as [|sim rows IH]; intros g; simpl; [reflexivity|].
  change (perform_topic_modeling_from_similarities (with_gliner E other) sim g)
    with (perform_topic_modeling_from_similarities E sim g).
  destruct (perform_topic_modeling_from_similarities E sim g) as [topic g1].
  now rewrite IH.
Qed.

Lemma process_batch_with_gliner encode embs batch pd pd' g :
  same_but_entities pd pd' ->
  match process_batch E encode embs batch pd g,
        process_batch (with_gliner E other) encode embs batch pd' g with
  | (Some p, g1), (Some p', g1') => same_but_entities p p' /\ g1 = g1'
  | (None, g1), (None, g1') => g1 = g1'
  | _, _ => False
  end.
Proof.
  intros (Hk & Hi & Ht). unfold process_batch.
  destruct (encode batch) as [vectors|]; [|reflexivity].
  change (cosine_similarity (with_gliner E other) vectors embs)
    with (cosine_similarity E vectors embs).
  destruct (cosine_similarity E vectors embs) as [rows|]; [|reflexivity].
  rewrite topics_of_rows_with_gliner.
  destruct (topics_of_rows E rows g) as [topics g1].
  split; [|reflexivity]. unfold same_but_entities.
  cbn [Keywords Intent Google_Content_Topics].
  rewrite Hk, Hi, Ht. split; [|split]; reflexivity.
Qed.

Lemma batch_loop_with_gliner encode embs b keywords starts pd pd' g :
  same_but_entities pd pd' ->
  same_but_entities
    (fst (fst (batch_loop E encode embs b keywords starts pd g)))
    (fst (fst (batch_loop (with_gliner E other) encode embs b keywords
                 starts pd' g)))
  /\ snd (fst (batch_loop E encode embs b keywords starts pd g))
     = snd (fst (batch_loop (with_gliner E other) encode embs b keywords
                   starts pd' g))
  /\ snd (batch_loop E encode embs b keywords starts pd g)
     = snd (batch_loop (with_gliner E other) encode embs b keywords
              starts pd' g).
Proof.
  revert pd pd' g; induction starts as [|i starts IH];
    intros pd pd' g Hsame; simpl.
  - split; [exact Hsame | split; reflexivity].
  - pose proof (process_batch_with_gliner encode embs
                  (firstn b (skipn i keywords)) pd pd' g Hsame) as Hp.
    destruct (process_batch E encode embs (firstn b (skipn i keywords)) pd g)
      as [[p|] g1];
      destruct (process_batch (with_gliner E other) encode embs
                  (firstn b (skipn i keywords)) pd' g) as [[p'|] g1'];
      try contradiction.
    + destruct Hp as [Hp <-]. now apply IH.
    + subst g1'. split; [exact Hsame | split; reflexivity].
Qed.

(** In the run of one call the entity extractor has no influence beyond
    the entity column: with any other extractor in its place the run ends
    the same way with the same keyword, intent and topic columns.  Every
    row of the result holds the intent of its keyword and the rendering of
    what the adapter returned for it. *)
Lemma per_call_entity_column_only (keywords : list string) (b : nat)
    (g : Globals) :
  same_but_entities (batch_process_keywords E keywords b g)
    (batch_process_keywords (with_gliner E other) keywords b g)
  /\ snd (fst (batch_process_keywords_run E keywords b g))
     = snd (fst (batch_process_keywords_run (with_gliner E other) keywords b g))
  /\ (forall i kw,
         nth_error (Keywords (batch_process_keywords E keywords b g)) i
         = Some kw ->
         nth_error (Intent (batch_process_keywords E keywords b g)) i
         = Some (intent_of kw)
         /\ nth_error (NER_Entities (batch_process_keywords E keywords b g)) i
            = Some (entities_of E kw))
  /\ (forall kw, gliner E kw = None ->
                 entities_of E kw = "Error extracting entities")
  /\ (snd (fst (batch_process_keywords_run E keywords b g)) = Completed ->
      Keywords (batch_process_keywords E keywords b g) = keywords).
Proof.
  assert (Hcols : keyword_columns E (batch_process_keywords E keywords b g)).
  { unfold batch_process_keywords, batch_process_keywords_run.
    destruct (sentence_model E) as [encode|]; [|now split].
    destruct (compute_category_embeddings E g) as [embs g1].
    destruct b as [|b]; simpl range_step; cbv iota; [now split|].
    apply batch_loop_keyword_columns. now split. }
  assert (Hsame :
    same_but_entities (batch_process_keywords E keywords b g)
      (batch_process_keywords (with_gliner E other) keywords b g)
    /\ snd (fst (batch_process_keywords_run E keywords b g))
       = snd (fst (batch_process_keywords_run (with_gliner E other)
                     keywords b g))).
  { unfold batch_process_keywords, batch_process_keywords_run.
    change (sentence_model (with_gliner E other)) with (sentence_model E).
    destruct (sentence_model E) as [encode|]; [|now repeat split].
    change (compute_category_embeddings (with_gliner E other) g)
      with (compute_category_embeddings E g).
    destruct (compute_category_embeddings E g) as [embs g1].
    destruct b as [|b]; simpl range_step; cbv iota; [now repeat split|].
    destruct (batch_loop_with_gliner encode embs (S b) keywords
                (range_from (List.length keywords) 0 (List.length keywords)
                   (S b))
                empty_processed_data empty_processed_data g1)
      as (Hs & Ho & _); [now repeat split|].
    now split. }
  destruct Hsame as [Hsame Hout]. destruct Hcols as [Hi Hn].
  split; [exact Hsame|]. split; [exact Hout|]. split; [|split].
  - intros i kw Hkw. rewrite Hi, Hn, !nth_error_map, Hkw. now split.
  - intros kw Hfail. unfold entities_of, extract_entities.
    now rewrite Hfail.
  - apply completed_run_keywords.
Qed.

End FailureContainment.

Section BatchSize.

Context {vec score : Type} `{Score score}.
Variable E : Env vec score.
Variable embed : string -> vec.

(** The similarity rows of a list of keywords under a per-text embedder. *)
Definition rows_for (embs : list vec) (keywords : list string)
  : list (list score) :=
  map (fun kw => map (cosine E (embed kw)) embs) keywords.

(** The result of a run that goes through all of [rest] on top of [pd]. *)
Definition extended (embs : list vec) (rest : list string)
    (pd : ProcessedData) (g : Globals) : ProcessedData * outcome * Globals :=
  let (topics, g') := topics_of_rows E (rows_for embs rest) g in
  ({| Keywords := Keywords pd ++ rest;
      Intent := Intent pd ++ map intent_of rest;
      NER_Entities := NER_Entities pd ++ map (entities_of E) rest;
      Google_Content_Topics := Google_Content_Topics pd ++ topics |},
   Completed, g').

Lemma extended_nil embs pd g : extended embs [] pd g = (pd, Completed, g).
Proof.
  unfold extended. simpl. destruct pd. simpl. now rewrite !app_nil_r.
Qed.

Lemma process_batch_total_embedder encode embs batch pd g :
  (forall texts, encode texts = Some (map embed texts)) ->
  embs <> [] -> batch <> [] ->
  process_batch E encode embs batch pd g
  = let (topics, g') := topics_of_rows E (rows_for embs batch) g in
    (Some {| Keywords := Keywords pd ++ batch;
             Intent := Intent pd ++ map intent_of batch;
             NER_Entities := NER_Entities pd ++ map (entities_of E) batch;
             Google_Content_Topics := Google_Content_Topics pd ++ topics |},
     g').
Proof.
  intros Henc Hembs Hbatch. unfold process_batch. rewrite Henc.
  assert (Hcos : cosine_similarity E (map embed batch) embs
                 = Some (rows_for embs batch)).
  { unfold cosine_similarity, rows_for.
    destruct batch as [|kw batch]; [easy|]. destruct embs; [easy|].
    now rewrite map_map. }
  rewrite Hcos. destruct (topics_of_rows E (rows_for embs batch) g).
  unfold entities_of, intent_of.
  now rewrite <- (map_map (extract_entities E) processed_entity).
Qed.

Lemma batch_loop_total_embedder encode embs b keywords fuel start pd g :
  (forall texts, encode texts = Some (map embed texts)) ->
  embs <> [] -> 1 <= b ->
  List.length keywords - start <= fuel ->
  batch_loop E encode embs b keywords
    (range_from fuel start (List.length keywords) b) pd g
  = extended embs (skipn start keywords) pd g.
Proof.
  intros Henc Hembs Hb. revert start pd g; induction fuel as [|fuel IH];
    intros start pd g Hfuel; simpl.
  - rewrite skipn_all2 by lia. now rewrite extended_nil.
  - destruct (start <? List.length keywords) eqn:Hlt; simpl.
    2:{ apply Nat.ltb_ge in Hlt. rewrite skipn_all2 by lia.
        now rewrite extended_nil. }
    apply Nat.ltb_lt in Hlt.
    assert (Hbatch : firstn b (skipn start keywords) <> []).
    { intros Hnil. apply (f_equal (@List.length string)) in Hnil.
      rewrite length_firstn, length_skipn in Hnil. simpl in Hnil. lia. }
    rewrite (process_batch_total_embedder _ _ _ _ _ Henc Hembs Hbatch).
    set (batch := firstn b (skipn start keywords)) in *.
    assert (Hsplit : skipn start keywords
                     = batch ++ skipn (start + b) keywords).
    { unfold batch. replace (start + b) with (b + start) by lia.
      rewrite <- skipn_skipn. symmetry. apply firstn_skipn. }
    unfold extended at 1. rewrite Hsplit.
    unfold rows_for. rewrite map_app. fold (rows_for embs batch).
    fold (rows_for embs (skipn (start + b) keywords)).
    rewrite topics_of_rows_app.
    destruct (topics_of_rows E (rows_for embs batch) g) as [topics1 g1].
    rewrite IH by lia. unfold extended.
    destruct (topics_of_rows E (rows_for embs (skipn (start + b) keywords)) g1)
      as [topics2 g2].
    cbn [Keywords Intent NER_Entities Google_Content_Topics].
    now rewrite !map_app, !app_assoc.
Qed.

(** C6. With an embedder that is a function of the single text, every
    batch size from 1 on gives the run the default size 8 gives: the same
    four columns in the same order, the same ending and module state. *)
Theorem batch_size_irrelevant (keywords : list string) (b : nat)
    (g : Globals) :
  (forall encode, sentence_model E = Some encode ->
                  forall texts, encode texts = Some (map embed texts)) ->
  1 <= b ->
  batch_process_keywords_run E keywords b g
  = batch_process_keywords_run E keywords 8 g.
Proof.
  intros Henc Hb.
  assert (Hany : forall n, 1 <= n ->
    batch_process_keywords_run E keywords n g
    = match sentence_model E with
      | None => (empty_processed_data, Aborted, g)
      | Some _ =>
          let (embs, g1) := compute_category_embeddings E g in
          match embs, keywords with
          | [], [] => (empty_processed_data, Completed, g1)
          | [], _ :: _ => (empty_processed_data, Aborted, g1)
          | _ :: _, _ => extended embs keywords empty_processed_data g1
          end
      end).
  { intros n Hn. unfold batch_process_keywords_run.
    destruct (sentence_model E) as [encode|] eqn:Hm; [|reflexivity].
    destruct (compute_category_embeddings E g) as [embs g1].
    destruct n as [|n]; [lia|]. simpl range_step. cbv iota.
    destruct embs as [|e embs].
    - rewrite batch_loop_no_categories. now destruct keywords.
    - rewrite (batch_loop_total_embedder encode (e :: embs) (S n) keywords
                 (List.length keywords) 0 empty_processed_data g1
                 (Henc encode eq_refl)); [reflexivity|easy|lia|lia]. }
  rewrite (Hany b Hb), (Hany 8) by lia. reflexivity.
Qed.

End BatchSize.

Section EntryPoint.

Context {vec score : Type} `{Score score}.
Variable E : Env vec score.
Import PyStr.

(** [encode] never raises and returns one vector per text. *)
Definition dependable (encode : list string -> option (list vec)) : Prop :=
  forall texts, exists vectors,
    encode texts = Some vectors /\ List.length vectors = List.length texts.

Lemma filter_map_swap {A B : Type} (f : A -> B) (p : B -> bool) (l : list A) :
  filter p (map f l) = map f (filter (fun x => p (f x)) l).
Proof.
  induction l as [|x l IH]; simpl; [reflexivity|].
  destruct (p (f x)); simpl; now rewrite IH.
Qed.

Lemma input_keywords_trim_then_drop (keyword_input : string) :
  input_keywords keyword_input
  = filter truthy (map strip (firstn 100 (split_lines keyword_input))).
Proof. unfold input_keywords. now rewrite filter_map_swap. Qed.

Lemma input_keywords_at_most_100 (keyword_input : string) :
  List.length (input_keywords keyword_input) <= 100.
Proof.
  unfold input_keywords. rewrite length_map.
  etransitivity; [apply filter_length_le|]. apply firstn_le_length.
Qed.

Lemma range_from_below (fuel start stop step : nat) :
  Forall (fun i => i < stop) (range_from fuel start stop step).
Proof.
  revert start; induction fuel as [|fuel IH]; intros start; simpl.
  - constructor.
  - destruct (start <? stop) eqn:Hlt; constructor.
    + now apply Nat.ltb_lt.
    + apply IH.
Qed.

Lemma process_batch_dependable encode embs batch pd g :
  dependable encode -> embs <> [] -> batch <> [] ->
  exists pd' g', process_batch E encode embs batch pd g = (Some pd', g').
Proof.
  intros Hdep Hembs Hbatch. unfold process_batch.
  destruct (Hdep batch) as (vectors & -> & Hlen).
  destruct vectors as [|v vectors].
  { destruct batch; [easy | discriminate]. }
  destruct embs as [|e embs]; [easy|]. cbn [cosine_similarity].
  destruct (topics_of_rows E _ g) as [topics g1]. eauto.
Qed.

Lemma batch_loop_completes encode embs b keywords starts pd g :
  dependable encode -> embs <> [] -> 1 <= b ->
  Forall (fun i => i < List.length keywords) starts ->
  snd (fst (batch_loop E encode embs b keywords starts pd g)) = Completed.
Proof.
  intros Hdep Hembs Hb Hstarts. revert pd g.
  induction Hstarts as [|i starts Hi _ IH]; intros pd g; simpl.
  - reflexivity.
  - destruct (process_batch_dependable encode embs
                (firstn b (skipn i keywords)) pd g Hdep Hembs)
      as (pd' & g' & ->); [|apply IH].
    intros Hnil. apply (f_equal (@List.length string)) in Hnil.
    rewrite length_firstn, length_skipn in Hnil. simpl in Hnil. lia.
Qed.

Lemma run_completes encode keywords b g :
  sentence_model E = Some encode -> dependable encode ->
  fst (load_google_categories E g) <> [] -> 1 <= b ->
  snd (fst (batch_process_keywords_run E keywords b g)) = Completed.
Proof.
  intros Hm Hdep Hcats Hb.
  unfold batch_process_keywords_run, compute_category_embeddings.
  rewrite Hm. destruct (load_google_categories E g) as [categories g1].
  simpl in Hcats. destruct (Hdep categories) as (embs & -> & Hlen).
  destruct b as [|b]; [lia|]. simpl range_step. cbv iota.
  apply batch_loop_completes; [exact Hdep| |lia|apply range_from_below].
  intros ->. now destruct categories.
Qed.

(** The columns of any run, when [encode] returns one vector per text:
    intent and entity field follow the keyword, and there is a topic per
    keyword. *)
Lemma run_columns (keywords : list string) (b : nat) (g : Globals) :
  (forall encode, sentence_model E = Some encode ->
                  one_vector_per_text encode) ->
  keyword_columns E (batch_process_keywords E keywords b g)
  /\ List.length (Google_Content_Topics (batch_process_keywords E keywords b g))
     = List.length (Keywords (batch_process_keywords E keywords b g)).
Proof.
  intros Hone. unfold batch_process_keywords, batch_process_keywords_run.
  destruct (sentence_model E) as [encode|] eqn:Hm; [|now repeat split].
  destruct (compute_category_embeddings E g) as [embs g1].
  destruct b as [|b]; simpl range_step; cbv iota; [now repeat split|].
  split.
  - apply batch_loop_keyword_columns. now split.
  - apply batch_loop_topic_column; [now apply Hone | reflexivity].
Qed.

(** C1, amended. For a click with a non-empty input, a sentence model
    that loads and encodes dependably, and a non-empty category list, the
    result has exactly one record per line that is non-empty after
    trimming among the first 100 lines of the input, blank ones counted, in
    input order: its keyword column is those trimmed lines, at most 100,
    and the other three columns follow it row by row. *)
Theorem records_for_first_100_lines (encode : list string -> option (list vec))
    (n_clicks : Z) (keyword_input : string) (g : Globals) :
  keyword_input <> EmptyString ->
  sentence_model E = Some encode ->
  dependable encode ->
  fst (load_google_categories E g) <> [] ->
  exists pd,
    processed_data_out
      (fst (handle_keyword_processing E (Some n_clicks) (Some keyword_input) g))
    = Some pd
    /\ Keywords pd
       = filter truthy (map strip (firstn 100 (split_lines keyword_input)))
    /\ List.length (Keywords pd) <= 100
    /\ keyword_columns E pd
    /\ List.length (Google_Content_Topics pd) = List.length (Keywords pd).
Proof.
  intros Hin Hm Hdep Hcats.
  destruct keyword_input as [|c rest]; [easy|].
  set (keyword_input := String c rest) in *.
  exists (batch_process_keywords E (input_keywords keyword_input) 8 g).
  pose proof (run_completes encode (input_keywords keyword_input) 8 g
                Hm Hdep Hcats) as Hdone.
  pose proof (completed_run_keywords E _ _ _ (Hdone ltac:(lia))) as Hk.
  assert (Hone : forall enc, sentence_model E = Some enc ->
                             one_vector_per_text enc).
  { intros enc Henc texts vectors Hv. rewrite Hm in Henc.
    injection Henc as <-. destruct (Hdep texts) as (v & Hv' & Hlen).
    congruence. }
  destruct (run_columns (input_keywords keyword_input) 8 g Hone)
    as (Hcols & Ht).
  split; [|split; [|split; [|split]]].
  - unfold handle_keyword_processing, batch_process_keywords.
    subst keyword_input. cbv iota.
    now destruct (batch_process_keywords_run E
                    (input_keywords (String c rest)) 8 g) as [[pd o] g1].
  - rewrite Hk. apply input_keywords_trim_then_drop.
  - rewrite Hk. apply input_keywords_at_most_100.
  - exact Hcols.
  - exact Ht.
Qed.

End EntryPoint.

(** ** The claims on the test doubles *)

Lemma stub_encode_dependable :
  dependable (fun texts => Some (map stub_embed texts)).
Proof. intros texts. eexists. split; [reflexivity | apply length_map]. Qed.

(** C1, as stated: an input of a blank line and 101 lines "k" has 101
    non-empty lines, of which the specification keeps the first 100; the
    pipeline keeps the 99 that are among the first 100 lines. *)
Lemma first_100_lines_counterexample :
  List.length
    (filter PyStr.truthy
       (map PyStr.strip (PyStr.split_lines (blank_then_lines 101)))) = 101
  /\ List.length (spec_input_keywords (blank_then_lines 101)) = 100
  /\ option_map (fun pd => List.length (Keywords pd))
       (processed_data_out
          (fst (handle_keyword_processing stub_env (Some 1%Z)
                  (Some (blank_then_lines 101)) fresh)))
     = Some 99.
Proof. repeat split; vm_compute; reflexivity. Qed.

(** The amended C1 on an input of a blank line and three keywords. *)
Lemma records_for_first_100_lines_witness :
  exists pd,
    processed_data_out
      (fst (handle_keyword_processing stub_env (Some 1%Z)
              (Some (blank_then_lines 3)) fresh))
    = Some pd
    /\ Keywords pd
       = filter PyStr.truthy
           (map PyStr.strip
              (firstn 100 (PyStr.split_lines (blank_then_lines 3))))
    /\ List.length (Keywords pd) <= 100
    /\ keyword_columns stub_env pd
    /\ List.length (Google_Content_Topics pd) = List.length (Keywords pd).
Proof.
  apply (records_for_first_100_lines stub_env
           (fun texts => Some (map stub_embed texts))).
  - discriminate.
  - reflexivity.
  - exact stub_encode_dependable.
  - vm_compute. discriminate.
Defined.

(** C2 on the similarities 0.91, 0.80, 0.50 over A, B, C, in exact
    arithmetic. *)
Lemma topic_margin_rule_witness :
  exists (i0 i1 : nat) (s0 s1 : Q) (best second : string),
    i0 <> i1
    /\ nth_error [91 # 100; 80 # 100; 50 # 100]%Q i0 = Some s0
    /\ nth_error [91 # 100; 80 # 100; 50 # 100]%Q i1 = Some s1
    /\ nth_error ["A"; "B"; "C"] i0 = Some best
    /\ nth_error ["A"; "B"; "C"] i1 = Some second
    /\ (forall j s, nth_error [91 # 100; 80 # 100; 50 # 100]%Q j = Some s ->
                    sort_lt s0 s = false)
    /\ (forall j s, j <> i0 ->
                    nth_error [91 # 100; 80 # 100; 50 # 100]%Q j = Some s ->
                    sort_lt s1 s = false)
    /\ fst (perform_topic_modeling_from_similarities stub_env
              [91 # 100; 80 # 100; 50 # 100]%Q abc_loaded)
       = if gt s0 (times_1_1 s1) then best
         else (best ++ " , " ++ second)%string.
Proof.
  apply (@topic_margin_rule Z Q Q_OrderedScore stub_env abc_loaded
           ["A"; "B"; "C"] [91 # 100; 80 # 100; 50 # 100]%Q).
  - reflexivity.
  - reflexivity.
  - simpl. lia.
Defined.

(** The two worked examples of the margin rule, in exact arithmetic and in
    binary64; in exact arithmetic 0.88 against 0.80 is not above the
    margin, the comparison being strict. *)
Example topic_margin_examples :
  fst (perform_topic_modeling_from_similarities stub_env
         [91 # 100; 80 # 100; 50 # 100]%Q abc_loaded) = "A"
  /\ fst (perform_topic_modeling_from_similarities stub_env
            [91 # 100; 85 # 100; 50 # 100]%Q abc_loaded) = "A , B"
  /\ fst (perform_topic_modeling_from_similarities stub_env
            [88 # 100; 80 # 100; 50 # 100]%Q abc_loaded) = "A , B"
  /\ fst (perform_topic_modeling_from_similarities stub_env
            [50 # 100; 80 # 100; 89 # 100]%Q abc_loaded) = "C"
  /\ fst (perform_topic_modeling_from_similarities float_env
            [0.91; 0.80; 0.50]%float abc_loaded) = "A"
  /\ fst (perform_topic_modeling_from_similarities float_env
            [0.91; 0.85; 0.50]%float abc_loaded) = "A , B".
Proof. repeat split; vm_compute; reflexivity. Qed.

(** With fewer than two categories the matcher answers with its error
    message. *)
Example topic_single_category :
  fst (perform_topic_modeling_from_similarities stub_env [91 # 100]%Q
         {| google_categories := ["A"] |}) = "Error in topic modeling".
Proof. vm_compute. reflexivity. Qed.

(** C6 on eight keywords in batches of three. *)
Lemma batch_size_irrelevant_witness :
  batch_process_keywords_run stub_env eight_keywords 3 fresh
  = batch_process_keywords_run stub_env eight_keywords 8 fresh.
Proof.
  apply (batch_size_irrelevant stub_env stub_embed).
  - intros encode [= <-] texts. reflexivity.
  - lia.
Defined.

(** C7, as stated: without a category file a run over two keywords ends in
    the [except] branch with no record at all. *)
Lemma empty_taxonomy_counterexample :
  fst (load_google_categories no_taxonomy_env fresh) = []
  /\ batch_process_keywords_run no_taxonomy_env
       ["how to fly"; "paris hotel"] 8 fresh
     = (empty_processed_data, Aborted, fresh).
Proof. split; vm_compute; reflexivity. Qed.

(** The amended C7 without a category file. *)
Lemma empty_taxonomy_no_records_witness :
  batch_process_keywords no_taxonomy_env ["how to fly"; "paris hotel"] 8 fresh
  = empty_processed_data
  /\ (["how to fly"; "paris hotel"] <> [] ->
      snd (fst (batch_process_keywords_run no_taxonomy_env
                  ["how to fly"; "paris hotel"] 8 fresh)) = Aborted).
Proof.
  apply (empty_taxonomy_no_records no_taxonomy_env).
  - reflexivity.
  - intros encode vectors [= <-] [= <-]. reflexivity.
Defined.

(** C8, as stated: on an input of one blank the run without a sentence
    model, which ends in the [except] branch, and the run with one, which
    completes, hand the caller the same outputs. *)
Lemma failed_run_indistinguishable_counterexample :
  snd (fst (batch_process_keywords_run no_model_env [] 8 fresh)) = Aborted
  /\ snd (fst (batch_process_keywords_run stub_env [] 8 fresh)) = Completed
  /\ batch_process_keywords no_model_env [] 8 fresh
     = batch_process_keywords stub_env [] 8 fresh
  /\ fst (handle_keyword_processing no_model_env (Some 1%Z) (Some " ") fresh)
     = fst (handle_keyword_processing stub_env (Some 1%Z) (Some " ") fresh).
Proof. repeat split; vm_compute; reflexivity. Qed.

(** The amended C8 without a sentence model, against a run that has one. *)
Lemma unavailable_model_empty_result_witness :
  batch_process_keywords no_model_env eight_keywords 8 fresh
  = empty_processed_data
  /\ (snd (fst (batch_process_keywords_run stub_env eight_keywords 8 fresh))
      = Completed ->
      Keywords (batch_process_keywords stub_env eight_keywords 8 fresh)
      = eight_keywords
      /\ (batch_process_keywords stub_env eight_keywords 8 fresh
          = batch_process_keywords no_model_env eight_keywords 8 fresh
          <-> eight_keywords = [])).
Proof.
  apply (unavailable_model_empty_result no_model_env stub_env).
  left. reflexivity.
Defined.

(** One failing keyword in a batch of eight: its entity field is the error
    message, the other rows are complete. *)
Example one_extraction_failure_in_eight :
  batch_process_keywords stub_env eight_keywords 8 fresh
  = {| Keywords := eight_keywords;
       Intent := [ "informational"; "other"; "commercial investigation";
                   "other"; "navigational"; "local"; "transactional";
                   "other" ];
       NER_Entities :=
         [ "No specific entities found"; "paris (location)";
           "No specific entities found"; "Error extracting entities";
           "No specific entities found"; "No specific entities found";
           "No specific entities found"; "No specific entities found" ];
       Google_Content_Topics :=
         Google_Content_Topics
           (batch_process_keywords (with_gliner stub_env (fun _ => Some []))
              eight_keywords 8 fresh) |}.
Proof. vm_compute. reflexivity. Qed.

(** C10 on a run whose second batch makes [encode] raise. *)
Lemma columns_aligned_witness :
  List.length (Intent (batch_process_keywords flaky_env
                         (eight_keywords ++ ["boom"]) 8 fresh))
  = List.length (Keywords (batch_process_keywords flaky_env
                             (eight_keywords ++ ["boom"]) 8 fresh))
  /\ List.length (NER_Entities (batch_process_keywords flaky_env
                                  (eight_keywords ++ ["boom"]) 8 fresh))
     = List.length (Keywords (batch_process_keywords flaky_env
                                (eight_keywords ++ ["boom"]) 8 fresh))
  /\ List.length (Google_Content_Topics
                    (batch_process_keywords flaky_env
                       (eight_keywords ++ ["boom"]) 8 fresh))
     = List.length (Keywords (batch_process_keywords flaky_env
                                (eight_keywords ++ ["boom"]) 8 fresh))
  /\ keyword_columns flaky_env
       (batch_process_keywords flaky_env (eight_keywords ++ ["boom"]) 8 fresh)
  /\ exists j, Keywords (batch_process_keywords flaky_env
                           (eight_keywords ++ ["boom"]) 8 fresh)
               = firstn (j * 8) (eight_keywords ++ ["boom"]).
Proof.
  apply (columns_aligned flaky_env).
  intros encode [= <-] texts vectors Hv. cbv beta in Hv.
  destruct (existsb _ texts); [discriminate|].
  injection Hv as <-. apply length_map.
Defined.

(** A run cut short in its second batch keeps the eight rows of the
    first. *)
Example run_cut_short_after_first_batch :
  snd (fst (batch_process_keywords_run flaky_env
              (eight_keywords ++ ["boom"]) 8 fresh)) = Aborted
  /\ Keywords (batch_process_keywords flaky_env
                 (eight_keywords ++ ["boom"]) 8 fresh) = eight_keywords
  /\ List.length (Google_Content_Topics
                    (batch_process_keywords flaky_env
                       (eight_keywords ++ ["boom"]) 8 fresh)) = 8.
Proof. repeat split; vm_compute; reflexivity. Qed.

(** * Further properties of the code *)

(** ** Input normalisation of [handle_keyword_processing] *)

Section InputNormalisation.

Import PyStr.

Fixpoint has_line_feed (s : string) : bool :=
  match s with
  | EmptyString => false
  | String c t => Ascii.eqb c "010"%char || has_line_feed t
  end.

(** A keyword as the pipeline wants it: not empty, nothing to trim, on one
    line. *)
Definition clean (kw : string) : Prop :=
  truthy kw = true /\ strip kw = kw /\ has_line_feed kw = false.

Lemma lstrip_cases (s : string) :
  lstrip s = EmptyString
  \/ exists c t, lstrip s = String c t /\ isspace c = false.
Proof.
  induction s as [|c s IH]; simpl; [now left|].
  destruct (isspace c) eqn:Hc; [exact IH|]. right. now exists c, s.
Qed.

Lemma rstrip_head (c : ascii) (t : string) :
  isspace c = false -> exists t', rstrip (String c t) = String c t'.
Proof. intros Hc. simpl. destruct (rstrip t); rewrite ?Hc; eauto. Qed.

Lemma rstrip_idempotent (s : string) : rstrip (rstrip s) = rstrip s.
Proof.
  induction s as [|c s IH]; simpl; [reflexivity|].
  destruct (rstrip s) as [|d t] eqn:Hr.
  - destruct (isspace c) eqn:Hc; simpl; [reflexivity|]. now rewrite Hc.
  - change (rstrip (String c (String d t)))
      with (match rstrip (String d t) with
            | EmptyString =>
                if isspace c then EmptyString else String c EmptyString
            | t' => String c t'
            end).
    now rewrite IH.
Qed.

Lemma strip_idempotent (s : string) : strip (strip s) = strip s.
Proof.
  unfold strip. destruct (lstrip_cases s) as [-> | (c & t & -> & Hc)].
  - reflexivity.
  - destruct (rstrip_head c t Hc) as [t' Ht']. rewrite Ht'.
    simpl lstrip. rewrite Hc, <- Ht'. apply rstrip_idempotent.
Qed.

Lemma lstrip_line_feed (s : string) :
  has_line_feed s = false -> has_line_feed (lstrip s) = false.
Proof.
  induction s as [|c s IH]; simpl; [easy|]. intros Hs.
  apply orb_false_iff in Hs as [Hc Hs].
  destruct (isspace c); [now apply IH|]. simpl. now rewrite Hc, Hs.
Qed.

Lemma rstrip_line_feed (s : string) :
  has_line_feed s = false -> has_line_feed (rstrip s) = false.
Proof.
  induction s as [|c s IH]; simpl; [easy|]. intros Hs.
  apply orb_false_iff in Hs as [Hc Hs]. specialize (IH Hs).
  destruct (rstrip s) as [|d t].
  - destruct (isspace c); simpl; [reflexivity|]. now rewrite Hc.
  - cbn [has_line_feed] in *. now rewrite Hc, IH.
Qed.

Lemma split_lines_line_feed (s : string) :
  Forall (fun piece => has_line_feed piece = false) (split_lines s).
Proof.
  induction s as [|c s IH]; simpl; [now repeat constructor|].
  destruct (Ascii.eqb c "010") eqn:Hc; [now constructor|].
  destruct (split_lines s) as [|h r]; [now repeat constructor; simpl; rewrite Hc|].
  inversion IH as [|? ? Hh Hr]; subst. constructor; [|exact Hr].
  simpl. now rewrite Hc, Hh.
Qed.

Lemma split_lines_one_line (x : string) :
  has_line_feed x = false -> split_lines x = [x].
Proof.
  induction x as [|c x IH]; simpl; [reflexivity|]. intros Hx.
  apply orb_false_iff in Hx as [Hc Hx]. now rewrite Hc, (IH Hx).
Qed.

Lemma split_lines_first_line (x rest : string) :
  has_line_feed x = false ->
  split_lines (x ++ String "010" rest) = x :: split_lines rest.
Proof.
  induction x as [|c x IH]; simpl; [reflexivity|]. intros Hx.
  apply orb_false_iff in Hx as [Hc Hx]. now rewrite Hc, (IH Hx).
Qed.

Lemma split_lines_join (lines : list string) :
  lines <> [] ->
  Forall (fun piece => has_line_feed piece = false) lines ->
  split_lines (join line_feed lines) = lines.
Proof.
  intros Hne Hall. induction Hall as [|x rest Hx Hrest IH]; [easy|].
  destruct rest as [|y rest].
  - simpl. now apply split_lines_one_line.
  - change (join line_feed (x :: y :: rest))
      with (x ++ String "010" (join line_feed (y :: rest)))%string.
    rewrite (split_lines_first_line _ _ Hx), IH; [reflexivity | discriminate].
Qed.

Lemma in_firstn {A : Type} (x : A) (n : nat) (l : list A) :
  In x (firstn n l) -> In x l.
Proof.
  intros Hin. rewrite <- (firstn_skipn n l). apply in_or_app. now left.
Qed.

Lemma input_keywords_clean (keyword_input : string) :
  Forall clean (input_keywords keyword_input).
Proof.
  unfold input_keywords. apply Forall_map, Forall_forall.
  intros line Hin. apply filter_In in Hin as [Hin Htruthy].
  apply in_firstn in Hin.
  pose proof (split_lines_line_feed keyword_input) as Hlf.
  rewrite Forall_forall in Hlf. specialize (Hlf line Hin).
  split; [exact Htruthy|]. split; [apply strip_idempotent|].
  unfold strip. now apply rstrip_line_feed, lstrip_line_feed.
Qed.

Lemma join_then_input_keywords (keywords : list string) :
  Forall clean keywords -> List.length keywords <= 100 ->
  input_keywords (join line_feed keywords) = keywords.
Proof.
  intros Hclean Hlen. destruct keywords as [|kw keywords]; [reflexivity|].
  unfold input_keywords. rewrite split_lines_join; [|discriminate|].
  2:{ apply (Forall_impl _ (P := clean)); [|exact Hclean].
      now intros a (_ & _ & Ha). }
  rewrite firstn_all2 by exact Hlen.
  assert (Hfilter : filter (fun kw0 => truthy (strip kw0)) (kw :: keywords)
                    = kw :: keywords).
  { apply forallb_filter_id, forallb_forall. intros a Ha.
    rewrite Forall_forall in Hclean. destruct (Hclean a Ha) as (Ht & Hs & _).
    now rewrite Hs. }
  rewrite Hfilter. rewrite <- (map_id (kw :: keywords)) at 2.
  apply map_ext_in. intros a Ha.
  rewrite Forall_forall in Hclean. now destruct (Hclean a Ha) as (_ & Hs & _).
Qed.

(** X1. Every keyword the entry point hands to the orchestrator is not
    empty, has no white space left to trim at either end and holds no line
    feed; there are at most 100 of them. *)
Theorem input_keywords_are_clean (keyword_input : string) :
  Forall clean (input_keywords keyword_input)
  /\ List.length (input_keywords keyword_input) <= 100.
Proof.
  split; [apply input_keywords_clean|].
  unfold input_keywords. rewrite length_map.
  etransitivity; [apply filter_length_le|]. apply firstn_le_length.
Qed.

(** X2. Writing at most 100 clean keywords one per line and reading them
    back gives the same keywords; so reading is idempotent: the keywords
    read from an input, written one per line, are read back unchanged. *)
Theorem input_keywords_round_trip :
  (forall keywords,
      Forall clean keywords -> List.length keywords <= 100 ->
      input_keywords (join line_feed keywords) = keywords)
  /\ (forall keyword_input,
         input_keywords (join line_feed (input_keywords keyword_input))
         = input_keywords keyword_input).
Proof.
  split; [exact join_then_input_keywords|].
  intros keyword_input. apply join_then_input_keywords.
  - apply input_keywords_clean.
  - unfold input_keywords. rewrite length_map.
    etransitivity; [apply filter_length_le|]. apply firstn_le_length.
Qed.

Lemma filter_firstn_prefix {A : Type} (p : A -> bool) (n : nat) (l : list A) :
  filter p (firstn n l)
  = firstn (List.length (filter p (firstn n l))) (filter p l).
Proof.
  revert n; induction l as [|x l IH]; intros n.
  - now rewrite firstn_nil.
  - destruct n as [|n]; [reflexivity|]. simpl.
    destruct (p x); simpl; now rewrite <- IH.
Qed.

Lemma firstn_app_exact {A : Type} (n : nat) (a b : list A) :
  List.length a = n -> firstn n (a ++ b) = a.
Proof.
  intros <-. rewrite firstn_app, Nat.sub_diag, firstn_all.
  destruct b; apply app_nil_r.
Qed.

Lemma filter_all {A : Type} (p : A -> bool) (l : list A) :
  forallb p l = true -> filter p l = l.
Proof. apply forallb_filter_id. Qed.

(** X3. The keywords the entry point keeps are always a prefix of the
    trimmed non-empty lines of the whole input, and of their first 100;
    they are exactly those first 100 whenever none of the first 100 lines
    of the input is blank. *)
Theorem input_keywords_prefix (keyword_input : string) :
  input_keywords keyword_input
  = firstn (List.length (input_keywords keyword_input))
      (filter truthy (map strip (split_lines keyword_input)))
  /\ input_keywords keyword_input
     = firstn (List.length (input_keywords keyword_input))
         (spec_input_keywords keyword_input)
  /\ (forallb (fun line => truthy (strip line))
        (firstn 100 (split_lines keyword_input)) = true ->
      input_keywords keyword_input = spec_input_keywords keyword_input).
Proof.
  assert (Hprefix : input_keywords keyword_input
                    = firstn (List.length (input_keywords keyword_input))
                        (filter truthy (map strip (split_lines keyword_input)))).
  { unfold input_keywords. rewrite length_map.
    rewrite (filter_map_swap strip truthy (split_lines keyword_input)).
    rewrite firstn_map. f_equal. apply filter_firstn_prefix. }
  assert (Hlen : List.length (input_keywords keyword_input) <= 100).
  { unfold input_keywords. rewrite length_map.
    etransitivity; [apply filter_length_le|]. apply firstn_le_length. }
  split; [exact Hprefix|]. split.
  - unfold spec_input_keywords. rewrite firstn_firstn.
    now rewrite Nat.min_l by exact Hlen.
  - intros Hall. unfold spec_input_keywords.
    rewrite (filter_map_swap strip truthy (split_lines keyword_input)).
    rewrite <- (firstn_skipn 100 (split_lines keyword_input)) at 1.
    rewrite filter_app, map_app, (filter_all _ _ Hall).
    unfold input_keywords. rewrite (filter_all _ _ Hall).
    destruct (Nat.le_gt_cases 100 (List.length (split_lines keyword_input)))
      as [Hlong | Hshort].
    + symmetry. apply firstn_app_exact.
      rewrite length_map, length_firstn. lia.
    + rewrite (skipn_all2 (n := 100)) by lia. cbn [filter map].
      rewrite app_nil_r. symmetry. apply firstn_all2.
      rewrite length_map, length_firstn. lia.
Qed.

End InputNormalisation.

(** ** More on the intent classifier *)

Section IntentMore.

Import PyStr Intent.

Lemma sort_by_keyword_feature_classify_with (keyword : string) :
  sort_by_keyword_feature (PyStr keyword) = classify_with intent_rules keyword.
Proof.
  unfold sort_by_keyword_feature, classify_with.
  cbv [find intent_rules snd fst].
  IntentFacts.split_on_lists (lower keyword); reflexivity.
Qed.

Lemma lower_app (a b : string) : lower (a ++ b) = (lower a ++ lower b)%string.
Proof. induction a as [|c a IH]; simpl; [reflexivity|]. now rewrite IH. Qed.

Lemma string_app_assoc (a b c : string) :
  ((a ++ b) ++ c)%string = (a ++ b ++ c)%string.
Proof. induction a as [|x a IH]; simpl; [reflexivity|]. now rewrite IH. Qed.

Lemma contains_inside (q f pre post : string) :
  contains q f = true -> contains q (pre ++ f ++ post) = true.
Proof.
  intros Hq. apply PyStrFacts.contains_substring in Hq as (a & b & ->).
  apply PyStrFacts.contains_substring. exists (pre ++ a)%string, (b ++ post)%string.
  now rewrite !string_app_assoc.
Qed.

Lemma contains_trans (q p f : string) :
  contains q p = true -> contains p f = true -> contains q f = true.
Proof.
  intros Hq Hp. apply PyStrFacts.contains_substring in Hp as (a & b & ->).
  now apply contains_inside.
Qed.

Lemma any_in_inside (phrases : list string) (f pre post : string) :
  any_in phrases f = true -> any_in phrases (pre ++ f ++ post) = true.
Proof.
  unfold any_in. rewrite !existsb_exists. intros (q & Hin & Hq).
  exists q. split; [exact Hin|]. now apply contains_inside.
Qed.

(** X4. Putting more text before or after a keyword never moves its label
    down the priority order informational, navigational, local, commercial
    investigation, transactional, other: the label stays or moves towards
    informational. *)
Theorem label_priority_monotone (pre keyword post : string) :
  priority (sort_by_keyword_feature (PyStr (pre ++ keyword ++ post)))
  <= priority (sort_by_keyword_feature (PyStr keyword)).
Proof.
  unfold sort_by_keyword_feature.
  rewrite !lower_app.
  set (f := lower keyword).
  set (f' := (lower pre ++ f ++ lower post)%string).
  assert (H : forall phrases, any_in phrases f = true ->
                              any_in phrases f' = true)
    by (intros phrases; apply any_in_inside).
  destruct (any_in informational_keywords f) eqn:E1.
  { rewrite (H _ E1). vm_compute. lia. }
  destruct (any_in navigational_keywords f) eqn:E2.
  { rewrite (H _ E2).
    destruct (any_in informational_keywords f'); vm_compute; lia. }
  destruct (any_in local_keywords f) eqn:E3.
  { rewrite (H _ E3).
    destruct (any_in informational_keywords f');
      [|destruct (any_in navigational_keywords f')]; vm_compute; lia. }
  destruct (any_in commercial_keywords f) eqn:E4.
  { rewrite (H _ E4).
    destruct (any_in informational_keywords f');
      [|destruct (any_in navigational_keywords f');
        [|destruct (any_in local_keywords f')]]; vm_compute; lia. }
  destruct (any_in transactional_keywords f) eqn:E5.
  { rewrite (H _ E5).
    destruct (any_in informational_keywords f');
      [|destruct (any_in navigational_keywords f');
        [|destruct (any_in local_keywords f');
          [|destruct (any_in commercial_keywords f')]]]; vm_compute; lia. }
  IntentFacts.split_on_lists f'; vm_compute; lia.
Qed.

Lemma any_in_app (l1 l2 : list string) (f : string) :
  any_in (l1 ++ l2) f = any_in l1 f || any_in l2 f.
Proof. apply existsb_app. Qed.

Lemma any_in_none (phrases : list string) (f q : string) :
  any_in phrases f = false -> In q phrases -> contains q f = false.
Proof.
  intros Hnone Hin. destruct (contains q f) eqn:Hq; [|reflexivity].
  assert (any_in phrases f = true)
    by (apply existsb_exists; now exists q).
  congruence.
Qed.

(** Among the phrases of a rule that occur in [f] there is one that
    decides, when no earlier phrase occurs in [f]. *)
Lemma deciding_phrase (earlier phrases : list string) (f : string)
    (n : nat) :
  any_in earlier f = false ->
  forall p, String.length p <= n -> In p phrases -> contains p f = true ->
  exists p', In p' phrases /\ contains p' f = true
             /\ decides earlier phrases p' = true.
Proof.
  intros Hearlier. induction n as [|n IH]; intros p Hlen Hin Hp.
  - exists p. split; [exact Hin|]. split; [exact Hp|].
    unfold decides. apply andb_true_iff. split; apply negb_true_iff.
    + destruct (existsb _ earlier) eqn:He; [|reflexivity].
      apply existsb_exists in He as (q & Hq & Hqp).
      pose proof (contains_trans _ _ _ Hqp Hp) as Hqf.
      now rewrite (any_in_none _ _ _ Hearlier Hq) in Hqf.
    + destruct (existsb _ phrases) eqn:He; [|reflexivity].
      apply existsb_exists in He as (q & _ & Hq).
      apply andb_true_iff in Hq as [_ Hq]. apply Nat.ltb_lt in Hq. lia.
  - destruct (decides earlier phrases p) eqn:Hd; [now exists p|].
    unfold decides in Hd. apply andb_false_iff in Hd as [Hd | Hd];
      apply negb_false_iff, existsb_exists in Hd as (q & Hq & Hqp).
    + pose proof (contains_trans _ _ _ Hqp Hp) as Hqf.
      now rewrite (any_in_none _ _ _ Hearlier Hq) in Hqf.
    + apply andb_true_iff in Hqp as [Hqp Hshort]. apply Nat.ltb_lt in Hshort.
      apply (IH q); [lia | exact Hq | exact (contains_trans _ _ _ Hqp Hp)].
Qed.

Lemma pruned_rule_fires (earlier phrases : list string) (f : string) :
  any_in earlier f = false ->
  any_in (filter (decides earlier phrases) phrases) f = any_in phrases f.
Proof.
  intros Hearlier. destruct (any_in phrases f) eqn:Hany.
  - apply existsb_exists in Hany as (p & Hin & Hp).
    destruct (deciding_phrase earlier phrases f (String.length p) Hearlier
                p (le_n _) Hin Hp) as (p' & Hin' & Hp' & Hd).
    apply existsb_exists. exists p'. split; [|exact Hp'].
    apply filter_In. now split.
  - destruct (any_in (filter _ phrases) f) eqn:Hf; [|reflexivity].
    apply existsb_exists in Hf as (p & Hin & Hp).
    apply filter_In in Hin as [Hin _].
    now rewrite (any_in_none _ _ _ Hany Hin) in Hp.
Qed.

Lemma classify_with_pruned (rules : list (string * list string))
    (earlier : list string) (keyword : string) :
  any_in earlier (lower keyword) = false ->
  classify_with (prune_table earlier rules) keyword
  = classify_with rules keyword.
Proof.
  unfold classify_with. revert earlier.
  induction rules as [|[lab phrases] rules IH]; intros earlier Hearlier;
    [reflexivity|].
  cbn [prune_table find snd fst].
  rewrite (pruned_rule_fires _ _ _ Hearlier).
  destruct (any_in phrases (lower keyword)) eqn:Hany; [reflexivity|].
  apply IH. rewrite any_in_app, Hearlier, Hany. reflexivity.
Qed.

(** X5. Taking out of any rule table the phrases that hold a phrase of an
    earlier rule or a shorter phrase of their own rule changes no label.
    For the table of the code this leaves 66, 39, 26, 41 and 43 of the 66,
    49, 50, 58 and 47 phrases; "specialist" (it holds "list"), "local
    guide", and the "entry" and "register" of the transactional rule are
    among those that never decide. *)
Theorem redundant_phrases_never_decide :
  (forall rules keyword,
      classify_with (prune_table [] rules) keyword
      = classify_with rules keyword)
  /\ (forall keyword,
         sort_by_keyword_feature (PyStr keyword)
         = classify_with (prune_table [] intent_rules) keyword)
  /\ map (fun rule => List.length (snd rule)) intent_rules
     = [66; 49; 50; 58; 47]
  /\ map (fun rule => List.length (snd rule)) (prune_table [] intent_rules)
     = [66; 39; 26; 41; 43]
  /\ forallb
       (fun rule =>
          negb (existsb (fun p => existsb (String.eqb p) (snd rule))
                  ["specialist"; "local guide"; "entry"; "register"]
                && negb (String.eqb (fst rule) "navigational")))
       (prune_table [] intent_rules) = true.
Proof.
  split; [|split; [|split; [|split]]].
  - intros rules keyword. now apply classify_with_pruned.
  - intros keyword. rewrite sort_by_keyword_feature_classify_with.
    symmetry. now apply classify_with_pruned.
  - reflexivity.
  - vm_compute. reflexivity.
  - vm_compute. reflexivity.
Qed.

End IntentMore.

(** ** More on the entity extractor adapter *)

Section EntityField.

Context {vec score : Type}.
Variable E : Env vec score.

Fixpoint last_char (s : string) : option ascii :=
  match s with
  | EmptyString => None
  | String c t =>
      match last_char t with
      | Some d => Some d
      | None => Some c
      end
  end.

Lemma last_char_app (a b : string) :
  last_char (a ++ b)
  = match last_char b with
    | Some d => Some d
    | None => last_char a
    end.
Proof.
  induction a as [|c a IH]; simpl.
  - now destruct (last_char b).
  - rewrite IH. now destruct (last_char b), (last_char a).
Qed.

Lemma entity_string_last (text lab : string) :
  last_char (entity_string (Tuple text lab)) = Some ")"%char.
Proof.
  cbn [entity_string]. rewrite last_char_app. simpl.
  rewrite last_char_app. reflexivity.
Qed.

Lemma join_last (sep : string) (items : list string) (c : ascii) :
  items <> [] ->
  Forall (fun item => last_char item = Some c) items ->
  last_char (PyStr.join sep items) = Some c.
Proof.
  intros Hne Hall. induction Hall as [|x rest Hx Hrest IH]; [easy|].
  destruct rest as [|y rest]; [exact Hx|].
  change (PyStr.join sep (x :: y :: rest))
    with (x ++ sep ++ PyStr.join sep (y :: rest))%string.
  rewrite !last_char_app, IH; [reflexivity | discriminate].
Qed.

Lemma rendered_entities_last (ent : string * string)
    (ents : list (string * string)) :
  last_char
    (processed_entity (map (fun e => Tuple (fst e) (snd e)) (ent :: ents)))
  = Some ")"%char.
Proof.
  unfold processed_entity. apply join_last; [discriminate|].
  apply Forall_map, Forall_map, Forall_forall. intros e _.
  apply entity_string_last.
Qed.

(** X6. The entity field of a row tells the three outcomes of the
    extractor apart: it is "Error extracting entities" exactly when the
    extractor raised, "No specific entities found" exactly when it found
    nothing, and otherwise the found entities as "text (label)" joined by
    ", "; it is never empty.  [perform_ner] returns the empty list in both
    of the first two cases. *)
Theorem entity_field_tells_outcome (kw : string) :
  (entities_of E kw = "Error extracting entities" <-> gliner E kw = None)
  /\ (entities_of E kw = "No specific entities found"
      <-> gliner E kw = Some [])
  /\ (forall ent ents,
         gliner E kw = Some (ent :: ents) ->
         entities_of E kw
         = PyStr.join ", "
             (map (fun e => (fst e ++ " (" ++ snd e ++ ")")%string)
                (ent :: ents)))
  /\ PyStr.truthy (entities_of E kw) = true
  /\ (perform_ner E kw = []
      <-> gliner E kw = None \/ gliner E kw = Some []).
Proof.
  unfold entities_of, extract_entities, perform_ner.
  destruct (gliner E kw) as [[|ent ents]|] eqn:Hg.
  - repeat split; try easy;
      try (intros; first [now left | now right]);
      try (intros [H|H]; easy).
  - pose proof (rendered_entities_last ent ents) as Hlast.
    cbn [map] in Hlast |- *.
    split; [|split; [|split; [|split]]].
    + split; [|discriminate].
      intros Heq. rewrite Heq in Hlast. discriminate.
    + split; [|discriminate].
      intros Heq. rewrite Heq in Hlast. discriminate.
    + intros e es [= <- <-]. unfold processed_entity.
      cbn [map]. now rewrite map_map.
    + destruct (processed_entity _); [discriminate|reflexivity].
    + split; [discriminate | intros [H|H]; discriminate].
  - repeat split; try easy;
      try (intros; first [now left | now right]);
      try (intros [H|H]; easy).
Qed.

End EntityField.

(** ** The lazily loaded models and the category list *)

Section LazyModelFacts.

Context {pipeline model : Type}.

Lemma get_nlp_loaded (L : Loaders pipeline model)
    (G : ModelGlobals pipeline model) (p : pipeline) :
  nlp G = Some p -> get_nlp L G = (Some p, G).
Proof. unfold get_nlp. now intros ->. Qed.

Lemma get_nlp_calls_loaded (loaders : list (Loaders pipeline model))
    (G : ModelGlobals pipeline model) (p : pipeline) :
  nlp G = Some p ->
  get_nlp_calls loaders G = (repeat (Some p) (List.length loaders), G).
Proof.
  intros Hp. induction loaders as [|L loaders IH]; simpl; [reflexivity|].
  now rewrite (get_nlp_loaded L G p Hp), IH.
Qed.

(** X7. [get_nlp] keeps what [spacy.blank] returned even when [add_pipe]
    then raises: that first call raises, and every later call returns the
    unfinished pipeline without raising and without trying [add_pipe]
    again, whatever the loaders would do by then.  A pipeline that was
    returned once is returned by all later calls.  [get_sentence_model]
    differs: a failed construction leaves its variable empty, so the next
    call constructs again, and a model that was returned once is returned
    by all later calls. *)
Theorem lazy_models_cache (L : Loaders pipeline model)
    (G : ModelGlobals pipeline model)
    (later : list (Loaders pipeline model)) :
  (forall blank,
      nlp G = None -> spacy_blank L = Some blank ->
      snd (add_pipe L blank) = false ->
      fst (get_nlp L G) = None
      /\ get_nlp_calls later (snd (get_nlp L G))
         = (repeat (Some (fst (add_pipe L blank))) (List.length later),
            snd (get_nlp L G)))
  /\ (forall p,
         fst (get_nlp L G) = Some p ->
         get_nlp_calls later (snd (get_nlp L G))
         = (repeat (Some p) (List.length later), snd (get_nlp L G)))
  /\ (fst (get_sentence_model L G) = None ->
      snd (get_sentence_model L G) = G
      /\ forall L', get_sentence_model L' G
                    = match SentenceTransformer L' with
                      | Some built =>
                          (Some built,
                           {| nlp := nlp G; sentence_model_var := Some built |})
                      | None => (None, G)
                      end)
  /\ (forall m,
         fst (get_sentence_model L G) = Some m ->
         forall L', get_sentence_model L' (snd (get_sentence_model L G))
                    = (Some m, snd (get_sentence_model L G))).
Proof.
  split; [|split; [|split]].
  - intros blank Hnone Hblank Hraise. unfold get_nlp at 1 2 3.
    rewrite Hnone, Hblank. destruct (add_pipe L blank) as [built returned].
    simpl in Hraise. subst returned. split; [reflexivity|].
    now apply get_nlp_calls_loaded.
  - intros p Hp. apply get_nlp_calls_loaded. revert Hp. unfold get_nlp.
    destruct (nlp G) as [loaded|] eqn:Hn; [now intros [= <-]|].
    destruct (spacy_blank L) as [blank|]; [|discriminate].
    destruct (add_pipe L blank) as [built [|]]; [|discriminate].
    now intros [= <-].
  - unfold get_sentence_model.
    destruct (sentence_model_var G) as [loaded|] eqn:Hv; [discriminate|].
    destruct (SentenceTransformer L); [discriminate|].
    intros _. split; reflexivity.
  - intros m Hm L'. revert Hm. unfold get_sentence_model.
    destruct (sentence_model_var G) as [loaded|] eqn:Hv.
    + intros [= <-]. simpl. now rewrite Hv.
    + destruct (SentenceTransformer L) as [built|]; [|discriminate].
      now intros [= <-].
Qed.

End LazyModelFacts.

Section CategoryList.

Context {vec score : Type}.
Variable E : Env vec score.

Lemma load_google_categories_stable (g : Globals) :
  load_google_categories E (snd (load_google_categories E g))
  = load_google_categories E g.
Proof.
  unfold load_google_categories.
  destruct (google_categories g) as [|c cs] eqn:Hg.
  - cbn [snd google_categories].
    destruct (match categories_file E with
              | Some lines => map PyStr.strip lines
              | None => []
              end); reflexivity.
  - cbn [snd]. now rewrite Hg.
Qed.

(** X8. The category list is read at most until it is non-empty: after a
    call that returned a non-empty list, every later call returns that list
    and leaves the module state alone, whatever the file holds by then;
    after a call that returned the empty list (file unreadable or empty)
    the next call reads the file again.  With an unchanged file a second
    call repeats the first. *)
Theorem category_list_cached_when_non_empty (E' : Env vec score)
    (g : Globals) :
  load_google_categories E (snd (load_google_categories E g))
  = load_google_categories E g
  /\ (fst (load_google_categories E g) <> [] ->
      load_google_categories E' (snd (load_google_categories E g))
      = (fst (load_google_categories E g),
         snd (load_google_categories E g)))
  /\ (fst (load_google_categories E g) = [] ->
      load_google_categories E' (snd (load_google_categories E g))
      = load_google_categories E' fresh)
  /\ (google_categories g <> [] ->
      load_google_categories E g = (google_categories g, g)).
Proof.
  split; [apply load_google_categories_stable|].
  unfold load_google_categories.
  destruct (google_categories g) as [|c cs] eqn:Hg.
  - cbn [fst snd google_categories].
    destruct (match categories_file E with
              | Some lines => map PyStr.strip lines
              | None => []
              end) as [|c cs]; repeat split; easy.
  - cbn [fst snd]. rewrite Hg. repeat split; easy.
Qed.

(** X9. A first read of a readable category file gives one category per
    line, in file order, blank lines included as empty names; each name is
    its line without the white space at either end, so it has none left. *)
Theorem categories_one_per_line (lines : list string) :
  categories_file E = Some lines ->
  fst (load_google_categories E fresh) = map PyStr.strip lines
  /\ List.length (fst (load_google_categories E fresh)) = List.length lines
  /\ Forall (fun c => PyStr.strip c = c) (fst (load_google_categories E fresh))
  /\ (forall i line,
         nth_error lines i = Some line -> PyStr.strip line = EmptyString ->
         nth_error (fst (load_google_categories E fresh)) i
         = Some EmptyString).
Proof.
  intros Hfile. unfold load_google_categories. cbn [fresh google_categories].
  rewrite Hfile. cbn [fst]. repeat split.
  - apply length_map.
  - apply Forall_map, Forall_forall. intros line _. apply strip_idempotent.
  - intros i line Hi Hblank. now rewrite nth_error_map, Hi, <- Hblank.
Qed.

End CategoryList.

(** ** More on the topic matcher *)

Section TopicShape.

Context {vec score : Type} `{Score score}.
Variable E : Env vec score.

Lemma insert_sorted_perm_any (x : nat * score) (l : list (nat * score)) :
  Permutation (insert_sorted x l) (x :: l).
Proof.
  induction l as [|y r IH]; simpl; [reflexivity|].
  destruct (sort_lt (snd y) (snd x)); [|reflexivity].
  rewrite IH. apply perm_swap.
Qed.

Lemma map_fst_combine_seq (similarities : list score) (start : nat) :
  map fst (combine (seq start (List.length similarities)) similarities)
  = seq start (List.length similarities).
Proof.
  revert start; induction similarities as [|a l IH]; intros start; simpl;
    [reflexivity|]. now rewrite IH.
Qed.

Lemma argsort_perm (similarities : list score) :
  Permutation (argsort similarities) (seq 0 (List.length similarities)).
Proof.
  unfold argsort, sorted_pairs.
  rewrite <- (map_fst_combine_seq similarities 0) at 2.
  apply Permutation_map.
  induction (combine _ similarities) as [|x l IH]; simpl; [reflexivity|].
  rewrite insert_sorted_perm_any. now constructor.
Qed.

Lemma top_indices_length (similarities : list score) :
  List.length (rev (last_n 3 (argsort similarities)))
  <= List.length similarities.
Proof.
  unfold last_n. rewrite length_rev, length_skipn.
  rewrite (Permutation_length (argsort_perm similarities)), length_seq. lia.
Qed.

(** Fewer than two similarities: the matcher answers with its message. *)
Lemma short_similarities_error (similarities : list score) (g : Globals) :
  List.length similarities < 2 ->
  fst (perform_topic_modeling_from_similarities E similarities g)
  = "Error in topic modeling".
Proof.
  intros Hshort. unfold perform_topic_modeling_from_similarities.
  destruct (load_google_categories E g) as [categories g1].
  pose proof (top_indices_length similarities) as Hlen.
  destruct (nth_error (rev (last_n 3 (argsort similarities))) 1)
    as [i1|] eqn:Hi1.
  { assert (1 < List.length (rev (last_n 3 (argsort similarities))))
      by (apply nth_error_Some; congruence). lia. }
  destruct (nth_error (rev (last_n 3 (argsort similarities))) 0) as [i0|];
    [|reflexivity].
  destruct (nth_error categories i0); reflexivity.
Qed.

(** With two or more similarities the two top indices exist, differ and
    are below the number of similarities. *)
Lemma two_top_indices (similarities : list score) :
  2 <= List.length similarities ->
  exists i0 i1 rest,
    rev (last_n 3 (argsort similarities)) = i0 :: i1 :: rest
    /\ i0 <> i1
    /\ i0 < List.length similarities /\ i1 < List.length similarities.
Proof.
  intros Htwo. pose proof (argsort_perm similarities) as Hperm.
  destruct (two_last (argsort similarities)) as (pre & i1 & i0 & HL).
  { rewrite (Permutation_length Hperm), length_seq. exact Htwo. }
  destruct (rev_last_n_two pre i1 i0) as [rest Hrest].
  exists i0, i1, rest. rewrite HL. split; [exact Hrest|].
  assert (Hnodup : NoDup (pre ++ [i1; i0])).
  { rewrite <- HL. apply (Permutation_NoDup (Permutation_sym Hperm)).
    apply seq_NoDup. }
  assert (Hin : forall i, In i (pre ++ [i1; i0]) ->
                          i < List.length similarities).
  { intros i Hi. rewrite <- HL in Hi.
    apply (Permutation_in _ Hperm), in_seq in Hi. lia. }
  split; [|split].
  - apply NoDup_app_remove_l in Hnodup.
    inversion Hnodup as [|? ? Hnotin _]. simpl in Hnotin. intuition.
  - apply Hin, in_or_app. right. simpl. auto.
  - apply Hin, in_or_app. right. simpl. auto.
Qed.

(** X10. The topic matcher answers with its error message for fewer than
    two similarities.  Any other answer is a name of the category list, or
    two of them joined by " , ".  With two or more similarities and at
    least as many categories it never takes the error branch: the answer
    is the category at one index, alone or followed by the category at a
    different index.  This holds for any score arithmetic, NaN included. *)
Theorem topic_answer_shape (similarities : list score) (g : Globals) :
  (List.length similarities < 2 ->
   fst (perform_topic_modeling_from_similarities E similarities g)
   = "Error in topic modeling")
  /\ (fst (perform_topic_modeling_from_similarities E similarities g)
      = "Error in topic modeling"
      \/ exists best second,
          In best (fst (load_google_categories E g))
          /\ In second (fst (load_google_categories E g))
          /\ (fst (perform_topic_modeling_from_similarities E similarities g)
              = best
              \/ fst (perform_topic_modeling_from_similarities E similarities g)
                 = (best ++ " , " ++ second)%string))
  /\ (2 <= List.length similarities ->
      List.length similarities
      <= List.length (fst (load_google_categories E g)) ->
      exists i0 i1 best second,
        i0 <> i1
        /\ nth_error (fst (load_google_categories E g)) i0 = Some best
        /\ nth_error (fst (load_google_categories E g)) i1 = Some second
        /\ (fst (perform_topic_modeling_from_similarities E similarities g)
            = best
            \/ fst (perform_topic_modeling_from_similarities E similarities g)
               = (best ++ " , " ++ second)%string)).
Proof.
  split; [apply short_similarities_error|]. split.
  - unfold perform_topic_modeling_from_similarities.
    destruct (load_google_categories E g) as [categories g1]. cbn [fst].
    destruct (nth_error (rev (last_n 3 (argsort similarities))) 0) as [i0|];
      [|now left].
    destruct (nth_error categories i0) as [best|] eqn:Hb; [|now left].
    destruct (nth_error (rev (last_n 3 (argsort similarities))) 1) as [i1|];
      [|now left].
    destruct (nth_error categories i1) as [second|] eqn:Hs; [|now left].
    destruct (nth_error similarities i0) as [s0|]; [|now left].
    destruct (nth_error similarities i1) as [s1|]; [|now left].
    right. exists best, second.
    split; [exact (nth_error_In _ _ Hb)|].
    split; [exact (nth_error_In _ _ Hs)|].
    cbn [fst]. destruct (gt s0 (times_1_1 s1)); [now left | now right].
  - intros Htwo Hcats.
    destruct (two_top_indices similarities Htwo)
      as (i0 & i1 & rest & Htop & Hne & H0 & H1).
    unfold perform_topic_modeling_from_similarities.
    destruct (load_google_categories E g) as [categories g1].
    cbn [fst] in *. rewrite Htop. cbn [nth_error].
    destruct (nth_error categories i0) as [best|] eqn:Hb.
    2:{ apply nth_error_None in Hb. lia. }
    destruct (nth_error categories i1) as [second|] eqn:Hs.
    2:{ apply nth_error_None in Hs. lia. }
    destruct (nth_error similarities i0) as [s0|] eqn:Hs0.
    2:{ apply nth_error_None in Hs0. lia. }
    destruct (nth_error similarities i1) as [s1|] eqn:Hs1.
    2:{ apply nth_error_None in Hs1. lia. }
    exists i0, i1, best, second. repeat split; try assumption.
    cbn [fst]. destruct (gt s0 (times_1_1 s1)); [now left | now right].
Qed.

End TopicShape.

(** A NaN similarity sorts last, so it is the top entry; no comparison
    with it holds, so the answer names two categories, the NaN one first. *)
Example topic_with_nan :
  fst (perform_topic_modeling_from_similarities float_env
         [0.5; PrimFloat.nan; 0.2]%float abc_loaded) = "B , A".
Proof. vm_compute. reflexivity. Qed.

(** ** More on the batch orchestrator *)

Section RunFacts.

Context {vec score : Type} `{Score score}.
Variable E : Env vec score.

Lemma perform_topic_state (similarities : list score) (g : Globals) :
  snd (perform_topic_modeling_from_similarities E similarities g)
  = snd (load_google_categories E g).
Proof.
  unfold perform_topic_modeling_from_similarities.
  destruct (load_google_categories E g) as [categories g1].
  now destruct (_ <- nth_error _ 0 ;; _).
Qed.

(** A module state that a call of [load_google_categories] leaves as it
    is. *)
Definition settled (g : Globals) : Prop :=
  snd (load_google_categories E g) = g.

Lemma settled_after_load (g : Globals) :
  settled (snd (load_google_categories E g)).
Proof. unfold settled. now rewrite load_google_categories_stable. Qed.

Lemma topics_of_rows_settled (rows : list (list score)) (g : Globals) :
  settled g ->
  topics_of_rows E rows g
  = (map (fun sim => fst (perform_topic_modeling_from_similarities E sim g))
       rows, g).
Proof.
  intros Hg. induction rows as [|sim rows IH]; simpl; [reflexivity|].
  pose proof (perform_topic_state sim g) as Hs. rewrite Hg in Hs.
  destruct (perform_topic_modeling_from_similarities E sim g) as [topic g1].
  simpl in Hs. subst g1. now rewrite IH.
Qed.

Lemma compute_category_embeddings_state (g : Globals) :
  snd (compute_category_embeddings E g) = snd (load_google_categories E g).
Proof.
  unfold compute_category_embeddings.
  destruct (load_google_categories E g) as [categories g1].
  destruct (sentence_model E) as [encode|]; [|reflexivity].
  now destruct (encode categories).
Qed.

Lemma compute_category_embeddings_again (g : Globals) :
  compute_category_embeddings E (snd (load_google_categories E g))
  = compute_category_embeddings E g.
Proof.
  unfold compute_category_embeddings.
  now rewrite load_google_categories_stable.
Qed.

Lemma process_batch_settled encode embs batch pd g :
  settled g -> snd (process_batch E encode embs batch pd g) = g.
Proof.
  intros Hg. unfold process_batch.
  destruct (encode batch) as [vectors|]; [|reflexivity].
  destruct (cosine_similarity E vectors embs) as [rows|]; [|reflexivity].
  now rewrite (topics_of_rows_settled rows g Hg).
Qed.

Lemma batch_loop_settled encode embs b keywords starts pd g :
  settled g -> snd (batch_loop E encode embs b keywords starts pd g) = g.
Proof.
  intros Hg. revert pd; induction starts as [|i starts IH]; intros pd; simpl;
    [reflexivity|].
  pose proof (process_batch_settled encode embs
                (firstn b (skipn i keywords)) pd g Hg) as Hp.
  destruct (process_batch E encode embs (firstn b (skipn i keywords)) pd g)
    as [[pd'|] g1]; simpl in Hp; subst g1; [apply IH | reflexivity].
Qed.

(** The module state a run leaves: untouched without a sentence model,
    else the one [load_google_categories] leaves. *)
Lemma run_state (keywords : list string) (b : nat) (g : Globals) :
  snd (batch_process_keywords_run E keywords b g)
  = match sentence_model E with
    | None => g
    | Some _ => snd (load_google_categories E g)
    end.
Proof.
  unfold batch_process_keywords_run.
  destruct (sentence_model E) as [encode|]; [|reflexivity].
  pose proof (compute_category_embeddings_state g) as Hc.
  destruct (compute_category_embeddings E g) as [embs g1].
  simpl in Hc. subst g1.
  destruct (range_step (List.length keywords) b) as [starts|];
    [|reflexivity].
  apply batch_loop_settled, settled_after_load.
Qed.

(** The run of one call does not depend on the category list an earlier
    one left: started in the state [google_categories] any earlier run
    left, it gives what it gives when started in that earlier run's own
    starting state. *)
Lemma per_call_run_after_earlier_run (keywords earlier : list string)
    (b b' : nat) (g : Globals) :
  batch_process_keywords_run E keywords b
    (snd (batch_process_keywords_run E earlier b' g))
  = batch_process_keywords_run E keywords b g.
Proof.
  rewrite run_state. unfold batch_process_keywords_run.
  destruct (sentence_model E) as [encode|]; [|reflexivity].
  now rewrite compute_category_embeddings_again.
Qed.

(** X12. With batch size 0 the loop is not entered ([range] refuses the
    step): whatever the keywords, the result is the four empty columns and
    the run ends in the [except] branch. *)
Theorem batch_size_zero (keywords : list string) (g : Globals) :
  batch_process_keywords E keywords 0 g = empty_processed_data
  /\ snd (fst (batch_process_keywords_run E keywords 0 g)) = Aborted.
Proof.
  unfold batch_process_keywords, batch_process_keywords_run.
  destruct (sentence_model E) as [encode|]; [|now split].
  now destruct (compute_category_embeddings E g).
Qed.

Lemma batch_loop_aborted_short encode embs b keywords fuel j pd g :
  1 <= b ->
  Keywords pd = firstn (j * b) keywords ->
  snd (fst (batch_loop E encode embs b keywords
              (range_from fuel (j * b) (List.length keywords) b) pd g))
  = Aborted ->
  List.length
    (Keywords (fst (fst (batch_loop E encode embs b keywords
                           (range_from fuel (j * b) (List.length keywords) b)
                           pd g))))
  < List.length keywords.
Proof.
  intros Hb. revert j pd g; induction fuel as [|fuel IH];
    intros j pd g Hpd; simpl; [discriminate|].
  destruct (j * b <? List.length keywords) eqn:Hlt; simpl; [|discriminate].
  destruct (process_batch E encode embs
              (firstn b (skipn (j * b) keywords)) pd g)
    as [[pd'|] g'] eqn:Hp.
  - apply process_batch_appends in Hp as (vectors & rows & _ & _ & _ & Hpd').
    replace (j * b + b) with (S j * b) by lia. apply IH.
    rewrite Hpd'. simpl. rewrite Hpd.
    replace (b + j * b) with (j * b + b) by lia. now rewrite firstn_plus.
  - intros _. simpl. rewrite Hpd, length_firstn.
    apply Nat.ltb_lt in Hlt. lia.
Qed.

(** X13. For a non-empty keyword list the number of rows tells how the
    run ended: the keyword column is the whole keyword list exactly when
    the run completed, and a run that ended in the [except] branch has
    fewer rows than there are keywords. *)
Theorem row_count_tells_ending (keywords : list string) (b : nat)
    (g : Globals) :
  keywords <> [] ->
  (snd (fst (batch_process_keywords_run E keywords b g)) = Completed
   <-> Keywords (batch_process_keywords E keywords b g) = keywords)
  /\ (snd (fst (batch_process_keywords_run E keywords b g)) = Aborted ->
      List.length (Keywords (batch_process_keywords E keywords b g))
      < List.length keywords).
Proof.
  intros Hne.
  assert (Hnz : 0 < List.length keywords) by (destruct keywords; simpl; [easy|lia]).
  assert (Habort :
    snd (fst (batch_process_keywords_run E keywords b g)) = Aborted ->
    List.length (Keywords (batch_process_keywords E keywords b g))
    < List.length keywords).
  { unfold batch_process_keywords, batch_process_keywords_run.
    destruct (sentence_model E) as [encode|]; [|intros _; exact Hnz].
    destruct (compute_category_embeddings E g) as [embs g1].
    destruct b as [|b]; simpl range_step; cbv iota; [intros _; exact Hnz|].
    apply (batch_loop_aborted_short encode embs (S b) keywords
             (List.length keywords) 0 empty_processed_data g1);
      [lia | reflexivity]. }
  split; [|exact Habort]. split.
  - apply completed_run_keywords.
  - intros Hk.
    destruct (snd (fst (batch_process_keywords_run E keywords b g)));
      [reflexivity|].
    specialize (Habort eq_refl). rewrite Hk in Habort. lia.
Qed.

End RunFacts.

Section RowByRow.

Context {vec score : Type} `{Score score}.
Variable E : Env vec score.
Variable embed : string -> vec.

(** The columns a run gives under an embedder that works text by text,
    when there are category embeddings. *)
Lemma run_row_by_row (keywords : list string) (b : nat) (g : Globals) :
  (forall encode, sentence_model E = Some encode ->
                  forall texts, encode texts = Some (map embed texts)) ->
  sentence_model E <> None ->
  fst (load_google_categories E g) <> [] ->
  1 <= b ->
  batch_process_keywords E keywords b g
  = {| Keywords := keywords;
       Intent := map intent_of keywords;
       NER_Entities := map (entities_of E) keywords;
       Google_Content_Topics := map (topic_for E embed g) keywords |}.
Proof.
  intros Henc Hmodel Hcats Hb.
  unfold batch_process_keywords, batch_process_keywords_run, topic_for.
  destruct (sentence_model E) as [encode|] eqn:Hm; [|easy].
  pose proof (compute_category_embeddings_state E g) as Hstate.
  assert (Hembs : fst (compute_category_embeddings E g) <> []).
  { unfold compute_category_embeddings.
    destruct (load_google_categories E g) as [categories g1].
    rewrite Hm, (Henc encode eq_refl). simpl in *.
    now destruct categories. }
  destruct (compute_category_embeddings E g) as [embs g1].
  simpl in Hstate, Hembs. destruct b as [|b]; [lia|].
  simpl range_step. cbv iota.
  rewrite (batch_loop_total_embedder E embed encode embs (S b) keywords
             (List.length keywords) 0 empty_processed_data g1
             (Henc encode eq_refl) Hembs) by lia.
  unfold extended. cbn [skipn].
  rewrite topics_of_rows_settled
    by (subst g1; apply settled_after_load).
  cbn [fst Keywords Intent NER_Entities Google_Content_Topics
       empty_processed_data app].
  unfold rows_for. now rewrite map_map.
Qed.

End RowByRow.

Section SingleCategory.

Context {vec score : Type} `{Score score}.
Variable E : Env vec score.

Lemma cosine_similarity_row_length (X Y : list vec)
    (rows : list (list score)) :
  cosine_similarity E X Y = Some rows ->
  Forall (fun row => List.length row = List.length Y) rows.
Proof.
  unfold cosine_similarity. destruct X as [|x X], Y as [|y Y];
    try discriminate.
  intros Heq.
  assert (Hrows : rows = map (fun v => map (cosine E v) (y :: Y)) (x :: X))
    by (simpl in *; congruence).
  rewrite Hrows. apply Forall_map, Forall_forall. intros v _.
  apply length_map.
Qed.

Lemma topics_of_rows_short (rows : list (list score)) (g : Globals) :
  Forall (fun row => List.length row < 2) rows ->
  Forall (eq "Error in topic modeling") (fst (topics_of_rows E rows g)).
Proof.
  intros Hrows. revert g; induction Hrows as [|sim rows Hsim _ IH];
    intros g; simpl; [constructor|].
  pose proof (short_similarities_error E sim g Hsim) as Hmsg.
  destruct (perform_topic_modeling_from_similarities E sim g) as [topic g1].
  specialize (IH g1). destruct (topics_of_rows E rows g1) as [topics g2].
  simpl in *. constructor; [now symmetry | exact IH].
Qed.

Lemma batch_loop_single_category encode embs b keywords starts pd g :
  List.length embs < 2 ->
  Forall (eq "Error in topic modeling") (Google_Content_Topics pd) ->
  Forall (eq "Error in topic modeling")
    (Google_Content_Topics
       (fst (fst (batch_loop E encode embs b keywords starts pd g)))).
Proof.
  intros Hembs. revert pd g; induction starts as [|i starts IH];
    intros pd g Hpd; simpl; [exact Hpd|].
  destruct (process_batch E encode embs (firstn b (skipn i keywords)) pd g)
    as [[pd'|] g'] eqn:Hp; [|exact Hpd].
  apply IH.
  apply process_batch_appends in Hp as (vectors & rows & _ & Hc & _ & ->).
  cbn [Google_Content_Topics]. apply Forall_app. split; [exact Hpd|].
  apply topics_of_rows_short.
  apply (Forall_impl _ (P := fun row => List.length row = List.length embs));
    [intros row ->; exact Hembs|].
  exact (cosine_similarity_row_length _ _ _ Hc).
Qed.

Lemma Forall_eq_repeat {A : Type} (x : A) (l : list A) :
  Forall (eq x) l -> l = repeat x (List.length l).
Proof. induction 1 as [|y l <- _ IH]; simpl; [reflexivity|]. now rewrite <- IH. Qed.

(** X15. With a category list of exactly one name, and a sentence model
    that loads and encodes dependably, the run completes with a row for
    every keyword, and the topic of every row is "Error in topic
    modeling": one category is not enough for the matcher. *)
Theorem single_category_all_topic_errors
    (encode : list string -> option (list vec))
    (keywords : list string) (b : nat) (g : Globals) :
  sentence_model E = Some encode ->
  dependable encode ->
  List.length (fst (load_google_categories E g)) = 1 ->
  1 <= b ->
  snd (fst (batch_process_keywords_run E keywords b g)) = Completed
  /\ Keywords (batch_process_keywords E keywords b g) = keywords
  /\ Google_Content_Topics (batch_process_keywords E keywords b g)
     = repeat "Error in topic modeling" (List.length keywords).
Proof.
  intros Hm Hdep Hone Hb.
  assert (Hcats : fst (load_google_categories E g) <> [])
    by (intros Hnil; rewrite Hnil in Hone; discriminate).
  pose proof (run_completes E encode keywords b g Hm Hdep Hcats Hb) as Hdone.
  pose proof (completed_run_keywords E _ _ _ Hdone) as Hk.
  split; [exact Hdone|]. split; [exact Hk|].
  assert (Hvec : one_vector_per_text encode).
  { intros texts vectors Hv. destruct (Hdep texts) as (v & Hv' & Hlen).
    congruence. }
  assert (Hall : Forall (eq "Error in topic modeling")
                   (Google_Content_Topics
                      (batch_process_keywords E keywords b g))
                 /\ List.length
                      (Google_Content_Topics
                         (batch_process_keywords E keywords b g))
                    = List.length
                        (Keywords (batch_process_keywords E keywords b g))).
  { unfold batch_process_keywords, batch_process_keywords_run.
    rewrite Hm.
    assert (Hembs : List.length (fst (compute_category_embeddings E g)) < 2).
    { unfold compute_category_embeddings.
      destruct (load_google_categories E g) as [categories g1].
      rewrite Hm. destruct (Hdep categories) as (embs & -> & Hlen).
      simpl in *. lia. }
    destruct (compute_category_embeddings E g) as [embs g1].
    simpl in Hembs. destruct b as [|b]; [lia|]. simpl range_step. cbv iota.
    split.
    - apply batch_loop_single_category; [exact Hembs | constructor].
    - apply batch_loop_topic_column; [exact Hvec | reflexivity]. }
  destruct Hall as [Hall Hlen]. rewrite Hk in Hlen.
  rewrite <- Hlen. now apply Forall_eq_repeat.
Qed.

End SingleCategory.

(** ** The callbacks on the stored result *)

Section ResultViews.

Lemma map_fst_combine {A B : Type} (l : list A) (l' : list B) :
  List.length l = List.length l' -> map fst (combine l l') = l.
Proof.
  revert l'; induction l as [|a l IH]; intros [|b l'] Hlen; simpl in *;
    try easy. injection Hlen as Hlen. now rewrite IH.
Qed.

Lemma map_snd_combine {A B : Type} (l : list A) (l' : list B) :
  List.length l = List.length l' -> map snd (combine l l') = l'.
Proof.
  revert l'; induction l as [|a l IH]; intros [|b l'] Hlen; simpl in *;
    try easy. injection Hlen as Hlen. now rewrite IH.
Qed.

(** The data frame of four columns of one length: its columns are the
    four lists. *)
Lemma DataFrame_columns (pd : ProcessedData) :
  List.length (Intent pd) = List.length (Keywords pd) ->
  List.length (NER_Entities pd) = List.length (Keywords pd) ->
  List.length (Google_Content_Topics pd) = List.length (Keywords pd) ->
  exists df,
    DataFrame pd = Some df
    /\ map row_Keywords df = Keywords pd
    /\ map row_Intent df = Intent pd
    /\ map row_NER_Entities df = NER_Entities pd
    /\ map row_Google_Content_Topics df = Google_Content_Topics pd.
Proof.
  intros Hi Hn Ht. unfold DataFrame.
  rewrite Hi, Hn, Ht, !Nat.eqb_refl. cbn [andb].
  eexists. split; [reflexivity|].
  assert (H1 : List.length (combine (Keywords pd) (Intent pd))
               = List.length (NER_Entities pd))
    by (rewrite length_combine; lia).
  assert (H2 : List.length
                 (combine (combine (Keywords pd) (Intent pd))
                    (NER_Entities pd))
               = List.length (Google_Content_Topics pd))
    by (rewrite !length_combine; lia).
  rewrite !map_map. cbn [row_Keywords row_Intent row_NER_Entities
                         row_Google_Content_Topics].
  repeat split.
  - rewrite <- (map_map fst (fun r => fst (fst r))).
    rewrite (map_fst_combine _ _ H2).
    rewrite <- (map_map fst fst), (map_fst_combine _ _ H1).
    apply map_fst_combine. lia.
  - rewrite <- (map_map fst (fun r => snd (fst r))).
    rewrite (map_fst_combine _ _ H2).
    rewrite <- (map_map fst snd), (map_fst_combine _ _ H1).
    apply map_snd_combine. lia.
  - rewrite <- (map_map fst snd), (map_fst_combine _ _ H2).
    apply map_snd_combine. exact H1.
  - apply map_snd_combine. exact H2.
Qed.

Lemma unique_In (x : string) (values : list string) :
  In x (unique values) <-> In x values.
Proof.
  induction values as [|y values IH]; simpl; [reflexivity|].
  rewrite filter_In, IH, negb_true_iff. split.
  - intros [Hy | [Hin _]]; auto.
  - intros [Hy | Hin]; [now left|].
    destruct (String.eqb y x) eqn:Hyx.
    + left. now apply String.eqb_eq.
    + right. now split.
Qed.

Lemma unique_NoDup (values : list string) : NoDup (unique values).
Proof.
  induction values as [|y values IH]; simpl; constructor.
  - rewrite filter_In, negb_true_iff, String.eqb_refl. now intros [_ Hy].
  - now apply NoDup_filter.
Qed.

Lemma intent_of_in_labels (kw : string) :
  In (intent_of kw) Intent.intent_labels.
Proof.
  unfold intent_of, Intent.sort_by_keyword_feature.
  IntentFacts.split_on_lists (PyStr.lower kw);
    cbv [Intent.intent_labels In];
    repeat (first [left; reflexivity | right]).
Qed.

Context {vec score : Type} `{Score score}.
Variable E : Env vec score.

(** The result of a run as a data frame, when [encode] returns one vector
    per text. *)
Lemma run_data_frame (keywords : list string) (b : nat) (g : Globals) :
  (forall encode, sentence_model E = Some encode ->
                  one_vector_per_text encode) ->
  exists df,
    DataFrame (batch_process_keywords E keywords b g) = Some df
    /\ map row_Keywords df
       = Keywords (batch_process_keywords E keywords b g)
    /\ map row_Intent df
       = map intent_of (Keywords (batch_process_keywords E keywords b g))
    /\ map row_NER_Entities df
       = map (entities_of E)
           (Keywords (batch_process_keywords E keywords b g)).
Proof.
  intros Hone.
  assert (Hcols : keyword_columns E (batch_process_keywords E keywords b g)
                  /\ List.length
                       (Google_Content_Topics
                          (batch_process_keywords E keywords b g))
                     = List.length
                         (Keywords (batch_process_keywords E keywords b g))).
  { unfold batch_process_keywords, batch_process_keywords_run.
    destruct (sentence_model E) as [encode|] eqn:Hm; [|now repeat split].
    destruct (compute_category_embeddings E g) as [embs g1].
    destruct b as [|b]; simpl range_step; cbv iota; [now repeat split|].
    split.
    - apply batch_loop_keyword_columns. now split.
    - apply batch_loop_topic_column; [now apply Hone | reflexivity]. }
  destruct Hcols as [[Hi Hn] Ht].
  destruct (DataFrame_columns (batch_process_keywords E keywords b g))
    as (df & Hdf & HK & HI & HN & _).
  - now rewrite Hi, length_map.
  - now rewrite Hn, length_map.
  - exact Ht.
  - exists df. rewrite HI, HN, Hi, Hn. now repeat split.
Qed.

(** X16. On the result of a run (with an [encode] that returns one vector
    per text) building the data frame does not raise, and the dropdown
    gets one option per distinct intent of the result, in order of first
    appearance, label and value alike: no option twice, every option an
    intent of some row and one of the six labels, so at most six options;
    the download button is enabled.  Without a stored result there are no
    options and the button is disabled; an intent column that differs in
    length from the keyword column makes the callback raise. *)
Theorem dropdown_lists_distinct_intents (keywords : list string) (b : nat)
    (g : Globals) :
  (forall encode, sentence_model E = Some encode ->
                  one_vector_per_text encode) ->
  (exists options,
      update_dropdown_and_button (Some (batch_process_keywords E keywords b g))
      = Some (options, false)
      /\ map value options
         = unique (Intent (batch_process_keywords E keywords b g))
      /\ map label options = map value options
      /\ NoDup (map value options)
      /\ (forall x, In x (map value options)
                    <-> In x (Intent (batch_process_keywords E keywords b g)))
      /\ incl (map value options) Intent.intent_labels
      /\ List.length options <= 6)
  /\ update_dropdown_and_button None = Some ([], true)
  /\ (forall pd,
         List.length (Intent pd) <> List.length (Keywords pd) ->
         update_dropdown_and_button (Some pd) = None).
Proof.
  intros Hone. split; [|split; [reflexivity|]].
  - destruct (run_data_frame keywords b g Hone) as (df & Hdf & HK & HI & _).
    assert (Hintent : map row_Intent df
                      = Intent (batch_process_keywords E keywords b g)).
    { rewrite HI. symmetry.
      assert (Hcols : keyword_columns E (batch_process_keywords E keywords b g)).
      { unfold batch_process_keywords, batch_process_keywords_run.
        destruct (sentence_model E) as [encode|]; [|now split].
        destruct (compute_category_embeddings E g) as [embs g1].
        destruct b as [|b]; simpl range_step; cbv iota; [now split|].
        apply batch_loop_keyword_columns. now split. }
      apply Hcols. }
    unfold update_dropdown_and_button. rewrite Hdf.
    eexists. split; [reflexivity|].
    rewrite !map_map. cbn [value label]. rewrite !map_id, Hintent.
    assert (Hincl : incl (unique (Intent (batch_process_keywords E keywords b g)))
                      Intent.intent_labels).
    { intros x Hx. apply (proj1 (unique_In _ _)) in Hx.
      rewrite <- Hintent, HI in Hx.
      apply in_map_iff in Hx as (kw & <- & _). apply intent_of_in_labels. }
    repeat split.
    + apply unique_NoDup.
    + apply unique_In.
    + apply unique_In.
    + exact Hincl.
    + rewrite <- (length_map value), map_map. cbn [value]. rewrite map_id.
      exact (NoDup_incl_length (unique_NoDup _) Hincl).
  - intros pd Hlen. unfold update_dropdown_and_button, DataFrame.
    apply Nat.eqb_neq in Hlen. now rewrite Hlen.
Qed.

(** X17. On the result of a run (same condition) the table for a selected
    intent holds, in result order, exactly the rows whose intent is the
    selection: its keywords are the keywords of the result with that
    intent, every row carries its keyword's intent and entity field, and
    the table has a row exactly when the selection is an intent of the
    result.  Without a selection or without a stored result the callback
    returns the empty [Div]. *)
Theorem table_shows_rows_of_selected_intent (keywords : list string)
    (b : nat) (g : Globals) (selected_intent : string) :
  (forall encode, sentence_model E = Some encode ->
                  one_vector_per_text encode) ->
  (exists data,
      update_keywords_table (Some selected_intent)
        (Some (batch_process_keywords E keywords b g))
      = Some (DataTable (map (fun i => (i, i)) column_names) data)
      /\ map row_Keywords data
         = filter (fun kw => String.eqb (intent_of kw) selected_intent)
             (Keywords (batch_process_keywords E keywords b g))
      /\ Forall (fun r => row_Intent r = selected_intent
                          /\ row_Intent r = intent_of (row_Keywords r)
                          /\ row_NER_Entities r = entities_of E (row_Keywords r))
           data
      /\ (data <> []
          <-> In selected_intent
                (Intent (batch_process_keywords E keywords b g))))
  /\ update_keywords_table None
       (Some (batch_process_keywords E keywords b g)) = Some Div
  /\ update_keywords_table (Some selected_intent) None = Some Div.
Proof.
  intros Hone. split; [|split; reflexivity].
  destruct (run_data_frame keywords b g Hone) as (df & Hdf & HK & HI & HN).
  assert (Hrow : forall r, In r df ->
                           row_Intent r = intent_of (row_Keywords r)
                           /\ row_NER_Entities r
                              = entities_of E (row_Keywords r)).
  { intros r Hr. rewrite <- HK, map_map in HI, HN. split.
    - exact (ext_in_map HI r Hr).
    - exact (ext_in_map HN r Hr). }
  assert (Hcols : Intent (batch_process_keywords E keywords b g)
                  = map row_Intent df).
  { rewrite HI.
    assert (Hk : keyword_columns E (batch_process_keywords E keywords b g)).
    { unfold batch_process_keywords, batch_process_keywords_run.
      destruct (sentence_model E) as [encode|]; [|now split].
      destruct (compute_category_embeddings E g) as [embs g1].
      destruct b as [|b]; simpl range_step; cbv iota; [now split|].
      apply batch_loop_keyword_columns. now split. }
    apply Hk. }
  unfold update_keywords_table. rewrite Hdf.
  eexists. split; [reflexivity|]. split; [|split].
  - rewrite <- HK, filter_map_swap. f_equal.
    apply filter_ext_in. intros r Hr. now rewrite (proj1 (Hrow r Hr)).
  - apply Forall_forall. intros r Hr. apply filter_In in Hr as [Hr Hsel].
    apply String.eqb_eq in Hsel. destruct (Hrow r Hr) as [Hi Hn].
    now repeat split.
  - rewrite Hcols. split.
    + intros Hne.
      destruct (filter _ df) as [|r rest] eqn:Hf; [easy|].
      assert (Hr : In r (filter (fun r0 => String.eqb (row_Intent r0)
                                             selected_intent) df))
        by (rewrite Hf; now left).
      apply filter_In in Hr as [Hr Hsel]. apply String.eqb_eq in Hsel.
      apply in_map_iff. now exists r.
    + intros Hin Hnil. apply in_map_iff in Hin as (r & Hsel & Hr).
      assert (Hf : In r (filter (fun r0 => String.eqb (row_Intent r0)
                                             selected_intent) df)).
      { apply filter_In. split; [exact Hr|]. now apply String.eqb_eq. }
      now rewrite Hnil in Hf.
Qed.

(** X18. The callback of the two triggers starts the pipeline only for
    the submit button, with a click count and a non-empty input; the stored
    result is then the orchestrator's result, with batch size 8, on the
    keywords read from the input.  For every other trigger or input it
    stores nothing and leaves the module state alone.  No output ever
    disables the submit button. *)
Theorem callback_runs_pipeline_on_submit_only (triggered_id : string)
    (loaded : bool) (n_clicks : option Z) (keyword_input : option string)
    (g : Globals) :
  processed_data_out
    (fst (combined_callback E triggered_id loaded n_clicks keyword_input g))
  = match n_clicks, keyword_input with
    | Some _, Some (String c rest) =>
        if String.eqb triggered_id "submit-button"
        then Some (batch_process_keywords E (input_keywords (String c rest))
                     8 g)
        else None
    | _, _ => None
    end
  /\ (processed_data_out
        (fst (combined_callback E triggered_id loaded n_clicks keyword_input g))
      = None ->
      snd (combined_callback E triggered_id loaded n_clicks keyword_input g)
      = g)
  /\ submit_disabled
       (fst (combined_callback E triggered_id loaded n_clicks keyword_input g))
     = false.
Proof.
  unfold combined_callback.
  destruct (String.eqb triggered_id "models-loaded") eqn:Hload.
  - apply String.eqb_eq in Hload. subst triggered_id.
    cbn [fst snd]. unfold handle_model_loading.
    destruct loaded, n_clicks as [n|], keyword_input as [[|c rest]|];
      now repeat split.
  - destruct (String.eqb triggered_id "submit-button").
    + unfold handle_keyword_processing, batch_process_keywords.
      destruct n_clicks as [n|], keyword_input as [[|c rest]|];
        try now repeat split.
      destruct (batch_process_keywords_run E (input_keywords (String c rest))
                  8 g) as [[pd o] g1].
      now repeat split.
    + destruct n_clicks as [n|], keyword_input as [[|c rest]|];
        now repeat split.
Qed.

End ResultViews.

(** ** The further properties on the test doubles *)

Lemma stub_one_vector_per_text :
  forall encode, sentence_model stub_env = Some encode ->
                 one_vector_per_text encode.
Proof.
  intros encode [= <-] texts vectors [= <-]. apply length_map.
Qed.

(** X9 on the category file of the test double. *)
Lemma categories_one_per_line_witness :
  fst (load_google_categories stub_env fresh)
  = map PyStr.strip stub_categories_file
  /\ List.length (fst (load_google_categories stub_env fresh))
     = List.length stub_categories_file
  /\ Forall (fun c => PyStr.strip c = c)
       (fst (load_google_categories stub_env fresh))
  /\ (forall i line,
         nth_error stub_categories_file i = Some line ->
         PyStr.strip line = EmptyString ->
         nth_error (fst (load_google_categories stub_env fresh)) i
         = Some EmptyString).
Proof.
  apply (categories_one_per_line stub_env stub_categories_file).
  reflexivity.
Defined.

(** X13 on eight keywords. *)
Lemma row_count_tells_ending_witness :
  (snd (fst (batch_process_keywords_run flaky_env
               (eight_keywords ++ ["boom"]) 8 fresh)) = Completed
   <-> Keywords (batch_process_keywords flaky_env
                   (eight_keywords ++ ["boom"]) 8 fresh)
       = eight_keywords ++ ["boom"])
  /\ (snd (fst (batch_process_keywords_run flaky_env
                  (eight_keywords ++ ["boom"]) 8 fresh)) = Aborted ->
      List.length (Keywords (batch_process_keywords flaky_env
                               (eight_keywords ++ ["boom"]) 8 fresh))
      < List.length (eight_keywords ++ ["boom"])).
Proof.
  apply (row_count_tells_ending flaky_env). discriminate.
Defined.

(** X15 on a category file of one name. *)
Lemma single_category_all_topic_errors_witness :
  snd (fst (batch_process_keywords_run one_category_env eight_keywords 8
              fresh)) = Completed
  /\ Keywords (batch_process_keywords one_category_env eight_keywords 8 fresh)
     = eight_keywords
  /\ Google_Content_Topics
       (batch_process_keywords one_category_env eight_keywords 8 fresh)
     = repeat "Error in topic modeling" (List.length eight_keywords).
Proof.
  apply (single_category_all_topic_errors one_category_env
           (fun texts => Some (map stub_embed texts))).
  - reflexivity.
  - exact stub_encode_dependable.
  - reflexivity.
  - lia.
Defined.

(** X16 on the result for the eight keywords. *)
Lemma dropdown_lists_distinct_intents_witness :
  (exists options,
      update_dropdown_and_button
        (Some (batch_process_keywords stub_env eight_keywords 8 fresh))
      = Some (options, false)
      /\ map value options
         = unique (Intent (batch_process_keywords stub_env eight_keywords 8
                             fresh))
      /\ map label options = map value options
      /\ NoDup (map value options)
      /\ (forall x, In x (map value options)
                    <-> In x (Intent (batch_process_keywords stub_env
                                        eight_keywords 8 fresh)))
      /\ incl (map value options) Intent.intent_labels
      /\ List.length options <= 6)
  /\ update_dropdown_and_button None = Some ([], true)
  /\ (forall pd,
         List.length (Intent pd) <> List.length (Keywords pd) ->
         update_dropdown_and_button (Some pd) = None).
Proof.
  apply (dropdown_lists_distinct_intents stub_env eight_keywords 8 fresh).
  exact stub_one_vector_per_text.
Defined.

(** X17 on the result for the eight keywords and the selection "other". *)
Lemma table_shows_rows_of_selected_intent_witness :
  (exists data,
      update_keywords_table (Some "other")
        (Some (batch_process_keywords stub_env eight_keywords 8 fresh))
      = Some (DataTable (map (fun i => (i, i)) column_names) data)
      /\ map row_Keywords data
         = filter (fun kw => String.eqb (intent_of kw) "other")
             (Keywords (batch_process_keywords stub_env eight_keywords 8
                          fresh))
      /\ Forall (fun r => row_Intent r = "other"
                          /\ row_Intent r = intent_of (row_Keywords r)
                          /\ row_NER_Entities r
                             = entities_of stub_env (row_Keywords r))
           data
      /\ (data <> []
          <-> In "other"
                (Intent (batch_process_keywords stub_env eight_keywords 8
                           fresh))))
  /\ update_keywords_table None
       (Some (batch_process_keywords stub_env eight_keywords 8 fresh))
     = Some Div
  /\ update_keywords_table (Some "other") None = Some Div.
Proof.
  apply (table_shows_rows_of_selected_intent stub_env eight_keywords 8 fresh
           "other").
  exact stub_one_vector_per_text.
Defined.

(** The dropdown and the table for the eight keywords. *)
Example views_of_eight_keywords :
  option_map (fun r => map value (fst r))
    (update_dropdown_and_button
       (Some (batch_process_keywords stub_env eight_keywords 8 fresh)))
  = Some [ "informational"; "other"; "commercial investigation";
           "navigational"; "local"; "transactional" ]
  /\ match update_keywords_table (Some "other")
             (Some (batch_process_keywords stub_env eight_keywords 8 fresh))
     with
     | Some (DataTable _ data) => map row_Keywords data
     | _ => []
     end = [ "paris hotel"; "crash test"; "zebra" ].
Proof. split; vm_compute; reflexivity. Qed.

(** A failing [add_pipe]: the first call raises, the next two return the
    unfinished pipeline. *)
Example half_built_pipeline_is_kept :
  let L := {| spacy_blank := Some "blank";
              add_pipe := fun p => (p, false);
              SentenceTransformer := Some "model" |} in
  let G := {| nlp := None; sentence_model_var := None |} in
  fst (get_nlp L G) = None
  /\ fst (get_nlp_calls [L; L] (snd (get_nlp L G)))
     = [Some "blank"; Some "blank"].
Proof. split; reflexivity. Qed.

(** * The orchestrator over the module variables of the models *)

Section ModelVariables.

Context {pipeline model : Type}.
Variable L : Loaders pipeline model.

Lemma get_sentence_model_keeps_nlp (M : ModelGlobals pipeline model) :
  nlp (snd (get_sentence_model L M)) = nlp M.
Proof.
  unfold get_sentence_model. destruct (sentence_model_var M); [reflexivity|].
  now destruct (SentenceTransformer L).
Qed.

Lemma get_sentence_model_by_variable (M M' : ModelGlobals pipeline model) :
  sentence_model_var M = sentence_model_var M' ->
  fst (get_sentence_model L M) = fst (get_sentence_model L M')
  /\ sentence_model_var (snd (get_sentence_model L M))
     = sentence_model_var (snd (get_sentence_model L M')).
Proof.
  unfold get_sentence_model. intros Hv. rewrite <- Hv.
  destruct (sentence_model_var M) eqn:HM.
  - cbn [fst snd]. split; [reflexivity | congruence].
  - destruct (SentenceTransformer L); cbn [fst snd sentence_model_var];
      split; congruence.
Qed.

Lemma get_sentence_model_again (M : ModelGlobals pipeline model) :
  get_sentence_model L (snd (get_sentence_model L M))
  = get_sentence_model L M.
Proof.
  unfold get_sentence_model. destruct (sentence_model_var M) eqn:Hv.
  - cbn [snd]. now rewrite Hv.
  - destruct (SentenceTransformer L) eqn:Hs; cbn [snd sentence_model_var nlp].
    + reflexivity.
    + now rewrite Hv.
Qed.

Lemma get_nlp_keeps_sentence_model (M : ModelGlobals pipeline model) :
  sentence_model_var (snd (get_nlp L M)) = sentence_model_var M.
Proof.
  unfold get_nlp. destruct (nlp M); [reflexivity|].
  destruct (spacy_blank L) as [blank|]; [|reflexivity].
  now destruct (add_pipe L blank) as [built [|]].
Qed.

Lemma get_nlp_by_variable (M M' : ModelGlobals pipeline model) :
  nlp M = nlp M' ->
  fst (get_nlp L M) = fst (get_nlp L M')
  /\ nlp (snd (get_nlp L M)) = nlp (snd (get_nlp L M')).
Proof.
  unfold get_nlp. intros Hn. rewrite <- Hn.
  destruct (nlp M) eqn:HM.
  - cbn [fst snd]. split; [reflexivity | congruence].
  - destruct (spacy_blank L) as [blank|];
      [destruct (add_pipe L blank) as [built [|]]|];
      cbn [fst snd nlp]; split; congruence.
Qed.

End ModelVariables.

Section PerCallFunctions.

Context {vec score : Type} `{Score score}.
Variables E E' : Env vec score.

(** The category list and the topic matcher consult the category file
    only, [cosine_similarity] the cosine only. *)
Lemma load_google_categories_by_file (g : Globals) :
  categories_file E = categories_file E' ->
  load_google_categories E g = load_google_categories E' g.
Proof. unfold load_google_categories. now intros ->. Qed.

Lemma perform_topic_by_file (similarities : list score) (g : Globals) :
  categories_file E = categories_file E' ->
  perform_topic_modeling_from_similarities E similarities g
  = perform_topic_modeling_from_similarities E' similarities g.
Proof.
  intros Hfile. unfold perform_topic_modeling_from_similarities.
  now rewrite (load_google_categories_by_file g Hfile).
Qed.

Lemma topics_of_rows_by_file (rows : list (list score)) (g : Globals) :
  categories_file E = categories_file E' ->
  topics_of_rows E rows g = topics_of_rows E' rows g.
Proof.
  intros Hfile. revert g; induction rows as [|sim rows IH]; intros g; simpl;
    [reflexivity|].
  rewrite (perform_topic_by_file sim g Hfile).
  destruct (perform_topic_modeling_from_similarities E' sim g) as [topic g1].
  now rewrite IH.
Qed.

Lemma cosine_similarity_by_cosine (X Y : list vec) :
  cosine E = cosine E' ->
  cosine_similarity E X Y = cosine_similarity E' X Y.
Proof. unfold cosine_similarity. now intros ->. Qed.

End PerCallFunctions.

Section ProcessFacts.

Context {pipeline model vec score : Type} `{Score score}.
Variable W : Process.World pipeline model vec score.

(** The model variables after the calls [get_nlp()(kw)] for the keywords
    of a list. *)
Fixpoint state_after_calls (keywords : list string)
    (M : ModelGlobals pipeline model) : ModelGlobals pipeline model :=
  match keywords with
  | [] => M
  | kw :: rest => state_after_calls rest (snd (Process.nlp_call W kw M))
  end.

(** What [extract_entities] returns for one outcome of the call. *)
Definition outcome_entities (doc_ents : option (list (string * string)))
  : list entity :=
  match doc_ents with
  | Some ents =>
      match map (fun ent => Tuple (fst ent) (snd ent)) ents with
      | [] => [Text "No specific entities found"]
      | entities => entities
      end
  | None => [Text "Error extracting entities"]
  end.

Lemma processed_outcome (doc_ents : option (list (string * string))) :
  processed_entity (outcome_entities doc_ents) = Process.entity_field doc_ents.
Proof. now destruct doc_ents as [[|ent ents]|]. Qed.

Lemma extract_entities_outcome (text : string)
    (st : Process.State pipeline model) :
  Process.extract_entities W text st
  = (outcome_entities (fst (Process.nlp_call W text (Process.model_vars st))),
     {| Process.category_vars := Process.category_vars st;
        Process.model_vars :=
          snd (Process.nlp_call W text (Process.model_vars st)) |}).
Proof.
  unfold Process.extract_entities.
  destruct (Process.nlp_call W text (Process.model_vars st))
    as [[ents|] M]; [|reflexivity].
  cbn [fst snd outcome_entities].
  now destruct (map _ ents).
Qed.

Lemma entities_of_batch_outcomes (batch : list string)
    (st : Process.State pipeline model) :
  Process.entities_of_batch W batch st
  = (map outcome_entities (Process.outcomes W batch (Process.model_vars st)),
     {| Process.category_vars := Process.category_vars st;
        Process.model_vars :=
          state_after_calls batch (Process.model_vars st) |}).
Proof.
  revert st; induction batch as [|kw batch IH]; intros st.
  - now destruct st.
  - cbn [Process.entities_of_batch Process.outcomes state_after_calls map].
    rewrite extract_entities_outcome, IH.
    cbn [Process.category_vars Process.model_vars].
    now destruct (Process.nlp_call W kw (Process.model_vars st)).
Qed.

Lemma outcomes_app (first second : list string)
    (M : ModelGlobals pipeline model) :
  Process.outcomes W (first ++ second) M
  = Process.outcomes W first M
    ++ Process.outcomes W second (state_after_calls first M).
Proof.
  revert M; induction first as [|kw first IH]; intros M; simpl;
    [reflexivity|].
  destruct (Process.nlp_call W kw M) as [doc_ents M1]. simpl.
  now rewrite IH.
Qed.

Lemma state_after_calls_app (first second : list string)
    (M : ModelGlobals pipeline model) :
  state_after_calls (first ++ second) M
  = state_after_calls second (state_after_calls first M).
Proof.
  revert M; induction first as [|kw first IH]; intros M; simpl;
    [reflexivity|]. apply IH.
Qed.

Lemma nlp_call_by_variable (text : string)
    (M M' : ModelGlobals pipeline model) :
  nlp M = nlp M' ->
  fst (Process.nlp_call W text M) = fst (Process.nlp_call W text M')
  /\ nlp (snd (Process.nlp_call W text M))
     = nlp (snd (Process.nlp_call W text M')).
Proof.
  intros Hn. unfold Process.nlp_call.
  destruct (get_nlp_by_variable (Process.loaders W) M M' Hn) as [Hr Hs].
  destruct (get_nlp (Process.loaders W) M) as [r M1].
  destruct (get_nlp (Process.loaders W) M') as [r' M1'].
  simpl in Hr, Hs. subst r'. now destruct r.
Qed.

Lemma outcomes_by_variable (keywords : list string)
    (M M' : ModelGlobals pipeline model) :
  nlp M = nlp M' ->
  Process.outcomes W keywords M = Process.outcomes W keywords M'.
Proof.
  revert M M'; induction keywords as [|kw keywords IH]; intros M M' Hn;
    simpl; [reflexivity|].
  destruct (nlp_call_by_variable kw M M' Hn) as [Hr Hs].
  destruct (Process.nlp_call W kw M) as [r M1].
  destruct (Process.nlp_call W kw M') as [r' M1'].
  simpl in Hr, Hs. subst r'. now rewrite (IH M1 M1' Hs).
Qed.

Lemma nlp_call_set (text : string) (M : ModelGlobals pipeline model)
    (p : pipeline) :
  nlp M = Some p ->
  Process.nlp_call W text M = (Process.pipeline_call W p text, M).
Proof.
  intros Hp. unfold Process.nlp_call. now rewrite (get_nlp_loaded _ _ _ Hp).
Qed.

Lemma outcomes_set (keywords : list string)
    (M : ModelGlobals pipeline model) (p : pipeline) :
  nlp M = Some p ->
  Process.outcomes W keywords M = map (Process.pipeline_call W p) keywords
  /\ state_after_calls keywords M = M.
Proof.
  intros Hp. induction keywords as [|kw keywords [IHo IHs]]; simpl;
    [now split|].
  rewrite (nlp_call_set kw M p Hp). cbn [snd]. now rewrite IHo, IHs.
Qed.

(** A property of the model variables that no call of [get_nlp] undoes
    lasts through the calls for a list of keywords. *)
Lemma state_after_calls_keeps (Q : ModelGlobals pipeline model -> Prop)
    (keywords : list string) (M : ModelGlobals pipeline model) :
  (forall M0, Q M0 -> Q (snd (get_nlp (Process.loaders W) M0))) ->
  Q M -> Q (state_after_calls keywords M).
Proof.
  intros Hkeep. revert M; induction keywords as [|kw keywords IH];
    intros M HM; simpl; [exact HM|].
  apply IH. unfold Process.nlp_call. specialize (Hkeep M HM).
  destruct (get_nlp (Process.loaders W) M) as [[p|] M1]; exact Hkeep.
Qed.

End ProcessFacts.

Section ProcessRuns.

Context {pipeline model vec score : Type} `{Score score}.
Variable W : Process.World pipeline model vec score.

Lemma same_but_entities_sym (pd pd' : ProcessedData) :
  same_but_entities pd pd' -> same_but_entities pd' pd.
Proof. intros (Hk & Hi & Ht). now repeat split. Qed.

Lemma same_but_entities_trans (pd pd' pd'' : ProcessedData) :
  same_but_entities pd pd' -> same_but_entities pd' pd'' ->
  same_but_entities pd pd''.
Proof.
  intros (Hk & Hi & Ht) (Hk' & Hi' & Ht').
  split; [|split]; congruence.
Qed.

(** The entity column of one batch and the model variables it leaves. *)
Lemma process_batch_entities m embs batch pd st p st1 :
  Process.process_batch W m embs batch pd st = (Some p, st1) ->
  Keywords p = Keywords pd ++ batch
  /\ NER_Entities p
     = NER_Entities pd
       ++ map Process.entity_field
            (Process.outcomes W batch (Process.model_vars st))
  /\ Process.model_vars st1
     = state_after_calls W batch (Process.model_vars st).
Proof.
  unfold Process.process_batch.
  destruct (Process.model_encode W m batch) as [vectors|]; [|discriminate].
  rewrite entities_of_batch_outcomes.
  cbn [Process.model_vars Process.category_vars].
  destruct (cosine_similarity _ vectors embs) as [rows|]; [|discriminate].
  destruct (topics_of_rows _ rows _) as [topics g1].
  intros Heq. injection Heq as <- <-.
  cbn [Keywords NER_Entities Process.model_vars].
  split; [reflexivity | split; [|reflexivity]].
  rewrite map_map. f_equal. apply map_ext. intros doc_ents.
  apply processed_outcome.
Qed.

Lemma batch_loop_entities m embs b keywords starts pd st M0 :
  NER_Entities pd
  = map Process.entity_field (Process.outcomes W (Keywords pd) M0) ->
  Process.model_vars st = state_after_calls W (Keywords pd) M0 ->
  NER_Entities
    (fst (fst (Process.batch_loop W m embs b keywords starts pd st)))
  = map Process.entity_field
      (Process.outcomes W
         (Keywords
            (fst (fst (Process.batch_loop W m embs b keywords starts pd st))))
         M0).
Proof.
  revert pd st; induction starts as [|i starts IH]; intros pd st Hner Hst;
    simpl; [exact Hner|].
  destruct (Process.process_batch W m embs (firstn b (skipn i keywords)) pd st)
    as [[p|] st1] eqn:Hp; [|exact Hner].
  apply process_batch_entities in Hp as (Hk & Hn & Hm).
  apply IH.
  - rewrite Hn, Hk, outcomes_app, map_app, Hner, Hst. reflexivity.
  - rewrite Hm, Hk, state_after_calls_app, Hst. reflexivity.
Qed.

(** Calls of the two getters, in any number and order, keep what each of
    them keeps. *)
Section Kept.

Variable Q : ModelGlobals pipeline model -> Prop.
Hypothesis get_nlp_keeps :
  forall M, Q M -> Q (snd (get_nlp (Process.loaders W) M)).
Hypothesis get_sentence_model_keeps :
  forall M, Q M -> Q (snd (get_sentence_model (Process.loaders W) M)).

Lemma compute_category_embeddings_vars (st : Process.State pipeline model) :
  Process.model_vars (snd (Process.compute_category_embeddings W st))
  = snd (get_sentence_model (Process.loaders W) (Process.model_vars st)).
Proof.
  unfold Process.compute_category_embeddings.
  destruct (load_google_categories _ _) as [categories g].
  destruct (get_sentence_model _ _) as [[m|] M]; [|reflexivity].
  now destruct (Process.model_encode W m categories).
Qed.

Lemma process_batch_keeps m embs batch pd st :
  Q (Process.model_vars st) ->
  Q (Process.model_vars (snd (Process.process_batch W m embs batch pd st))).
Proof.
  intros HQ. unfold Process.process_batch.
  destruct (Process.model_encode W m batch) as [vectors|]; [|exact HQ].
  rewrite entities_of_batch_outcomes.
  cbn [Process.model_vars Process.category_vars].
  assert (HQ' : Q (state_after_calls W batch (Process.model_vars st)))
    by now apply state_after_calls_keeps.
  destruct (cosine_similarity _ vectors embs) as [rows|]; [|exact HQ'].
  now destruct (topics_of_rows _ rows _) as [topics g1].
Qed.

Lemma batch_loop_keeps m embs b keywords starts pd st :
  Q (Process.model_vars st) ->
  Q (Process.model_vars
       (snd (Process.batch_loop W m embs b keywords starts pd st))).
Proof.
  revert pd st; induction starts as [|i starts IH]; intros pd st HQ; simpl;
    [exact HQ|].
  pose proof (process_batch_keeps m embs (firstn b (skipn i keywords)) pd st HQ)
    as Hp.
  destruct (Process.process_batch W m embs (firstn b (skipn i keywords)) pd st)
    as [[p|] st1]; simpl in Hp; [now apply IH | exact Hp].
Qed.

Lemma run_keeps keywords b st :
  Q (Process.model_vars st) ->
  Q (Process.model_vars
       (snd (Process.batch_process_keywords_run W keywords b st))).
Proof.
  intros HQ. unfold Process.batch_process_keywords_run.
  pose proof (get_sentence_model_keeps _ HQ) as HQ1.
  destruct (get_sentence_model (Process.loaders W) (Process.model_vars st))
    as [[m|] M1]; simpl in HQ1; [|exact HQ1].
  pose proof (compute_category_embeddings_vars
                {| Process.category_vars := Process.category_vars st;
                   Process.model_vars := M1 |}) as Hc.
  destruct (Process.compute_category_embeddings W _) as [embs st2].
  simpl in Hc.
  assert (HQ2 : Q (Process.model_vars st2))
    by (rewrite Hc; now apply get_sentence_model_keeps).
  destruct (range_step (List.length keywords) b) as [starts|];
    [now apply batch_loop_keeps | exact HQ2].
Qed.

End Kept.

(** The entity column of a run: the renderings of what the calls
    [get_nlp()(kw)] gave, one after the other from the start of the run, for
    the keywords of the rows. *)
Lemma run_entities keywords b st :
  NER_Entities (Process.batch_process_keywords W keywords b st)
  = map Process.entity_field
      (Process.outcomes W
         (Keywords (Process.batch_process_keywords W keywords b st))
         (Process.model_vars st)).
Proof.
  unfold Process.batch_process_keywords, Process.batch_process_keywords_run.
  pose proof (get_sentence_model_keeps_nlp (Process.loaders W)
                (Process.model_vars st)) as Hn1.
  destruct (get_sentence_model (Process.loaders W) (Process.model_vars st))
    as [[m|] M1]; simpl in Hn1; [|reflexivity].
  pose proof (compute_category_embeddings_vars
                {| Process.category_vars := Process.category_vars st;
                   Process.model_vars := M1 |}) as Hc.
  destruct (Process.compute_category_embeddings W _) as [embs st2].
  simpl in Hc.
  assert (Hn2 : nlp (Process.model_vars st2) = nlp (Process.model_vars st))
    by (rewrite Hc, get_sentence_model_keeps_nlp; exact Hn1).
  destruct (range_step (List.length keywords) b) as [starts|];
    [|reflexivity].
  rewrite (batch_loop_entities m embs b keywords starts empty_processed_data
             st2 (Process.model_vars st2)) by reflexivity.
  f_equal. now apply outcomes_by_variable.
Qed.

End ProcessRuns.

(** ** The orchestrator of a process and the orchestrator of one call

    [E] is an environment with the cosine and the category file of the
    world [W]. *)

Section ProcessPerCall.

Context {pipeline model vec score : Type} `{Score score}.
Variable W : Process.World pipeline model vec score.
Variable E : Env vec score.
Hypothesis same_cosine : cosine E = Process.vector_cosine W.
Hypothesis same_file : categories_file E = Process.category_file W.

Lemma process_batch_lockstep m embs batch pd pd' st :
  same_but_entities pd pd' ->
  match Process.process_batch W m embs batch pd st,
        process_batch E (Process.model_encode W m) embs batch pd'
          (Process.category_vars st) with
  | (Some p, st1), (Some p', g1) =>
      same_but_entities p p' /\ Process.category_vars st1 = g1
  | (None, st1), (None, g1) => Process.category_vars st1 = g1
  | _, _ => False
  end.
Proof.
  intros (Hk & Hi & Ht). unfold Process.process_batch, process_batch.
  destruct (Process.model_encode W m batch) as [vectors|]; [|reflexivity].
  rewrite entities_of_batch_outcomes.
  cbn [Process.model_vars Process.category_vars].
  rewrite (cosine_similarity_by_cosine
             (Process.env_at W (state_after_calls W batch (Process.model_vars st)))
             E vectors embs) by (symmetry; exact same_cosine).
  destruct (cosine_similarity E vectors embs) as [rows|]; [|reflexivity].
  rewrite (topics_of_rows_by_file
             (Process.env_at W (state_after_calls W batch (Process.model_vars st)))
             E rows (Process.category_vars st))
    by (symmetry; exact same_file).
  destruct (topics_of_rows E rows (Process.category_vars st)) as [topics g1].
  split; [|reflexivity]. unfold same_but_entities.
  cbn [Keywords Intent Google_Content_Topics].
  rewrite Hk, Hi, Ht. split; [|split]; reflexivity.
Qed.

Lemma batch_loop_lockstep m embs b keywords starts pd pd' st :
  same_but_entities pd pd' ->
  same_but_entities
    (fst (fst (Process.batch_loop W m embs b keywords starts pd st)))
    (fst (fst (batch_loop E (Process.model_encode W m) embs b keywords starts
                 pd' (Process.category_vars st))))
  /\ snd (fst (Process.batch_loop W m embs b keywords starts pd st))
     = snd (fst (batch_loop E (Process.model_encode W m) embs b keywords
                   starts pd' (Process.category_vars st)))
  /\ Process.category_vars
       (snd (Process.batch_loop W m embs b keywords starts pd st))
     = snd (batch_loop E (Process.model_encode W m) embs b keywords starts
              pd' (Process.category_vars st)).
Proof.
  revert pd pd' st; induction starts as [|i starts IH];
    intros pd pd' st Hsame; simpl.
  - split; [exact Hsame | split; reflexivity].
  - pose proof (process_batch_lockstep m embs (firstn b (skipn i keywords))
                  pd pd' st Hsame) as Hp.
    destruct (Process.process_batch W m embs (firstn b (skipn i keywords))
                pd st) as [[p|] st1];
      destruct (process_batch E (Process.model_encode W m) embs
                  (firstn b (skipn i keywords)) pd' (Process.category_vars st))
        as [[p'|] g1]; try contradiction.
    + destruct Hp as [Hp <-]. now apply IH.
    + subst g1. split; [exact Hsame | split; reflexivity].
Qed.

(** A run in the process and the run of one call go the same way, but for
    the entity column, when the call finds the sentence model as the
    process does. *)
Lemma run_lockstep keywords b st :
  sentence_model E
  = sentence_model (Process.env_at W (Process.model_vars st)) ->
  same_but_entities (Process.batch_process_keywords W keywords b st)
    (batch_process_keywords E keywords b (Process.category_vars st))
  /\ snd (fst (Process.batch_process_keywords_run W keywords b st))
     = snd (fst (batch_process_keywords_run E keywords b
                   (Process.category_vars st)))
  /\ Process.category_vars
       (snd (Process.batch_process_keywords_run W keywords b st))
     = snd (batch_process_keywords_run E keywords b (Process.category_vars st)).
Proof.
  intros Hmodel.
  unfold Process.batch_process_keywords, batch_process_keywords,
    Process.batch_process_keywords_run, batch_process_keywords_run.
  cbn [sentence_model Process.env_at] in Hmodel.
  pose proof (get_sentence_model_again (Process.loaders W)
                (Process.model_vars st)) as Hagain.
  destruct (get_sentence_model (Process.loaders W) (Process.model_vars st))
    as [[m|] M1]; cbn [fst snd] in *; rewrite Hmodel;
    [|split; [|split]; [now split | reflexivity | reflexivity]].
  unfold Process.compute_category_embeddings, compute_category_embeddings.
  cbn [Process.model_vars Process.category_vars].
  rewrite (load_google_categories_by_file (Process.env_at W M1) E
             (Process.category_vars st)) by (symmetry; exact same_file).
  destruct (load_google_categories E (Process.category_vars st))
    as [categories g1].
  rewrite Hagain, Hmodel.
  assert (Hloop : forall embs,
    let st2 := {| Process.category_vars := g1; Process.model_vars := M1 |} in
    same_but_entities
      (fst (fst (match range_step (List.length keywords) b with
                 | Some starts =>
                     Process.batch_loop W m embs b keywords starts
                       empty_processed_data st2
                 | None => (empty_processed_data, Aborted, st2)
                 end)))
      (fst (fst (match range_step (List.length keywords) b with
                 | Some starts =>
                     batch_loop E (Process.model_encode W m) embs b keywords
                       starts empty_processed_data g1
                 | None => (empty_processed_data, Aborted, g1)
                 end)))
    /\ snd (fst (match range_step (List.length keywords) b with
                 | Some starts =>
                     Process.batch_loop W m embs b keywords starts
                       empty_processed_data st2
                 | None => (empty_processed_data, Aborted, st2)
                 end))
       = snd (fst (match range_step (List.length keywords) b with
                   | Some starts =>
                       batch_loop E (Process.model_encode W m) embs b keywords
                         starts empty_processed_data g1
                   | None => (empty_processed_data, Aborted, g1)
                   end))
    /\ Process.category_vars
         (snd (match range_step (List.length keywords) b with
               | Some starts =>
                   Process.batch_loop W m embs b keywords starts
                     empty_processed_data st2
               | None => (empty_processed_data, Aborted, st2)
               end))
       = snd (match range_step (List.length keywords) b with
              | Some starts =>
                  batch_loop E (Process.model_encode W m) embs b keywords
                    starts empty_processed_data g1
              | None => (empty_processed_data, Aborted, g1)
              end)).
  { intros embs st2.
    destruct (range_step (List.length keywords) b) as [starts|].
    - apply (batch_loop_lockstep m embs b keywords starts
               empty_processed_data empty_processed_data st2).
      now split.
    - split; [now split | split; reflexivity]. }
  destruct (Process.model_encode W m categories) as [embs|]; apply Hloop.
Qed.

End ProcessPerCall.

(** ** A pipeline that is loaded whole or not at all *)

Section SteadyPipeline.

Context {pipeline model vec score : Type} `{Score score}.
Variable W : Process.World pipeline model vec score.

(** The variable [nlp] is set, or [add_pipe] returns normally on the blank
    pipeline: no call of [get_nlp] leaves an unfinished pipeline behind. *)
Definition steady_pipeline (M : ModelGlobals pipeline model) : Prop :=
  nlp M <> None
  \/ forall blank, spacy_blank (Process.loaders W) = Some blank ->
                   snd (add_pipe (Process.loaders W) blank) = true.

Lemma get_nlp_steady (M : ModelGlobals pipeline model) :
  steady_pipeline M ->
  steady_pipeline (snd (get_nlp (Process.loaders W) M))
  /\ fst (get_nlp (Process.loaders W) (snd (get_nlp (Process.loaders W) M)))
     = fst (get_nlp (Process.loaders W) M).
Proof.
  intros Hsteady. destruct (nlp M) as [p|] eqn:Hn.
  - rewrite (get_nlp_loaded _ M p Hn). cbn [snd].
    now rewrite (get_nlp_loaded _ M p Hn).
  - destruct Hsteady as [Hset | Hworld]; [congruence|].
    assert (Hlater : forall M', steady_pipeline M') by (intros M'; now right).
    split; [apply Hlater|].
    unfold get_nlp at 2 3. rewrite Hn.
    destruct (spacy_blank (Process.loaders W)) as [blank|] eqn:Hb.
    + specialize (Hworld blank eq_refl).
      destruct (add_pipe (Process.loaders W) blank) as [built returned].
      simpl in Hworld. subst returned. cbn [fst snd].
      reflexivity.
    + cbn [snd fst]. unfold get_nlp. now rewrite Hn, Hb.
Qed.

Lemma get_sentence_model_steady (M : ModelGlobals pipeline model) :
  steady_pipeline M ->
  steady_pipeline (snd (get_sentence_model (Process.loaders W) M)).
Proof.
  intros [Hset | Hworld]; [left | now right].
  now rewrite get_sentence_model_keeps_nlp.
Qed.

(** With such a pipeline the outcome of a call depends on the text only:
    it is what the environment of the moment says. *)
Lemma outcomes_steady (keywords : list string)
    (M : ModelGlobals pipeline model) :
  steady_pipeline M ->
  Process.outcomes W keywords M = map (gliner (Process.env_at W M)) keywords.
Proof.
  revert M; induction keywords as [|kw keywords IH]; intros M Hsteady;
    [reflexivity|].
  cbn [Process.outcomes map]. unfold Process.nlp_call.
  destruct (get_nlp_steady M Hsteady) as [Hnext Hagain].
  specialize (IH _ Hnext).
  cbn [gliner Process.env_at] in IH |- *.
  destruct (get_nlp (Process.loaders W) M) as [[p|] M1];
    cbn [fst snd] in *; rewrite IH, Hagain; reflexivity.
Qed.

Lemma entities_of_outcome (E : Env vec score) (kw : string) :
  entities_of E kw = Process.entity_field (gliner E kw).
Proof.
  unfold entities_of.
  change (extract_entities E kw) with (outcome_entities (gliner E kw)).
  apply processed_outcome.
Qed.

Lemma same_with_entities (pd pd' : ProcessedData) :
  same_but_entities pd pd' -> NER_Entities pd = NER_Entities pd' -> pd = pd'.
Proof.
  intros (Hk & Hi & Ht) Hn. destruct pd, pd'. simpl in *. congruence.
Qed.

Lemma run_keyword_columns (E : Env vec score) (keywords : list string)
    (b : nat) (g : Globals) :
  keyword_columns E (batch_process_keywords E keywords b g).
Proof.
  unfold batch_process_keywords, batch_process_keywords_run.
  destruct (sentence_model E) as [encode|]; [|now split].
  destruct (compute_category_embeddings E g) as [embs g1].
  destruct b as [|b]; simpl range_step; cbv iota; [now split|].
  apply batch_loop_keyword_columns. now split.
Qed.

(** With such a pipeline a run in the process is the run of one call in
    the environment of its start. *)
Lemma run_per_call (keywords : list string) (b : nat)
    (st : Process.State pipeline model) :
  steady_pipeline (Process.model_vars st) ->
  Process.batch_process_keywords W keywords b st
  = batch_process_keywords (Process.env_at W (Process.model_vars st))
      keywords b (Process.category_vars st).
Proof.
  intros Hsteady.
  destruct (run_lockstep W (Process.env_at W (Process.model_vars st))
              eq_refl eq_refl keywords b st eq_refl) as (Hsame & _ & _).
  apply same_with_entities; [exact Hsame|].
  rewrite run_entities, (outcomes_steady _ _ Hsteady), map_map.
  destruct (run_keyword_columns (Process.env_at W (Process.model_vars st))
              keywords b (Process.category_vars st)) as [_ ->].
  destruct Hsame as (-> & _ & _).
  apply map_ext. intros kw. symmetry. apply entities_of_outcome.
Qed.

(** What any run leaves of the model variables as far as a later run can
    tell: [get_sentence_model] gives what it gave, and a steady pipeline
    stays steady and [get_nlp] gives what it gave. *)
Lemma run_keeps_sentence_model (keywords : list string) (b : nat)
    (st : Process.State pipeline model) :
  fst (get_sentence_model (Process.loaders W)
         (Process.model_vars
            (snd (Process.batch_process_keywords_run W keywords b st))))
  = fst (get_sentence_model (Process.loaders W) (Process.model_vars st)).
Proof.
  apply (run_keeps W
           (fun M => fst (get_sentence_model (Process.loaders W) M)
                     = fst (get_sentence_model (Process.loaders W)
                              (Process.model_vars st))));
    [| |reflexivity].
  - intros M <-.
    apply (get_sentence_model_by_variable (Process.loaders W)).
    apply get_nlp_keeps_sentence_model.
  - intros M <-. now rewrite get_sentence_model_again.
Qed.

Lemma run_keeps_steady (keywords : list string) (b : nat)
    (st : Process.State pipeline model) :
  steady_pipeline (Process.model_vars st) ->
  steady_pipeline
    (Process.model_vars
       (snd (Process.batch_process_keywords_run W keywords b st)))
  /\ fst (get_nlp (Process.loaders W)
            (Process.model_vars
               (snd (Process.batch_process_keywords_run W keywords b st))))
     = fst (get_nlp (Process.loaders W) (Process.model_vars st)).
Proof.
  intros Hsteady.
  apply (run_keeps W
           (fun M => steady_pipeline M
                     /\ fst (get_nlp (Process.loaders W) M)
                        = fst (get_nlp (Process.loaders W)
                                 (Process.model_vars st))));
    [| |now split].
  - intros M [HM <-]. apply (get_nlp_steady M HM).
  - intros M [HM <-]. split; [now apply get_sentence_model_steady|].
    apply (get_nlp_by_variable (Process.loaders W)).
    apply get_sentence_model_keeps_nlp.
Qed.

End SteadyPipeline.

(** ** Runs in a process *)

Section ExtractionFailure.

Context {pipeline pipeline' model vec score : Type} `{Score score}.
Variable W : Process.World pipeline model vec score.




End ExtractionFailure.

Section LaterRuns.

Context {pipeline model vec score : Type} `{Score score}.
Variable W : Process.World pipeline model vec score.

(** X11. What an earlier run in the same process changes for a later
    one, in a world whose loaders act the same at every call.  Started in
    the module variables the earlier run left, the later run ends the same
    way with the same keyword, intent and topic columns as started in the
    earlier run's own starting state.  The entity column is the same too
    when the pipeline is steady at the start, [nlp] being set or [add_pipe]
    returning normally; where [add_pipe] raises it need not be. *)
Theorem run_after_earlier_run (keywords earlier : list string) (b b' : nat)
    (st : Process.State pipeline model) :
  same_but_entities
    (Process.batch_process_keywords W keywords b
       (snd (Process.batch_process_keywords_run W earlier b' st)))
    (Process.batch_process_keywords W keywords b st)
  /\ snd (fst (Process.batch_process_keywords_run W keywords b
                 (snd (Process.batch_process_keywords_run W earlier b' st))))
     = snd (fst (Process.batch_process_keywords_run W keywords b st))
  /\ (steady_pipeline W (Process.model_vars st) ->
      Process.batch_process_keywords W keywords b
        (snd (Process.batch_process_keywords_run W earlier b' st))
      = Process.batch_process_keywords W keywords b st).
Proof.
  pose (E := Process.env_at W (Process.model_vars st)).
  pose proof (run_keeps_sentence_model W earlier b' st) as Hsm.
  destruct (run_lockstep W E eq_refl eq_refl earlier b' st eq_refl)
    as (_ & _ & Hcat).
  destruct (run_lockstep W E eq_refl eq_refl keywords b st eq_refl)
    as (Hsame & Hend & _).
  assert (Hmodel :
    sentence_model E
    = sentence_model
        (Process.env_at W
           (Process.model_vars
              (snd (Process.batch_process_keywords_run W earlier b' st))))).
  { unfold E. cbn [sentence_model Process.env_at]. now rewrite Hsm. }
  destruct (run_lockstep W E eq_refl eq_refl keywords b _ Hmodel)
    as (Hsame' & Hend' & _).
  rewrite Hcat in Hsame', Hend'.
  unfold batch_process_keywords in Hsame'.
  rewrite per_call_run_after_earlier_run in Hsame', Hend'.
  fold (batch_process_keywords E keywords b (Process.category_vars st))
    in Hsame'.
  assert (Hboth :
    same_but_entities
      (Process.batch_process_keywords W keywords b
         (snd (Process.batch_process_keywords_run W earlier b' st)))
      (Process.batch_process_keywords W keywords b st)).
  { eapply same_but_entities_trans; [exact Hsame'|].
    now apply same_but_entities_sym. }
  split; [exact Hboth|]. split; [congruence|].
  intros Hsteady. apply same_with_entities; [exact Hboth|].
  destruct (run_keeps_steady W earlier b' st Hsteady) as [Hsteady' Hnlp].
  rewrite !run_entities.
  rewrite (outcomes_steady W _ _ Hsteady), (outcomes_steady W _ _ Hsteady').
  destruct Hboth as (-> & _ & _).
  f_equal. apply map_ext. intros kw. cbn [gliner Process.env_at].
  now rewrite Hnlp.
Qed.

Variable embed : string -> vec.

(** X14. With a steady pipeline, an embedder that is a function of the
    single text, a sentence model and a non-empty category list, every row
    of the result is a function of its own keyword: the columns are the
    keywords and their images under three fixed functions.  So a keyword
    gets the same row wherever it stands and however often it occurs, and
    the result for two lists put together is the two results put together.
    Where [add_pipe] raises this fails: the first call of [get_nlp] raises
    and the later ones do not. *)
Theorem rows_follow_keywords_of_steady_pipeline (m : model) (b : nat)
    (st : Process.State pipeline model) :
  steady_pipeline W (Process.model_vars st) ->
  fst (get_sentence_model (Process.loaders W) (Process.model_vars st))
  = Some m ->
  (forall texts, Process.model_encode W m texts = Some (map embed texts)) ->
  fst (load_google_categories (Process.env_at W (Process.model_vars st))
         (Process.category_vars st)) <> [] ->
  1 <= b ->
  (forall keywords,
      Process.batch_process_keywords W keywords b st
      = {| Keywords := keywords;
           Intent := map intent_of keywords;
           NER_Entities :=
             map (entities_of (Process.env_at W (Process.model_vars st)))
               keywords;
           Google_Content_Topics :=
             map (topic_for (Process.env_at W (Process.model_vars st)) embed
                    (Process.category_vars st)) keywords |})
  /\ (forall first second,
         Process.batch_process_keywords W (first ++ second) b st
         = {| Keywords :=
                Keywords (Process.batch_process_keywords W first b st)
                ++ Keywords (Process.batch_process_keywords W second b st);
              Intent :=
                Intent (Process.batch_process_keywords W first b st)
                ++ Intent (Process.batch_process_keywords W second b st);
              NER_Entities :=
                NER_Entities (Process.batch_process_keywords W first b st)
                ++ NER_Entities (Process.batch_process_keywords W second b st);
              Google_Content_Topics :=
                Google_Content_Topics
                  (Process.batch_process_keywords W first b st)
                ++ Google_Content_Topics
                     (Process.batch_process_keywords W second b st) |}).
Proof.
  intros Hsteady Hm Henc Hcats Hb.
  assert (Hrows : forall keywords,
    Process.batch_process_keywords W keywords b st
    = {| Keywords := keywords;
         Intent := map intent_of keywords;
         NER_Entities :=
           map (entities_of (Process.env_at W (Process.model_vars st)))
             keywords;
         Google_Content_Topics :=
           map (topic_for (Process.env_at W (Process.model_vars st)) embed
                  (Process.category_vars st)) keywords |}).
  { intros keywords. rewrite (run_per_call W keywords b st Hsteady).
    apply run_row_by_row; [| |exact Hcats|exact Hb];
      cbn [sentence_model Process.env_at]; rewrite Hm.
    - intros encode [= <-]. exact Henc.
    - discriminate. }
  split; [exact Hrows|].
  intros first second. rewrite !Hrows.
  cbn [Keywords Intent NER_Entities Google_Content_Topics].
  now rewrite !map_app.
Qed.

End LaterRuns.

(** ** The properties of a process on the test worlds *)


(** The batch of eight where [add_pipe] raises: the first call of
    [get_nlp] raises, the later ones return the pipeline without its entity
    component. *)
Example first_call_fails_in_eight :
  Process.outcomes half_built_world eight_keywords
    (Process.model_vars fresh_process)
  = [ None; Some []; Some []; Some []; Some []; Some []; Some []; Some [] ]
  /\ Process.batch_process_keywords_run half_built_world eight_keywords 8
       fresh_process
     = ({| Keywords := eight_keywords;
           Intent := [ "informational"; "other"; "commercial investigation";
                       "other"; "navigational"; "local"; "transactional";
                       "other" ];
           NER_Entities :=
             [ "Error extracting entities"; "No specific entities found";
               "No specific entities found"; "No specific entities found";
               "No specific entities found"; "No specific entities found";
               "No specific entities found"; "No specific entities found" ];
           Google_Content_Topics :=
             Google_Content_Topics
               (Process.batch_process_keywords working_world eight_keywords 8
                  fresh_process) |},
        Completed,
        {| Process.category_vars :=
             {| google_categories := ["Arts"; "Travel"; "Autos & Vehicles"] |};
           Process.model_vars :=
             {| nlp := Some false; sentence_model_var := Some tt |} |}).
Proof. vm_compute. split; reflexivity. Qed.

(** The batch of eight where both models load: the pipeline raises on the
    fourth keyword only. *)
Example fourth_keyword_fails_in_eight :
  Process.batch_process_keywords working_world eight_keywords 8 fresh_process
  = {| Keywords := eight_keywords;
       Intent := [ "informational"; "other"; "commercial investigation";
                   "other"; "navigational"; "local"; "transactional";
                   "other" ];
       NER_Entities :=
         [ "No specific entities found"; "paris (location)";
           "No specific entities found"; "Error extracting entities";
           "No specific entities found"; "No specific entities found";
           "No specific entities found"; "No specific entities found" ];
       Google_Content_Topics :=
         [ "Travel"; "Autos & Vehicles"; "Autos & Vehicles"; "Travel";
           "Autos & Vehicles"; "Autos & Vehicles"; "Autos & Vehicles";
           "Travel" ] |}.
Proof. vm_compute. reflexivity. Qed.

(** Where [add_pipe] raises, a keyword has the error message in the first
    run of a process and "No specific entities found" in the next, the
    other columns being the same. *)
Example earlier_run_changes_entity_column :
  Process.batch_process_keywords half_built_world ["zebra"] 8 fresh_process
  = {| Keywords := ["zebra"]; Intent := ["other"];
       NER_Entities := ["Error extracting entities"];
       Google_Content_Topics := ["Travel"] |}
  /\ Process.batch_process_keywords half_built_world ["zebra"] 8
       (snd (Process.batch_process_keywords_run half_built_world ["zebra"] 8
               fresh_process))
     = {| Keywords := ["zebra"]; Intent := ["other"];
          NER_Entities := ["No specific entities found"];
          Google_Content_Topics := ["Travel"] |}.
Proof. vm_compute. split; reflexivity. Qed.

(** Where [add_pipe] raises, the two rows of one keyword differ. *)
Example same_keyword_two_entity_fields :
  Process.batch_process_keywords half_built_world ["zebra"; "zebra"] 8
    fresh_process
  = {| Keywords := ["zebra"; "zebra"]; Intent := ["other"; "other"];
       NER_Entities :=
         [ "Error extracting entities"; "No specific entities found" ];
       Google_Content_Topics := ["Travel"; "Travel"] |}.
Proof. vm_compute. reflexivity. Qed.

(** X14 in a fresh process where both models load, in batches of three. *)
Lemma rows_follow_keywords_of_steady_pipeline_witness :
  (forall keywords,
      Process.batch_process_keywords working_world keywords 3 fresh_process
      = {| Keywords := keywords;
           Intent := map intent_of keywords;
           NER_Entities :=
             map (entities_of
                    (Process.env_at working_world
                       (Process.model_vars fresh_process))) keywords;
           Google_Content_Topics :=
             map (topic_for
                    (Process.env_at working_world
                       (Process.model_vars fresh_process))
                    stub_embed (Process.category_vars fresh_process))
               keywords |})
  /\ (forall first second,
         Process.batch_process_keywords working_world (first ++ second) 3
           fresh_process
         = {| Keywords :=
                Keywords (Process.batch_process_keywords working_world first
                            3 fresh_process)
                ++ Keywords (Process.batch_process_keywords working_world
                               second 3 fresh_process);
              Intent :=
                Intent (Process.batch_process_keywords working_world first 3
                          fresh_process)
                ++ Intent (Process.batch_process_keywords working_world
                             second 3 fresh_process);
              NER_Entities :=
                NER_Entities (Process.batch_process_keywords working_world
                                first 3 fresh_process)
                ++ NER_Entities (Process.batch_process_keywords working_world
                                   second 3 fresh_process);
              Google_Content_Topics :=
                Google_Content_Topics
                  (Process.batch_process_keywords working_world first 3
                     fresh_process)
                ++ Google_Content_Topics
                     (Process.batch_process_keywords working_world second 3
                        fresh_process) |}).
Proof.
  apply (rows_follow_keywords_of_steady_pipeline working_world stub_embed tt
           3 fresh_process).
  - right. intros blank _. reflexivity.
  - reflexivity.
  - intros texts. reflexivity.
  - vm_compute. discriminate.
  - lia.
Defined.

(** X11 where both models load: a run after a run of another keyword list
    gives what it gives in a fresh process. *)
Lemma run_after_earlier_run_witness :
  Process.batch_process_keywords working_world eight_keywords 8
    (snd (Process.batch_process_keywords_run working_world
            ["zebra"; "crash test"] 3 fresh_process))
  = Process.batch_process_keywords working_world eight_keywords 8
      fresh_process.
Proof.
  apply (run_after_earlier_run working_world eight_keywords
           ["zebra"; "crash test"] 8 3 fresh_process).
  right. intros blank _. reflexivity.
Defined.
